(** * Label-Printer reconciliation scripts: a shallow embedding

    The repository holds stand-alone Python scripts that read a spreadsheet
    of articles, page through the catalog API, compare article numbers and
    prepare import records:

    - [check-missing-correct.py]      (module [CheckMissingCorrect])
    - [compare-excel-system.py]       (module [CompareExcelSystem])
    - [mark-non-excel-articles.py]    (module [MarkNonExcelArticles])
    - [prepare-import-data.py]        (module [PrepareImportData])

    The first part of this file embeds the Python values and built-ins the
    scripts rely on (module [Py]) and then each script, line by line.  The
    second part states and proves the properties.

    Conventions of the embedding:
    - a Python [str] is a Rocq [string] holding its UTF-8 bytes;
    - a Python [float] is an exact rational, or an infinity, or NaN
      ([Py.pyfloat]); rounding to binary64, overflow and underflow are not
      part of the model;
    - a Python exception is the [Raise] branch of [Py.result];
    - a Python [set] of strings is a [gset string], a [dict] that is only
      looked up is a [gmap], a [dict] whose order matters is an association
      list. *)

From Stdlib Require Import Ascii QArith.
From stdpp Require Import base decidable option list gmap sets strings pretty sorting.

Local Open Scope Z_scope.
Local Set Warnings "-clear-no-such-hyp".

(* ===================================================================== *)
(** * Part I: the embedding                                               *)
(* ===================================================================== *)

Module Py.

(** ** Exceptions and results *)

Inductive exn :=
| AttributeError | KeyError | TypeError | ValueError | IndexError
| ZeroDivisionError | JSONDecodeError | ConnectionError
| Unmodelled.  (* [str()] of a list or a dict: its text is not modelled *)

Inductive result (A : Type) :=
| Ok (a : A)
| Raise (e : exn).
Arguments Ok {A} a.
Arguments Raise {A} e.

Definition bind {A B} (m : result A) (k : A → result B) : result B :=
  match m with
  | Ok a => k a
  | Raise e => Raise e
  end.

#[global] Instance result_ret : MRet result := @Ok.
#[global] Instance result_bind : MBind result := λ A B k m, bind m k.
#[global] Instance result_fmap : FMap result :=
  λ A B f m, bind m (λ a, Ok (f a)).

#[global] Instance exn_eq_dec : EqDecision exn.
Proof. solve_decision. Defined.

(** ** Strings *)

Fixpoint prefixb (p s : string) : bool :=
  match p, s with
  | EmptyString, _ => true
  | String a p', String b s' => if Ascii.eqb a b then prefixb p' s' else false
  | String _ _, EmptyString => false
  end.

Fixpoint drop_str (n : nat) (s : string) : string :=
  match n, s with
  | O, _ => s
  | S n', String _ s' => drop_str n' s'
  | S _, EmptyString => EmptyString
  end.

(** [sub in s] *)
Fixpoint contains (sub s : string) : bool :=
  prefixb sub s ||
  match s with
  | EmptyString => false
  | String _ s' => contains sub s'
  end.

(** [s.replace(old, new)] for a non-empty [old] (the scripts replace
    [","] and the euro sign): occurrences are taken from the left and do
    not overlap.  [skip] counts the bytes of a match still to be dropped. *)
Fixpoint replace_go (old new : string) (skip : nat) (s : string) : string :=
  match s with
  | EmptyString => EmptyString
  | String c s' =>
      match skip with
      | S k => replace_go old new k s'
      | O =>
          if prefixb old s
          then new +:+ replace_go old new (String.length old - 1) s'
          else String c (replace_go old new 0 s')
      end
  end.

Definition replace (old new s : string) : string :=
  match old with
  | EmptyString => s
  | _ => replace_go old new 0 s
  end.

Definition bytes (l : list nat) : string :=
  String.string_of_list_ascii (Ascii.ascii_of_nat <$> l).

(** The code points for which [str.isspace] holds, in UTF-8. *)
Definition whitespace : list string :=
  (bytes <$> [ [9%nat]; [10%nat]; [11%nat]; [12%nat]; [13%nat];
               [28%nat]; [29%nat]; [30%nat]; [31%nat]; [32%nat] ]) ++
  (bytes <$> [ [194; 133]; [194; 160]; [225; 154; 128] ]%nat) ++
  ((λ b, bytes [226; 128; b]%nat) <$> seq 128 11) ++
  (bytes <$> [ [226; 128; 168]; [226; 128; 169]; [226; 128; 175];
               [226; 129; 159]; [227; 128; 128] ]%nat).

(** [s] without one leading whitespace code point, if it has one. *)
Fixpoint drop_space (pats : list string) (s : string) : option string :=
  match pats with
  | [] => None
  | p :: pats' =>
      if prefixb p s then Some (drop_str (String.length p) s)
      else drop_space pats' s
  end.

Fixpoint lstrip_go (pats : list string) (fuel : nat) (s : string) : string :=
  match fuel with
  | O => s
  | S fuel' =>
      match drop_space pats s with
      | Some s' => lstrip_go pats fuel' s'
      | None => s
      end
  end.

Definition lstrip (s : string) : string :=
  lstrip_go whitespace (String.length s) s.

Definition rstrip (s : string) : string :=
  String.rev (lstrip_go (String.rev <$> whitespace) (String.length s) (String.rev s)).

(** [s.strip()] *)
Definition strip (s : string) : string := rstrip (lstrip s).

(** ** Floats *)

Inductive pyfloat :=
| FFin (q : Q)         (* a finite value *)
| FInf (neg : bool)    (* [inf] and [-inf] *)
| FNaN.

Definition fzero : pyfloat := FFin 0.
Definition of_Z (z : Z) : pyfloat := FFin (inject_Z z).

(** [x == y] on floats: NaN equals nothing. *)
Definition feqb (x y : pyfloat) : bool :=
  match x, y with
  | FFin p, FFin q => Qeq_bool p q
  | FInf a, FInf b => Bool.eqb a b
  | _, _ => false
  end.

(** [x > y] on floats: false whenever NaN is involved. *)
Definition fgtb (x y : pyfloat) : bool :=
  match x, y with
  | FFin p, FFin q => negb (Qle_bool p q)
  | FInf false, FFin _ => true
  | FInf false, FInf true => true
  | FFin _, FInf true => true
  | _, _ => false
  end.

(** ** [float(s)] on a string

    The grammar of the Python reference for [float]: surrounding white
    space is dropped, then
    [[sign] (number [exponent] | "inf" | "infinity" | "nan")] where
    [number] is [digitpart "." digitpart], [digitpart ["."]] or
    ["." digitpart], and a [digitpart] is digits with single underscores
    between them.  [None] stands for [ValueError].  Only the ASCII
    digits are read as digits here; Python also reads the decimal digits
    of other scripts. *)

Definition digit_of (c : Ascii.ascii) : option Z :=
  let n := Z.of_N (Ascii.N_of_ascii c) in
  if (48 <=? n) && (n <=? 57) then Some (n - 48) else None.

Fixpoint digitpart_go (s : string) (acc : list Z) : list Z * string :=
  match s with
  | EmptyString => (acc, s)
  | String c s' =>
      match digit_of c with
      | Some d => digitpart_go s' (acc ++ [d])
      | None =>
          if Ascii.eqb c "_"%char then
            match s' with
            | String c2 s'' =>
                match digit_of c2 with
                | Some d => digitpart_go s'' (acc ++ [d])
                | None => (acc, s)
                end
            | EmptyString => (acc, s)
            end
          else (acc, s)
      end
  end.

Definition digitpart (s : string) : option (list Z * string) :=
  match s with
  | String c s' =>
      match digit_of c with
      | Some d => Some (digitpart_go s' [d])
      | None => None
      end
  | EmptyString => None
  end.

Definition digits_value (ds : list Z) : Z :=
  fold_left (λ a d, 10 * a + d) ds 0.

(** [m * 10 ^ e] *)
Definition decimal (m e : Z) : Q :=
  if 0 <=? e then inject_Z (m * 10 ^ e)
  else Qred (Qmake m (Pos.pow 10 (Z.to_pos (- e)))).

(** [number]: integer digits, fraction digits, rest. *)
Definition number (s : string) : option (list Z * list Z * string) :=
  match digitpart s with
  | Some (ip, r) =>
      match r with
      | String "." r' =>
          match digitpart r' with
          | Some (fp, r'') => Some (ip, fp, r'')
          | None => Some (ip, [], r')
          end
      | _ => Some (ip, [], r)
      end
  | None =>
      match s with
      | String "." r' =>
          match digitpart r' with
          | Some (fp, r'') => Some ([], fp, r'')
          | None => None
          end
      | _ => None
      end
  end.

(** [[sign]]: whether the sign is minus, and the rest. *)
Definition sign (s : string) : bool * string :=
  match s with
  | String "-" s' => (true, s')
  | String "+" s' => (false, s')
  | _ => (false, s)
  end.

(** [exponent], which has to reach the end of the text. *)
Definition exponent (s : string) : option Z :=
  match s with
  | EmptyString => Some 0
  | String c s' =>
      if Ascii.eqb c "e"%char || Ascii.eqb c "E"%char then
        let '(neg, s'') := sign s' in
        match digitpart s'' with
        | Some (ds, EmptyString) =>
            Some (if neg then - digits_value ds else digits_value ds)
        | _ => None
        end
      else None
  end.

Definition lower_ascii (c : Ascii.ascii) : ascii :=
  let n := Ascii.N_of_ascii c in
  if ((65 <=? n) && (n <=? 90))%N then Ascii.ascii_of_N (n + 32) else c.

Fixpoint lower (s : string) : string :=
  match s with
  | EmptyString => EmptyString
  | String c s' => String (lower_ascii c) (lower s')
  end.

Definition float_of_str (s : string) : option pyfloat :=
  let '(neg, body) := sign (strip s) in
  let name := lower body in
  if String.eqb name "inf" || String.eqb name "infinity" then Some (FInf neg)
  else if String.eqb name "nan" then Some FNaN
  else
    match number body with
    | Some (ip, fp, r) =>
        match exponent r with
        | Some e =>
            let m := digits_value (ip ++ fp) in
            Some (FFin (decimal (if neg then - m else m)
                                (e - Z.of_nat (length fp))))
        | None => None
        end
    | None => None
    end.

(** ** Spreadsheet cells, as pandas hands them to the scripts

    A float or a date carries the text [str()] gives for it: that text
    is a function of the value in Python, so a cell is represented with
    more freedom than it has.  An empty cell is read as NaN. *)

Inductive cell :=
| CNone
| CStr (s : string)
| CInt (z : Z)
| CBool (b : bool)
| CFloat (x : pyfloat) (shown : string)
| CDate (shown : string).

Definition nan_cell : cell := CFloat FNaN "nan".

(** [pd.isna(val)] and [pd.notna(val)] on a scalar *)
Definition isna (val : cell) : bool :=
  match val with
  | CNone | CFloat FNaN _ => true
  | _ => false
  end.
Definition notna (val : cell) : bool := negb (isna val).

Definition str_bool (b : bool) : string := if b then "True" else "False".

(** [str(val)] *)
Definition str_cell (val : cell) : string :=
  match val with
  | CNone => "None"
  | CStr s => s
  | CInt z => pretty z
  | CBool b => str_bool b
  | CFloat FNaN _ => "nan"
  | CFloat (FInf neg) _ => if neg then "-inf" else "inf"
  | CFloat (FFin _) shown => shown
  | CDate shown => shown
  end.

(** [float(val)] *)
Definition float_cell (val : cell) : result pyfloat :=
  match val with
  | CNone | CDate _ => Raise TypeError
  | CStr s =>
      match float_of_str s with
      | Some x => Ok x
      | None => Raise ValueError
      end
  | CInt z => Ok (of_Z z)
  | CBool b => Ok (of_Z (if b then 1 else 0))
  | CFloat x _ => Ok x
  end.

(** Truth value of a string: [if s:] *)
Definition nonempty (s : string) : bool :=
  match s with
  | EmptyString => false
  | String _ _ => true
  end.

(** A row of the data frame ([row[col]], [row.get(col, dflt)],
    [col in row]) and the data frame itself. *)
Definition row := gmap string cell.

Record dataframe := DataFrame {
  columns : list string;
  rows : list row
}.

Definition row_getitem (r : row) (col : string) : result cell :=
  match r !! col with
  | Some c => Ok c
  | None => Raise KeyError
  end.

Definition row_get (r : row) (col : string) (dflt : cell) : cell :=
  default dflt (r !! col).

(** [df[col]]: the cells of a column, top to bottom *)
Definition column (df : dataframe) (col : string) : result (list cell) :=
  if decide (col ∈ columns df)
  then mapM (λ r, row_getitem r col) (rows df)
  else Raise KeyError.

(** ** JSON values, as [response.json()] returns them

    An object lists its entries in insertion order, one entry per key. *)

#[warnings="-register-all"]
Inductive jval :=
| JNull
| JBool (b : bool)
| JInt (z : Z)
| JFloat (x : pyfloat) (shown : string)
| JStr (s : string)
| JArr (items : list jval)
| JObj (fields : list (string * jval)).

Fixpoint assoc {V} (k : string) (d : list (string * V)) : option V :=
  match d with
  | [] => None
  | (k', v) :: d' => if decide (k' = k) then Some v else assoc k d'
  end.

(** [d[k] = v] on an insertion-ordered dict *)
Fixpoint dict_set {V} (k : string) (v : V) (d : list (string * V))
  : list (string * V) :=
  match d with
  | [] => [(k, v)]
  | (k', v') :: d' =>
      if decide (k' = k) then (k, v) :: d' else (k', v') :: dict_set k v d'
  end.

Definition keys {V} (d : list (string * V)) : list string := fst <$> d.

(** [d.get(k, dflt)] *)
Definition get (d : jval) (k : string) (dflt : jval) : result jval :=
  match d with
  | JObj fields => Ok (default dflt (assoc k fields))
  | _ => Raise AttributeError
  end.

(** [d[k]] for a string [k] *)
Definition getitem (d : jval) (k : string) : result jval :=
  match d with
  | JObj fields =>
      match assoc k fields with
      | Some v => Ok v
      | None => Raise KeyError
      end
  | _ => Raise TypeError
  end.

(** Truth value: [if v:] *)
Definition truthy (v : jval) : bool :=
  match v with
  | JNull => false
  | JBool b => b
  | JInt z => negb (z =? 0)
  | JFloat x _ => negb (feqb x fzero)
  | JStr s => nonempty s
  | JArr items => match items with [] => false | _ => true end
  | JObj fields => match fields with [] => false | _ => true end
  end.

(** [str(v)] *)
Definition str (v : jval) : result string :=
  match v with
  | JNull => Ok "None"
  | JBool b => Ok (str_bool b)
  | JInt z => Ok (pretty z)
  | JFloat FNaN _ => Ok "nan"
  | JFloat (FInf neg) _ => Ok (if neg then "-inf" else "inf")
  | JFloat (FFin _) shown => Ok shown
  | JStr s => Ok s
  | JArr _ | JObj _ => Raise Unmodelled
  end.

(** The code points of a string, each as a string. *)
Definition utf8_width (c : Ascii.ascii) : nat :=
  let n := Ascii.N_of_ascii c in
  if (n <? 192)%N then 1 else if (n <? 224)%N then 2
  else if (n <? 240)%N then 3 else 4.

Fixpoint take_str (n : nat) (s : string) : string :=
  match n, s with
  | S n', String c s' => String c (take_str n' s')
  | _, _ => EmptyString
  end.

Fixpoint code_points_go (fuel : nat) (s : string) : list string :=
  match fuel, s with
  | S fuel', String c _ =>
      take_str (utf8_width c) s
        :: code_points_go fuel' (drop_str (utf8_width c) s)
  | _, _ => []
  end.

Definition code_points (s : string) : list string :=
  code_points_go (String.length s) s.

(** [acc.extend(x)]: a list gives its items, a string its characters, a
    dict its keys; nothing else can be iterated. *)
Definition extend (acc : list jval) (x : jval) : result (list jval) :=
  match x with
  | JArr items => Ok (acc ++ items)
  | JStr s => Ok (acc ++ (JStr <$> code_points s))
  | JObj fields => Ok (acc ++ (JStr <$> keys fields))
  | _ => Raise TypeError
  end.

(** [sep.join(l)] and the double quote *)
Fixpoint join (sep : string) (l : list string) : string :=
  match l with
  | [] => ""
  | [x] => x
  | x :: l' => x +:+ sep +:+ join sep l'
  end.

Definition dquote : string := String (Ascii.ascii_of_nat 34) "".

(** ** [sorted], sets and the summary's coverage entry *)

(** [sorted(l)] on strings and [sorted(l, key=...)] with a string key.
    Python's sort is stable; the scripts sort strings, or records under
    keys that are pairwise different, where every sorting algorithm
    returns the same list. *)
Definition sorted (l : list string) : list string :=
  merge_sort String.le l.

Definition le_on {A} (key : A → string) (a b : A) : Prop :=
  String.le (key a) (key b).

#[global] Instance le_on_dec {A} (key : A → string) : RelDecision (le_on key).
Proof. intros a b. unfold le_on. apply _. Defined.

Definition sorted_on {A} (key : A → string) (l : list A) : list A :=
  merge_sort (le_on key) l.

(** The order in which a [for] loop, [list(...)] or [sorted(...)] walks
    a set of strings.  It depends on the strings' hashes, which change
    from one run of the interpreter to the next: a script only knows
    that every element comes once. *)
Definition set_order (iter : gset string → list string) : Prop :=
  ∀ X, iter X ≡ₚ elements X.

(** The text of a coverage entry: [Formatted p] is [f"{p:.1f}%"],
    [Literal s] is [s] as written in the script. *)
Inductive coverage_entry :=
| Formatted (p : Q)
| Literal (s : string).

(** [a / b * 100] on two lengths *)
Definition percentage (a b : nat) : result Q :=
  match b with
  | O => Raise ZeroDivisionError
  | S _ => Ok (inject_Z (Z.of_nat a) / inject_Z (Z.of_nat b) * 100)%Q
  end.

(** ** Iteration and line ends *)

(** [for x in v:] on a JSON value: a list gives its items, a string its
    characters, a dict its keys; nothing else can be iterated. *)
Definition iterate (v : jval) : result (list jval) := extend [] v.

(** The line feed, and the first [n] characters of a text: [s[:n]] *)
Definition nl : string := String (Ascii.ascii_of_nat 10) "".

Definition first_chars (n : nat) (s : string) : string :=
  foldr String.app "" (take n (code_points s)).

End Py.

(** The catalog API: the outcome of [requests.get(...).json()] for each
    page number.  [Raise] is a transport failure or a body that is not
    JSON. *)
Definition server := nat → Py.result Py.jval.

(* ===================================================================== *)
(** ** prepare-import-data.py                                             *)
(* ===================================================================== *)

Module PrepareImportData.
Import Py.

(** *** Lines 27-40: paging through the catalog *)

(** One turn of [while True:] once [data] is there: the list so far and
    whether the loop goes on to the next page. *)
Definition fetch_page (data : jval) (all_system_articles : list jval)
  : result (bool * list jval) :=
  success ← get data "success" JNull;
  go ← (if truthy success
        then d ← get data "data" JNull; Ok (truthy d)
        else Ok false);
  if go : bool then
    items ← get data "data" (JArr []);
    all_system_articles ← extend all_system_articles items;
    pagination ← get data "pagination" (JObj []);
    hasNext ← get pagination "hasNext" (JBool false);
    if negb (truthy hasNext) then Ok (false, all_system_articles)
    else Ok (true, all_system_articles)
  else Ok (false, all_system_articles).

(** The loop; [None] when [fuel] turns are not enough. *)
Fixpoint fetch_loop (fuel : nat) (srv : server) (page : nat)
    (all_system_articles : list jval) : option (result (list jval)) :=
  match fuel with
  | O => None
  | S fuel' =>
      match data ← srv page; fetch_page data all_system_articles with
      | Raise e => Some (Raise e)
      | Ok (true, acc) => fetch_loop fuel' srv (S page) acc
      | Ok (false, acc) => Some (Ok acc)
      end
  end.

Definition fetch (fuel : nat) (srv : server) : option (result (list jval)) :=
  fetch_loop fuel srv 1 [].

(** Line 42 *)
Fixpoint system_article_numbers (all_system_articles : list jval)
  : result (gset string) :=
  match all_system_articles with
  | [] => Ok ∅
  | a :: rest =>
      num ← getitem a "articleNumber";
      s ← str num;
      numbers ← system_article_numbers rest;
      Ok ({[strip s]} ∪ numbers)
  end.

(** Lines 46-51 *)
Fixpoint missing_articles (system_article_numbers : gset string)
    (rows : list row) : result (list row) :=
  match rows with
  | [] => Ok []
  | r :: rest =>
      num ← row_getitem r "Artikelnummer";
      let article_num := strip (str_cell num) in
      missing ← missing_articles system_article_numbers rest;
      if bool_decide (article_num ∉ system_article_numbers)
         && negb (String.eqb article_num "nan")
      then Ok (r :: missing)
      else Ok missing
  end.

(** *** Lines 56-151: classification *)

(** A price after [to_float]: a number or a text. *)
Inductive pval :=
| VNum (x : pyfloat)
| VStr (s : string).

Record tier := Tier {
  quantity : option Z;
  tier_price : pval
}.

Record import_article := Article {
  articleNumber : string;
  productName : string;
  description : string;
  currency : string;
  sourceUrl : string;
  category : string;
  published : bool;
  verified : bool;
  ocrConfidence : Q;
  price : option pval;
  tieredPricesText : option string;
  tieredPrices : option (list tier);
  manufacturer : option string;
  ean : option string
}.

Definition set_price (v : pval) (a : import_article) : import_article :=
  Article (articleNumber a) (productName a) (description a) (currency a)
    (sourceUrl a) (category a) (published a) (verified a) (ocrConfidence a)
    (Some v) (tieredPricesText a) (tieredPrices a) (manufacturer a) (ean a).

Definition set_tieredPricesText (t : string) (a : import_article) : import_article :=
  Article (articleNumber a) (productName a) (description a) (currency a)
    (sourceUrl a) (category a) (published a) (verified a) (ocrConfidence a)
    (price a) (Some t) (tieredPrices a) (manufacturer a) (ean a).

Definition set_tieredPrices (ts : list tier) (a : import_article) : import_article :=
  Article (articleNumber a) (productName a) (description a) (currency a)
    (sourceUrl a) (category a) (published a) (verified a) (ocrConfidence a)
    (price a) (tieredPricesText a) (Some ts) (manufacturer a) (ean a).

Definition set_verified (b : bool) (a : import_article) : import_article :=
  Article (articleNumber a) (productName a) (description a) (currency a)
    (sourceUrl a) (category a) (published a) b (ocrConfidence a)
    (price a) (tieredPricesText a) (tieredPrices a) (manufacturer a) (ean a).

Definition set_manufacturer (m : string) (a : import_article) : import_article :=
  Article (articleNumber a) (productName a) (description a) (currency a)
    (sourceUrl a) (category a) (published a) (verified a) (ocrConfidence a)
    (price a) (tieredPricesText a) (tieredPrices a) (Some m) (ean a).

Definition set_ean (e : string) (a : import_article) : import_article :=
  Article (articleNumber a) (productName a) (description a) (currency a)
    (sourceUrl a) (category a) (published a) (verified a) (ocrConfidence a)
    (price a) (tieredPricesText a) (tieredPrices a) (manufacturer a) (Some e).

Record import_stats := Stats {
  single_price : nat;
  tiered_price : nat;
  auf_anfrage : nat;
  needs_tier_quantities : nat
}.

Definition stats0 : import_stats := Stats 0 0 0 0.

Definition incr_single_price (s : import_stats) : import_stats :=
  Stats (S (single_price s)) (tiered_price s) (auf_anfrage s)
    (needs_tier_quantities s).
Definition incr_tiered_price (s : import_stats) : import_stats :=
  Stats (single_price s) (S (tiered_price s)) (auf_anfrage s)
    (needs_tier_quantities s).
Definition incr_auf_anfrage (s : import_stats) : import_stats :=
  Stats (single_price s) (tiered_price s) (S (auf_anfrage s))
    (needs_tier_quantities s).
Definition incr_needs_tier_quantities (s : import_stats) : import_stats :=
  Stats (single_price s) (tiered_price s) (auf_anfrage s)
    (S (needs_tier_quantities s)).

(** Lines 86-99 *)
Definition to_float (val : cell) : pval :=
  if isna val then VNum fzero
  else
    match val with
    | CStr s =>
        if contains "Auf Anfrage" s || contains "auf Anfrage" s
        then VStr "Auf Anfrage"
        else
          match float_of_str (strip (replace "€" "" (replace "," "." s))) with
          | Some x => VNum x
          | None => VNum fzero
          end
    | _ =>
        match float_cell val with
        | Ok x => VNum x
        | Raise _ => VNum fzero
        end
    end.

(** [v == 'text'], [v == 0], [v != w] and [v > 0] on prices.  Comparing
    a text with a number for equality is false; ordering them raises
    [TypeError]. *)
Definition eq_text (v : pval) (t : string) : bool :=
  match v with
  | VStr s => String.eqb s t
  | VNum _ => false
  end.

Definition eq_zero (v : pval) : bool :=
  match v with
  | VNum x => feqb x fzero
  | VStr _ => false
  end.

Definition ne (v w : pval) : bool :=
  match v, w with
  | VNum x, VNum y => negb (feqb x y)
  | VStr s, VStr t => negb (String.eqb s t)
  | _, _ => true
  end.

Definition gt_zero (v : pval) : result bool :=
  match v with
  | VNum x => Ok (fgtb x fzero)
  | VStr _ => Raise TypeError
  end.

(** [a or b] and [a and b], the right operand evaluated only if needed *)
Definition or_else (a b : result bool) : result bool :=
  x ← a; if x : bool then Ok true else b.
Definition and_then (a b : result bool) : result bool :=
  x ← a; if x : bool then b else Ok false.

Definition append_tier_if (c : bool) (p : pval) (tiers : list tier) : list tier :=
  if c then tiers ++ [Tier None p] else tiers.

(** Lines 106-145: the if/elif chain on the four coerced prices *)
Definition classify (article : import_article) (stats : import_stats)
    (preis1 preis2 preis3 preis4 : pval) : result (import_article * import_stats) :=
  if eq_text preis1 "Auf Anfrage"
     || (eq_zero preis1 && eq_zero preis2 && eq_zero preis3 && eq_zero preis4)
  then
    Ok (set_tieredPricesText "Auf Anfrage" (set_price (VNum fzero) article),
        incr_auf_anfrage stats)
  else
    staffel ← or_else (gt_zero preis2) (or_else (gt_zero preis3) (gt_zero preis4));
    if staffel : bool then
      p1 ← gt_zero preis1;
      let article := set_price (if p1 : bool then preis1 else preis2) article in
      t2 ← and_then (gt_zero preis2) (Ok (ne preis2 preis1));
      let tiers := append_tier_if t2 preis2 [] in
      t3 ← and_then (gt_zero preis3) (Ok (ne preis3 preis2));
      let tiers := append_tier_if t3 preis3 tiers in
      t4 ← and_then (gt_zero preis4) (Ok (ne preis4 preis3));
      let tiers := append_tier_if t4 preis4 tiers in
      match tiers with
      | _ :: _ =>
          Ok (set_manufacturer "NEEDS_TIER_QUANTITIES"
                (set_verified false (set_tieredPrices tiers article)),
              incr_needs_tier_quantities (incr_tiered_price stats))
      | [] => Ok (article, incr_single_price stats)
      end
    else
      einzel ← gt_zero preis1;
      if einzel : bool then
        Ok (set_price preis1 article, incr_single_price stats)
      else
        Ok (set_tieredPricesText "Preis nicht verfügbar"
              (set_price (VNum fzero) article),
            incr_auf_anfrage stats).

(** Lines 78-81 and 101-104: a price column of the row, read with default
    [0] and coerced *)
Definition coerced_price (r : row) (col : string) : pval :=
  to_float (row_get r col (CInt 0)).

(** Lines 65-151: the body of [for row in missing_articles:] *)
Definition import_row (r : row) (stats : import_stats) : result (import_article * import_stats) :=
  num ← row_getitem r "Artikelnummer";
  let article :=
    {| articleNumber := strip (str_cell num);
       productName := str_cell (row_get r "Matchcode" (CStr ""));
       description := str_cell (row_get r "Beschreibung" (CStr ""));
       currency := "EUR";
       sourceUrl := "https://shop.firmenich.de";
       category := "FROM_EXCEL";
       published := true;
       verified := true;
       ocrConfidence := 1%Q;
       price := None;
       tieredPricesText := None;
       tieredPrices := None;
       manufacturer := None;
       ean := None |} in
  let preis1 := coerced_price r "Preis 1" in
  let preis2 := coerced_price r "Preis 2" in
  let preis3 := coerced_price r "Preis 3" in
  let preis4 := coerced_price r "Preis 4" in
  let einheit := str_cell (row_get r "Einheit" (CStr "Stück")) in
  '(article, stats) ← classify article stats preis1 preis2 preis3 preis4;
  if nonempty einheit && negb (String.eqb einheit "nan")
  then Ok (set_ean einheit article, stats)
  else Ok (article, stats).

(** Lines 56-151: the loop over the missing rows *)
Fixpoint import_rows (rows : list row)
    (import_articles : list import_article) (stats : import_stats)
  : result (list import_article * import_stats) :=
  match rows with
  | [] => Ok (import_articles, stats)
  | r :: rest =>
      '(article, stats) ← import_row r stats;
      import_rows rest (import_articles ++ [article]) stats
  end.

(** Lines 160-166: the import file, [now] being the clock's reading *)
Record import_data := ImportData {
  timestamp : string;
  source : string;
  statistics : import_stats;
  totalArticles : nat;
  articles : list import_article
}.

Definition make_import_data (now : string) (import_articles : list import_article)
    (stats : import_stats) : import_data :=
  {| timestamp := now;
     source := "Excel Import";
     statistics := stats;
     totalArticles := length import_articles;
     articles := import_articles |}.

(** *** Lines 173-197: the sheet for entering the tier quantities *)

(** A cell of that sheet: a text or a price. *)
Inductive sheet_val :=
| SText (s : string)
| SPrice (v : pval).

(** Lines 187-189: [row_data[f'Preis_{i}'] = tier['price']] and
    [row_data[f'Ab_Menge_{i}'] = ''] for the tiers numbered from [i] *)
Fixpoint add_tier_columns (i : nat) (tiers : list tier)
    (row_data : list (string * sheet_val)) : list (string * sheet_val) :=
  match tiers with
  | [] => row_data
  | t :: rest =>
      add_tier_columns (S i) rest
        (dict_set ("Ab_Menge_" +:+ pretty i) (SText "")
           (dict_set ("Preis_" +:+ pretty i) (SPrice (tier_price t)) row_data))
  end.

(** Lines 179-189: the row of an article that needs tier quantities *)
Definition nachpflege_row (article : import_article)
  : result (list (string * sheet_val)) :=
  match price article with
  | None => Raise KeyError
  | Some p =>
      let row_data :=
        [ ("Artikelnummer", SText (articleNumber article));
          ("Produktname", SText (first_chars 50 (productName article)));
          ("Preis_1", SPrice p) ] in
      Ok (match tieredPrices article with
          | Some tiers => add_tier_columns 2 tiers row_data
          | None => row_data
          end)
  end.

(** Lines 175-191 *)
Fixpoint nachpflege_data (import_articles : list import_article)
  : result (list (list (string * sheet_val))) :=
  match import_articles with
  | [] => Ok []
  | article :: rest =>
      match manufacturer article with
      | Some "NEEDS_TIER_QUANTITIES" =>
          row_data ← nachpflege_row article;
          data ← nachpflege_data rest;
          Ok (row_data :: data)
      | _ => nachpflege_data rest
      end
  end.

End PrepareImportData.

(* ===================================================================== *)
(** ** check-missing-correct.py                                           *)
(* ===================================================================== *)

Module CheckMissingCorrect.
Import Py.

(** Line 23: [df.columns[0]] *)
Definition first_column (df : dataframe) : result string :=
  match columns df with
  | c :: _ => Ok c
  | [] => Raise IndexError
  end.

(** Lines 27-32: the body of [for value in df[first_column]:] and the loop *)
Definition add_article (excel_articles : gset string) (value : cell)
  : gset string :=
  if notna value then
    let article_num := strip (str_cell value) in
    if nonempty article_num && negb (String.eqb article_num "nan")
    then excel_articles ∪ {[article_num]}
    else excel_articles
  else excel_articles.

Definition excel_articles (values : list cell) : gset string :=
  foldl add_article ∅ values.

(** Lines 19-34: reading the spreadsheet; the set of article numbers and
    the lines printed on the way *)
Definition extract (df : dataframe) : result (gset string * list string) :=
  first_column ← first_column df;
  values ← column df first_column;
  let excel_articles := excel_articles values in
  Ok (excel_articles,
      [ "   Excel hat " +:+ pretty (length (rows df)) +:+ " Zeilen";
        "   Spalte A heisst: " +:+ dquote +:+ first_column +:+ dquote;
        "   Excel hat " +:+ pretty (size excel_articles)
          +:+ " unique Artikelnummern" ]).

(** Lines 50-66: one turn of [while True:] *)
Definition fetch_page (data : jval) (all_system_articles : list jval)
  : result (bool * list jval) :=
  success ← get data "success" JNull;
  if truthy success then
    articles ← get data "data" (JArr []);
    all_system_articles ← extend all_system_articles articles;
    pagination ← get data "pagination" (JObj []);
    hasNext ← get pagination "hasNext" (JBool false);
    if negb (truthy hasNext) then Ok (false, all_system_articles)
    else Ok (true, all_system_articles)
  else Ok (false, all_system_articles).

Fixpoint fetch_loop (fuel : nat) (srv : server) (page : nat)
    (all_system_articles : list jval) : option (result (list jval)) :=
  match fuel with
  | O => None
  | S fuel' =>
      match data ← srv page; fetch_page data all_system_articles with
      | Raise e => Some (Raise e)
      | Ok (true, acc) => fetch_loop fuel' srv (S page) acc
      | Ok (false, acc) => Some (Ok acc)
      end
  end.

Definition fetch (fuel : nat) (srv : server) : option (result (list jval)) :=
  fetch_loop fuel srv 1 [].

(** Lines 71-74 *)
Fixpoint system_article_numbers_from (numbers : gset string)
    (all_system_articles : list jval) : result (gset string) :=
  match all_system_articles with
  | [] => Ok numbers
  | article :: rest =>
      num ← get article "articleNumber" JNull;
      if truthy num then
        num ← getitem article "articleNumber";
        s ← str num;
        system_article_numbers_from (numbers ∪ {[strip s]}) rest
      else system_article_numbers_from numbers rest
  end.

Definition system_article_numbers := system_article_numbers_from ∅.

(** Lines 81-82 *)
Definition missing (excel_articles system_article_numbers : gset string)
  : gset string := excel_articles ∖ system_article_numbers.
Definition found (excel_articles system_article_numbers : gset string)
  : gset string := excel_articles ∩ system_article_numbers.

(** Lines 91-107: the details of a missing article.  [df[col] == num]
    holds in the rows whose cell is the text [num]. *)
Record missing_detail := MissingDetail {
  articleNumber : string;
  beschreibung : option cell;
  einheit : option cell;
  preis1 : option cell;
  excelData : option row
}.

Definition cell_is (num : string) (c : cell) : bool :=
  match c with
  | CStr s => String.eqb s num
  | _ => false
  end.

Definition detail (df : dataframe) (first_column article_num : string)
  : missing_detail :=
  match
    filter (λ r, cell_is article_num (row_get r first_column CNone) = true)
           (rows df)
  with
  | r :: _ =>
      {| articleNumber := article_num;
         beschreibung := Some (row_get r "Beschreibung" (CStr ""));
         einheit := Some (row_get r "Einheit" (CStr ""));
         preis1 := Some (row_get r "Preis 1" (CInt 0));
         excelData := Some r |}
  | [] => MissingDetail article_num None None None None
  end.

(** Lines 110-120 *)
Record summary := Summary {
  totalInExcel : nat;
  totalInSystem : nat;
  foundInBoth : nat;
  missingInSystem : nat;
  coverage : coverage_entry
}.

Record result_json := ResultJson {
  result_summary : summary;
  missingArticles : list missing_detail;
  missingArticleNumbers : list string
}.

(** Lines 81-120, from the two sets to the first file; [iter] is the
    order in which sets are walked. *)
Definition make_result (iter : gset string → list string) (df : dataframe)
    (first_column : string)
    (excel_articles system_article_numbers : gset string)
  : result result_json :=
  let missing := missing excel_articles system_article_numbers in
  let found := found excel_articles system_article_numbers in
  let missing_with_details := detail df first_column <$> sorted (iter missing) in
  p ← percentage (size found) (size excel_articles);
  Ok {| result_summary :=
          {| totalInExcel := size excel_articles;
             totalInSystem := size system_article_numbers;
             foundInBoth := size found;
             missingInSystem := size missing;
             coverage := Formatted p |};
        missingArticles := take 500 missing_with_details;
        missingArticleNumbers := sorted (iter missing) |}.

(** Lines 126-127: the second file *)
Definition missing_numbers_only (iter : gset string → list string)
    (excel_articles system_article_numbers : gset string) : list string :=
  sorted (iter (missing excel_articles system_article_numbers)).

(** Lines 40-42: the total the catalog announces, asked with [limit=1] *)
Definition total_count (data : jval) : result jval :=
  pagination ← get data "pagination" (JObj []);
  get pagination "total" (JInt 0).

(** The script from top to bottom, and the two files it writes.  [first]
    is the answer to the request of line 40; [None] stands for a loop that
    is still turning after [fuel] pages. *)
Definition main (iter : gset string → list string) (fuel : nat)
    (df : dataframe) (first : result jval) (srv : server)
  : option (result (result_json * list string)) :=
  match x ← extract df; data ← first; _ ← total_count data; Ok x with
  | Raise e => Some (Raise e)
  | Ok (excel_articles, _) =>
      match fetch fuel srv with
      | None => None
      | Some (Raise e) => Some (Raise e)
      | Some (Ok all_system_articles) =>
          Some (numbers ← system_article_numbers all_system_articles;
                first_column ← first_column df;
                res ← make_result iter df first_column excel_articles numbers;
                Ok (res, missing_numbers_only iter excel_articles numbers))
      end
  end.

End CheckMissingCorrect.

(* ===================================================================== *)
(** ** mark-non-excel-articles.py                                         *)
(* ===================================================================== *)

Module MarkNonExcelArticles.
Import Py.

(** Lines 26-31, the loop of check-missing-correct.py, word for word *)
Definition excel_articles (values : list cell) : gset string :=
  foldl CheckMissingCorrect.add_article ∅ values.

(** Lines 41-54, the loop of prepare-import-data.py with printing added *)
Definition fetch (fuel : nat) (srv : server) : option (result (list jval)) :=
  PrepareImportData.fetch_loop fuel srv 1 [].

(** Lines 66-71 *)
Fixpoint split_system (excel_articles : gset string)
    (all_system_articles in_both only_in_system : list jval)
  : result (list jval * list jval) :=
  match all_system_articles with
  | [] => Ok (in_both, only_in_system)
  | article :: rest =>
      num ← get article "articleNumber" (JStr "");
      s ← str num;
      let art_num := strip s in
      if bool_decide (art_num ∈ excel_articles)
      then split_system excel_articles rest (in_both ++ [article]) only_in_system
      else split_system excel_articles rest in_both (only_in_system ++ [article])
  end.

(** Line 74 *)
Fixpoint system_numbers (all_system_articles : list jval)
  : result (gset string) :=
  match all_system_articles with
  | [] => Ok ∅
  | a :: rest =>
      num ← get a "articleNumber" JNull;
      s ← str num;
      numbers ← system_numbers rest;
      Ok ({[strip s]} ∪ numbers)
  end.

(** Lines 75-77 *)
Definition only_in_excel (iter : gset string → list string)
    (excel_articles system_numbers : gset string) : list string :=
  filter (λ excel_num, excel_num ∉ system_numbers) (iter excel_articles).

(** Lines 61-77 *)
Definition compare (iter : gset string → list string)
    (excel_articles : gset string) (all_system_articles : list jval)
  : result (list jval * list jval * list string) :=
  '(in_both, only_in_system) ←
      split_system excel_articles all_system_articles [] [];
  numbers ← system_numbers all_system_articles;
  Ok (in_both, only_in_system, only_in_excel iter excel_articles numbers).

(** Lines 86-104: an entry of the marking plan *)
Record plan_entry := PlanEntry {
  entry_id : jval;
  entry_articleNumber : jval;
  entry_productName : jval;
  markAsNotInExcel : bool
}.

Definition plan_entry_of (flag : bool) (article : jval) : result plan_entry :=
  id ← getitem article "id";
  num ← getitem article "articleNumber";
  name ← get article "productName" (JStr "");
  Ok (PlanEntry id num name flag).

Definition articles_to_mark (only_in_system : list jval)
  : result (list plan_entry) := mapM (plan_entry_of true) only_in_system.

Definition articles_not_to_mark (in_both : list jval)
  : result (list plan_entry) := mapM (plan_entry_of false) in_both.

(** Lines 110-122 *)
Record summary := Summary {
  totalInExcel : nat;
  totalInSystem : nat;
  inBoth : nat;
  onlyInSystem_TO_MARK : nat;
  onlyInExcel_MISSING : nat
}.

Record marking_plan := MarkingPlan {
  timestamp : string;
  plan_summary : summary;
  articlesToMark : list plan_entry;
  articlesNotToMark : list plan_entry;
  missingInSystem : list string
}.

(** Lines 129-132 *)
Record mark_these := MarkThese {
  toMarkAsNotInExcel : list jval;
  articleNumbers : list jval
}.

(** Lines 146 and 152: ["','".join([a['articleNumber'] for a in l])];
    [join] wants texts *)
Fixpoint number_texts (l : list jval) : result (list string) :=
  match l with
  | [] => Ok []
  | a :: rest =>
      num ← getitem a "articleNumber";
      texts ← number_texts rest;
      match num with
      | JStr s => Ok (s :: texts)
      | _ => Raise TypeError
      end
  end.

Definition update_statement (category : string) (l : list jval)
  : result (list string) :=
  match l with
  | [] => Ok []
  | _ :: _ =>
      texts ← number_texts l;
      Ok [ "UPDATE products SET category = '" +:+ category +:+ "' WHERE "
           +:+ dquote +:+ "articleNumber" +:+ dquote +:+ " IN ('"
           +:+ join "','" texts +:+ "');" +:+ nl ]
  end.

(** Lines 139-153: what is written to update-commands.sql, piece by piece *)
Definition update_commands (in_both only_in_system : list jval)
  : result (list string) :=
  from_excel ← update_statement "FROM_EXCEL" in_both;
  shop_only ← update_statement "SHOP_ONLY" only_in_system;
  Ok ([ "-- SQL Commands to mark articles not in Excel" +:+ nl;
        "-- Diese Artikel sind NUR vom Shop gecrawlt, nicht in der Excel"
          +:+ nl +:+ nl;
        "-- 1. Setze alle Artikel die IN der Excel sind auf notInExcel = false"
          +:+ nl ]
      ++ ((λ st, st +:+ nl) <$> from_excel) ++
      [ "-- 2. Markiere alle Artikel die NICHT in der Excel sind" +:+ nl ]
      ++ shop_only).

(** Lines 58-155, from the article numbers of the spreadsheet and the
    records of the catalog to the three files; [now] is the clock's
    reading and [iter] the order in which sets are walked. *)
Definition outputs (now : string) (iter : gset string → list string)
    (excel_articles : gset string) (all_system_articles : list jval)
  : result (marking_plan * mark_these * list string) :=
  '(in_both, only_in_system, only_in_excel) ←
      compare iter excel_articles all_system_articles;
  to_mark ← articles_to_mark only_in_system;
  not_to_mark ← articles_not_to_mark in_both;
  commands ← update_commands in_both only_in_system;
  Ok ({| timestamp := now;
         plan_summary :=
           {| totalInExcel := size excel_articles;
              totalInSystem := length all_system_articles;
              inBoth := length in_both;
              onlyInSystem_TO_MARK := length only_in_system;
              onlyInExcel_MISSING := length only_in_excel |};
         articlesToMark := to_mark;
         articlesNotToMark := not_to_mark;
         missingInSystem := only_in_excel |},
      {| toMarkAsNotInExcel := entry_id <$> to_mark;
         articleNumbers := entry_articleNumber <$> to_mark |},
      commands).

End MarkNonExcelArticles.

(* ===================================================================== *)
(** ** compare-excel-system.py                                            *)
(* ===================================================================== *)

Module CompareExcelSystem.
Import Py.

(** Lines 34-46 *)
Definition article_columns : list string :=
  ["Artikel"; "Artikelnummer"; "Art.-Nr."; "Art.Nr."; "Artikel-Nr."; "ArtikelNr"].

(** Lines 38-41: the first candidate that is a column, if any *)
Definition candidate_column (df : dataframe) : option string :=
  snd <$> list_find (λ col, col ∈ columns df) article_columns.

(** Lines 38-46, with the line printed when the first column is taken *)
Definition article_column (df : dataframe) : result (string * list string) :=
  match candidate_column df with
  | Some col => Ok (col, [])
  | None =>
      match columns df with
      | c :: _ =>
          Ok (c, ["   Verwende erste Spalte als Artikelnummer: " +:+ c])
      | [] => Raise IndexError
      end
  end.

Record article_data := ArticleData {
  articleNumber : string;
  excelRow : row;
  rowIndex : nat;
  productName : option string;
  price : option pyfloat
}.

(** Lines 61-64 and 67-73: the first column of [cols] that the row has
    with a value, if any *)
Definition filled (r : row) (col : string) : bool :=
  match r !! col with
  | Some c => notna c
  | None => false
  end.

Definition first_filled (r : row) (cols : list string) : option cell :=
  match list_find (λ col, filled r col = true) cols with
  | Some (_, col) => r !! col
  | None => None
  end.

Definition product_name (r : row) : option string :=
  str_cell <$>
    first_filled r ["Bezeichnung"; "Produktname"; "Artikel"; "Name"; "Beschreibung"].

Definition row_price (r : row) : option pyfloat :=
  c ← first_filled r ["Preis"; "VK-Preis"; "Einzelpreis"; "VK"; "Verkaufspreis"];
  float_of_str (strip (replace "€" "" (replace "," "." (str_cell c)))).

(** Lines 49-75: the body of [for index, row in df.iterrows():] *)
Definition extract_row (article_column : string) (index : nat) (r : row)
    (excel_articles : list (string * article_data))
  : result (list (string * article_data)) :=
  c ← row_getitem r article_column;
  let article_number :=
    if notna c then Some (strip (str_cell c)) else None in
  match article_number with
  | Some article_number =>
      if nonempty article_number && negb (String.eqb article_number "nan")
      then
        Ok (dict_set article_number
              {| articleNumber := article_number;
                 excelRow := r;
                 rowIndex := index + 2;
                 productName := product_name r;
                 price := row_price r |}
              excel_articles)
      else Ok excel_articles
  | None => Ok excel_articles
  end.

Fixpoint extract_rows (article_column : string) (index : nat)
    (rows : list row) (excel_articles : list (string * article_data))
  : result (list (string * article_data)) :=
  match rows with
  | [] => Ok excel_articles
  | r :: rest =>
      excel_articles ← extract_row article_column index r excel_articles;
      extract_rows article_column (S index) rest excel_articles
  end.

(** Lines 22-77: reading the spreadsheet; the mapping of article
    numbers and the lines printed on the way *)
Definition extract (df : dataframe)
  : result (list (string * article_data) * list string) :=
  '(article_column, note) ← article_column df;
  excel_articles ← extract_rows article_column 0 (rows df) [];
  Ok (excel_articles,
      [ "   OK: Excel geladen: " +:+ pretty (length (rows df)) +:+ " Zeilen";
        "   Spalten: " +:+ join ", " (take 10 (columns df)) ]
      ++ note ++
      [ "   OK: " +:+ pretty (length excel_articles)
          +:+ " unique Artikelnummern in Excel" ]).

(** Lines 102-113 *)
Record found_article := FoundArticle {
  found_articleNumber : string;
  inExcel : string;
  inSystem : jval
}.

Fixpoint compare (excel_items : list (string * article_data))
    (system_articles : list (string * jval))
    (missing_articles : list article_data) (found_articles : list found_article)
  : result (list article_data * list found_article) :=
  match excel_items with
  | [] => Ok (missing_articles, found_articles)
  | (article_number, excel_data) :: rest =>
      match assoc article_number system_articles with
      | None =>
          compare rest system_articles
            (missing_articles ++ [excel_data]) found_articles
      | Some article =>
          name ← get article "productName" (JStr "");
          compare rest system_articles missing_articles
            (found_articles ++
               [ {| found_articleNumber := article_number;
                    inExcel := default "" (productName excel_data);
                    inSystem := name |} ])
      end
  end.

(** Lines 122-134 *)
Record summary := Summary {
  totalInExcel : nat;
  totalInSystem : nat;
  foundInBoth : nat;
  missingInSystem : nat;
  coverage : coverage_entry
}.

Record result_json := ResultJson {
  timestamp : string;
  excelFile : string;
  result_summary : summary;
  missingArticles : list article_data;
  foundArticles : list found_article
}.

Definition EXCEL_PATH : string :=
  "C:\Users\benfi\Downloads\Alle Artikel_gemerged.xlsx".

Definition coverage_of (found_articles : list found_article)
    (excel_articles : list (string * article_data)) : result coverage_entry :=
  match excel_articles with
  | _ :: _ =>
      p ← percentage (length found_articles) (length excel_articles);
      Ok (Formatted p)
  | [] => Ok (Literal "0%")
  end.

(** Lines 102-134, [now] being the clock's reading *)
Definition make_result (now : string)
    (excel_articles : list (string * article_data))
    (system_articles : list (string * jval)) : result result_json :=
  '(missing_articles, found_articles) ←
      compare excel_articles system_articles [] [];
  cov ← coverage_of found_articles excel_articles;
  Ok {| timestamp := now;
        excelFile := EXCEL_PATH;
        result_summary :=
          {| totalInExcel := length excel_articles;
             totalInSystem := length system_articles;
             foundInBoth := length found_articles;
             missingInSystem := length missing_articles;
             coverage := cov |};
        missingArticles := sorted_on articleNumber missing_articles;
        foundArticles := sorted_on found_articleNumber found_articles |}.

(** Lines 87-89 *)
Fixpoint index_articles (data : list jval)
    (system_articles : list (string * jval))
  : result (list (string * jval)) :=
  match data with
  | [] => Ok system_articles
  | article :: rest =>
      num ← get article "articleNumber" JNull;
      if truthy num then
        num ← getitem article "articleNumber";
        s ← str num;
        index_articles rest (dict_set (strip s) article system_articles)
      else index_articles rest system_articles
  end.

(** Lines 81-97: the one request to the catalog, inside [try:]; every
    exception leaves an empty catalog. *)
Definition system_articles (response : result jval)
  : result (list (string * jval)) :=
  match
    system_data ← response;
    success ← get system_data "success" JNull;
    if truthy success then
      data ← get system_data "data" (JArr []);
      items ← iterate data;
      index_articles items []
    else Ok []
  with
  | Ok d => Ok d
  | Raise Unmodelled => Raise Unmodelled
  | Raise _ => Ok []
  end.

(** Lines 141-148; the price is the float found in the row, or the
    integer 0 *)
Record missing_simple := MissingSimple {
  simple_articleNumber : string;
  simple_productName : string;
  simple_price : pyfloat + Z;
  simple_excelRow : nat
}.

Definition simple_of (article : article_data) : missing_simple :=
  {| simple_articleNumber := articleNumber article;
     simple_productName := default "" (productName article);
     simple_price := from_option inl (inr 0) (price article);
     simple_excelRow := rowIndex article |}.

(** Lines 155-157 *)
Definition missing_numbers (missing_articles : list article_data)
  : list string := sorted (articleNumber <$> missing_articles).

(** The script from the spreadsheet and the answer of the catalog to its
    three files. *)
Definition main (now : string) (df : dataframe) (response : result jval)
  : result (result_json * list missing_simple * list string) :=
  '(excel_articles, _) ← extract df;
  system_articles ← system_articles response;
  '(missing_articles, _) ← compare excel_articles system_articles [] [];
  res ← make_result now excel_articles system_articles;
  Ok (res, simple_of <$> missing_articles, missing_numbers missing_articles).

End CompareExcelSystem.

(* ===================================================================== *)
(** ** Notions used in the statements                                     *)
(* ===================================================================== *)

Module Spec.
Import Py PrepareImportData.

(** A catalog record that carries an article number. *)
Definition has_article_number (a : jval) : Prop :=
  ∃ fields v, a = JObj fields ∧ assoc "articleNumber" fields = Some v.

(** The rows counted so far by the first three counters. *)
Definition counted (s : import_stats) : nat :=
  (single_price s + tiered_price s + auf_anfrage s)%nat.

(** A coerced price is a number. *)
Definition is_number (v : pval) : Prop := ∃ x, v = VNum x.

(** A price field is positive. *)
Definition positive (v : pval) : bool :=
  match v with
  | VNum x => fgtb x fzero
  | VStr _ => false
  end.




(** A page that carries records and announces a further page: an object
    with a true [success], the list [items] under [data] and a true
    [hasNext] under [pagination]. *)
Definition full_page (items : list jval) (data : jval) : Prop :=
  ∃ fields success pagination hasNext,
    data = JObj fields ∧
    assoc "success" fields = Some success ∧ truthy success = true ∧
    assoc "data" fields = Some (JArr items) ∧
    assoc "pagination" fields = Some (JObj pagination) ∧
    assoc "hasNext" pagination = Some hasNext ∧ truthy hasNext = true.

(** A page whose envelope is an object without a true [success]. *)
Definition unsuccessful_page (data : jval) : Prop :=
  ∃ fields,
    data = JObj fields ∧ truthy (default JNull (assoc "success" fields)) = false.

(** The ratio a coverage entry stands for: its percentage over 100. *)
Definition ratio_of (c : coverage_entry) : option Q :=
  match c with
  | Formatted p => Some (p / 100)%Q
  | Literal s => if String.eqb s "0%" then Some 0%Q else None
  end.

(** [|A| / |B|] *)
Definition size_ratio (A B : gset string) : Q :=
  (inject_Z (Z.of_nat (size A)) / inject_Z (Z.of_nat (size B)))%Q.

(** An identifier cell that is absent, blank or the text "nan"; the
    number of rows of a data frame with such a cell in column [col]. *)
Definition unusable (c : cell) : bool :=
  isna c
  || negb (nonempty (strip (str_cell c)))
  || String.eqb (strip (str_cell c)) "nan".

Definition skipped (df : dataframe) (col : string) : nat :=
  length (filter (λ r, unusable (row_get r col nan_cell) = true) (rows df)).

(** A result of compare-excel-system.py with its timestamp replaced. *)
Definition with_timestamp (t : string) (res : CompareExcelSystem.result_json)
  : CompareExcelSystem.result_json :=
  {| CompareExcelSystem.timestamp := t;
     CompareExcelSystem.excelFile := CompareExcelSystem.excelFile res;
     CompareExcelSystem.result_summary := CompareExcelSystem.result_summary res;
     CompareExcelSystem.missingArticles := CompareExcelSystem.missingArticles res;
     CompareExcelSystem.foundArticles := CompareExcelSystem.foundArticles res |}.












(** The on-request treatment of the specification. *)
Definition on_request_outcome (a : import_article) : Prop :=
  price a = Some (VNum fzero) ∧
  tieredPricesText a = Some "Auf Anfrage" ∧
  verified a = true.

(** The last page of a catalog: an object with a true [success], the
    list [items] under [data] and no further page announced. *)
Definition last_page (items : list jval) (data : jval) : Prop :=
  ∃ fields success,
    data = JObj fields ∧
    assoc "success" fields = Some success ∧ truthy success = true ∧
    assoc "data" fields = Some (JArr items) ∧
    (assoc "pagination" fields = None ∨
     ∃ pagination,
       assoc "pagination" fields = Some (JObj pagination) ∧
       truthy (default (JBool false) (assoc "hasNext" pagination)) = false).

(** The pages after page [k] are full pages carrying the lists [pages],
    one after the other. *)
Definition full_pages (srv : server) (k : nat) (pages : list (list jval))
  : Prop :=
  ∀ i items, pages !! i = Some items →
    ∃ data, srv (S (k + i)%nat) = Ok data ∧ full_page items data.

(** The article number under which mark-non-excel-articles.py looks a
    catalog record up in the spreadsheet, and whether it is there. *)
Definition art_num (article : jval) : result string :=
  num ← get article "articleNumber" (JStr ""); s ← str num; Ok (strip s).

Definition in_sheet (excel_articles : gset string) (article : jval) : bool :=
  match art_num article with
  | Ok k => bool_decide (k ∈ excel_articles)
  | Raise _ => false
  end.

Definition catalog_numbers (all_system_articles : list jval)
  : result (list string) := mapM art_num all_system_articles.

(** A catalog record with an [id] and a text for its article number. *)
Definition has_id_and_number_text (a : jval) : Prop :=
  ∃ fields id s,
    a = JObj fields ∧ assoc "id" fields = Some id ∧
    assoc "articleNumber" fields = Some (JStr s).

(** A catalog record that is an object; one whose article number is
    there and true. *)
Definition is_object (a : jval) : Prop := ∃ entries, a = JObj entries.

Definition numbered (a : jval) : Prop :=
  ∃ fields num,
    a = JObj fields ∧ assoc "articleNumber" fields = Some num ∧
    truthy num = true.

(** The article number under which check-missing-correct.py and
    compare-excel-system.py file a catalog record, if they file it. *)
Definition record_key (a : jval) : option string :=
  match a with
  | JObj fields =>
      match assoc "articleNumber" fields with
      | Some num =>
          if truthy num
          then match str num with Ok s => Some (strip s) | Raise _ => None end
          else None
      | None => None
      end
  | _ => None
  end.


(** The article number under which a row is filed, if it is usable. *)
Definition row_key (col : string) (r : row) : option string :=
  c ← r !! col; if unusable c then None else Some (strip (str_cell c)).


(** An answer with a true [success] and the objects [items] under
    [data]. *)
Definition catalog_answer (items : list jval) (data : jval) : Prop :=
  ∃ fields success,
    data = JObj fields ∧
    assoc "success" fields = Some success ∧ truthy success = true ∧
    assoc "data" fields = Some (JArr items) ∧
    Forall is_object items.

(** A row that prepare-import-data.py takes for missing: its trimmed
    article number is not in the catalog and is not "nan". *)
Definition wanted (C : gset string) (r : row) : bool :=
  let article_num := strip (str_cell (row_get r "Artikelnummer" CNone)) in
  bool_decide (article_num ∉ C) && negb (String.eqb article_num "nan").

(** A tier as the classification makes it: a positive price, the
    quantity left open. *)
Definition tier_ok (t : tier) : Prop :=
  quantity t = None ∧ positive (tier_price t) = true.

(** What holds of every import record. *)
Definition well_formed_record (a : import_article) : Prop :=
  let needs := manufacturer a = Some "NEEDS_TIER_QUANTITIES" in
  currency a = "EUR" ∧
  category a = "FROM_EXCEL" ∧
  published a = true ∧
  is_Some (price a) ∧
  (manufacturer a = None ∨ needs) ∧
  (verified a = false ↔ needs) ∧
  (is_Some (tieredPrices a) ↔ needs) ∧
  (∀ tiers, tieredPrices a = Some tiers →
     (0 < length tiers ≤ 3)%nat ∧ Forall tier_ok tiers) ∧
  (is_Some (tieredPricesText a) →
   price a = Some (VNum fzero) ∧ tieredPrices a = None).

(** The import record [a] carries the article number and the name of the
    row [r]. *)
Definition imported_from (r : row) (a : import_article) : Prop :=
  articleNumber a = strip (str_cell (row_get r "Artikelnummer" CNone)) ∧
  productName a = str_cell (row_get r "Matchcode" (CStr "")).

(** The columns of the tiers numbered from [i] in the sheet for the tier
    quantities: a price and an empty quantity each. *)
Fixpoint tier_entries (i : nat) (tiers : list tier)
  : list (string * sheet_val) :=
  match tiers with
  | [] => []
  | t :: rest =>
      ("Preis_" +:+ pretty i, SPrice (tier_price t))
      :: ("Ab_Menge_" +:+ pretty i, SText "")
      :: tier_entries (S i) rest
  end.

(** No column of a tier numbered [i] or higher is in [d]. *)
Definition fresh_from (i : nat) (d : list (string * sheet_val)) : Prop :=
  ∀ j, (i ≤ j)%nat →
    (("Preis_" +:+ pretty j) ∉ keys d) ∧ (("Ab_Menge_" +:+ pretty j) ∉ keys d).

End Spec.

(* ===================================================================== *)
(** ** Sample inputs                                                      *)
(* ===================================================================== *)

Module Examples.
Import Py.

(** Two catalog records and their article numbers; the article numbers
    of a spreadsheet. *)
Definition catalog : list jval :=
  [ JObj [("id", JInt 1); ("articleNumber", JStr " A123 ")];
    JObj [("id", JInt 2); ("articleNumber", JStr "Z9")] ].

Definition catalog_ids : gset string := {[ "A123" ]} ∪ ({[ "Z9" ]} ∪ ∅).

Definition sheet_ids : gset string := {[ "A123"; "B7" ]}.

(** A page of records that announces a further page, and the page
    [{"success": false}]. *)
Definition page_with (items : list jval) : jval :=
  JObj [ ("success", JBool true); ("data", JArr items);
         ("pagination", JObj [("hasNext", JBool true); ("total", JInt 2)]) ].

Definition failed_page : jval := JObj [("success", JBool false)].

(** Four catalogs, alike in their first page: the second page is
    unsuccessful; is not JSON; is a JSON list instead of an envelope; has
    [null] for its pagination. *)
Definition srv_unsuccessful : server :=
  λ page, match page with
          | 1%nat => Ok (page_with catalog)
          | _ => Ok failed_page
          end.

Definition srv_not_json : server :=
  λ page, match page with
          | 1%nat => Ok (page_with catalog)
          | _ => Raise JSONDecodeError
          end.

Definition srv_list_body : server :=
  λ page, match page with
          | 1%nat => Ok (page_with catalog)
          | _ => Ok (JArr [])
          end.

Definition srv_null_pagination : server :=
  λ page, match page with
          | 1%nat => Ok (page_with catalog)
          | _ => Ok (JObj [ ("success", JBool true); ("data", JArr catalog);
                            ("pagination", JNull) ])
          end.

(** A spreadsheet with an article number column, and one without rows. *)
Definition sheet : dataframe :=
  {| columns := ["Artikelnummer"; "Preis 1"];
     rows := [ {[ "Artikelnummer" := CStr "  A123 "; "Preis 1" := CInt 10 ]};
               {[ "Artikelnummer" := CStr "B7"; "Preis 1" := CInt 5 ]} ] |}.

Definition empty_sheet : dataframe :=
  {| columns := ["Artikelnummer"; "Preis 1"]; rows := [] |}.

(** Two spreadsheets of two rows and one article number: in the first
    the number comes twice, in the second a row has no number. *)
Definition sheet_twice : dataframe :=
  {| columns := ["Artikelnummer"];
     rows := [ {[ "Artikelnummer" := CStr "A123" ]};
               {[ "Artikelnummer" := CStr "A123" ]} ] |}.

Definition sheet_gap : dataframe :=
  {| columns := ["Artikelnummer"];
     rows := [ {[ "Artikelnummer" := CStr "A123" ]};
               {[ "Artikelnummer" := nan_cell ]} ] |}.

(** The catalog as the dict of compare-excel-system.py. *)
Definition system_articles : list (string * jval) :=
  [ ("A123", JObj [("id", JInt 1); ("articleNumber", JStr " A123 ")]);
    ("Z9", JObj [("id", JInt 2); ("articleNumber", JStr "Z9")]) ].

(** The article numbers of [sheet] with their rows, as
    compare-excel-system.py collects them, and the lines it prints. *)
Definition sheet_articles : list (string * CompareExcelSystem.article_data) :=
  Eval vm_compute in
    match CompareExcelSystem.extract sheet with
    | Ok (d, _) => d
    | Raise _ => []
    end.

Definition sheet_lines : list string :=
  Eval vm_compute in
    match CompareExcelSystem.extract sheet with
    | Ok (_, lines) => lines
    | Raise _ => []
    end.

(** Two readings of the clock. *)
Definition first_run : string := "2025-01-01T10:00:00".
Definition second_run : string := "2025-01-01T10:05:00".

(** Walking a set in the order of [elements], and in the opposite order. *)
Definition backwards (X : gset string) : list string := reverse (elements X).

(** A spreadsheet row with the four price cells given. *)
Definition priced_row (p1 p2 p3 p4 : cell) : row :=
  <["Artikelnummer" := CStr "A123"]>
    (<["Preis 1" := p1]> (<["Preis 2" := p2]>
       (<["Preis 3" := p3]> (<["Preis 4" := p4]> ∅)))).

(** The rows of the specification's scenarios 1 to 4. *)
Definition on_request_row : row :=
  priced_row (CStr "Auf Anfrage") nan_cell nan_cell nan_cell.
Definition tiered_row : row :=
  priced_row (CInt 10) (CInt 15) (CInt 15) (CInt 0).
Definition all_zero_row : row :=
  priced_row (CInt 0) (CInt 0) (CInt 0) (CInt 0).
Definition euro_row : row :=
  priced_row (CStr "12,50 €") nan_cell nan_cell nan_cell.

Definition text_tier_row : row :=
  priced_row (CInt 10) (CStr "Auf Anfrage") nan_cell nan_cell.

Definition sheet_rows : list row :=
  [on_request_row; tiered_row; all_zero_row; euro_row].

(** What prepare-import-data.py makes of them. *)
Definition sheet_import
  : list PrepareImportData.import_article * PrepareImportData.import_stats :=
  Eval vm_compute in
    match PrepareImportData.import_rows sheet_rows []
            PrepareImportData.stats0 with
    | Ok x => x
    | Raise _ => ([], PrepareImportData.stats0)
    end.

(** The last page of a catalog, and a third record. *)
Definition last_page_with (items : list jval) : jval :=
  JObj [ ("success", JBool true); ("data", JArr items);
         ("pagination", JObj [("hasNext", JBool false); ("total", JInt 3)]) ].

Definition third_record : jval :=
  JObj [("id", JInt 3); ("articleNumber", JStr "B7")].

(** A catalog of two pages; one whose every page announces a further
    page; one whose second page is successful and empty. *)
Definition srv_two_pages : server :=
  λ page, match page with
          | 1%nat => Ok (page_with catalog)
          | _ => Ok (last_page_with [third_record])
          end.

Definition srv_endless : server := λ _, Ok (page_with catalog).

Definition srv_empty_second : server :=
  λ page, match page with
          | 1%nat => Ok (page_with catalog)
          | 2%nat => Ok (page_with [])
          | _ => Ok (last_page_with [third_record])
          end.

(** The catalog with a record that has no article number. *)
Definition catalog_gap : list jval := catalog ++ [JObj [("id", JInt 4)]].

(** A row with a negative first price and no other price. *)
Definition negative_row : row :=
  priced_row (CInt (-5)) (CInt 0) (CInt 0) (CInt 0).

End Examples.

(* ===================================================================== *)
(** * Part II: properties                                                 *)
(* ===================================================================== *)

Import Py.
Local Close Scope Z_scope.

(** ** The result monad *)

Lemma bind_Ok {A B} (m : result A) (k : A → result B) (b : B) :
  m ≫= k = Ok b ↔ ∃ a, m = Ok a ∧ k a = Ok b.
Proof.
  destruct m as [a|e]; simpl.
  - split; [eauto | intros (a' & [= <-] & ?); done].
  - split; [done | intros (a' & [=] & _)].
Qed.

Lemma bind_Ok_l {A B} (m : result A) (k : A → result B) (a : A) :
  m = Ok a → m ≫= k = k a.
Proof. by intros ->. Qed.

Ltac inv_bind H :=
  repeat match type of H with
    | _ ≫= _ = Ok _ =>
        let a := fresh "a" in
        let Ha := fresh "Ha" in
        apply bind_Ok in H as (a & Ha & H)
    end.

(** ** Texts *)

Lemma str_app_cons c (s t : string) : String c s +:+ t = String c (s +:+ t).
Proof. reflexivity. Qed.








(** ** Reconciliation: the three-way partition (mark-non-excel-articles.py,
    check-missing-correct.py) *)

Section Reconciliation.
Import MarkNonExcelArticles Spec.

Lemma system_numbers_cons a rest X :
  system_numbers (a :: rest) = Ok X ↔
  ∃ num s X', get a "articleNumber" JNull = Ok num ∧ str num = Ok s ∧
              system_numbers rest = Ok X' ∧ X = {[strip s]} ∪ X'.
Proof.
  simpl. split.
  - intros H. inv_bind H. injection H as <-. eauto 10.
  - intros (num & s & X' & -> & Hs & HX & ->). simpl.
    rewrite (bind_Ok_l _ _ _ Hs). by rewrite (bind_Ok_l _ _ _ HX).
Qed.

Lemma system_numbers_snoc l a X num s :
  system_numbers l = Ok X →
  get a "articleNumber" JNull = Ok num → str num = Ok s →
  system_numbers (l ++ [a]) = Ok (X ∪ {[strip s]}).
Proof.
  intros HX Hnum Hs. revert X HX.
  induction l as [|b l IH]; intros X HX.
  - injection HX as <-. apply system_numbers_cons.
    exists num, s, ∅. repeat split; [done..|set_solver].
  - apply system_numbers_cons in HX as (n' & s' & X' & Hn' & Hs' & HX' & ->).
    rewrite <- app_comm_cons. apply system_numbers_cons.
    exists n', s', (X' ∪ {[strip s]}).
    repeat split; [done | done | by apply IH | set_solver].
Qed.

Lemma split_system_numbers S all :
  Forall has_article_number all →
  ∀ C in_both only_in_system Cb Cs,
    system_numbers all = Ok C →
    system_numbers in_both = Ok Cb →
    system_numbers only_in_system = Ok Cs →
    ∃ in_both' only_in_system',
      split_system S all in_both only_in_system
        = Ok (in_both', only_in_system') ∧
      system_numbers in_both' = Ok (Cb ∪ (S ∩ C)) ∧
      system_numbers only_in_system' = Ok (Cs ∪ (C ∖ S)).
Proof.
  induction 1 as [|a rest (fields & v & -> & Hv) _ IH];
    intros C in_both only_in_system Cb Cs HC Hb Hs.
  - injection HC as <-. exists in_both, only_in_system.
    split; [done|]. split.
    + rewrite Hb. f_equal. set_solver.
    + rewrite Hs. f_equal. set_solver.
  - apply system_numbers_cons in HC as (num & s & C' & Hnum & Hstr & HC' & ->).
    assert (num = v) as ->.
    { simpl in Hnum. rewrite Hv in Hnum. by injection Hnum. }
    simpl. rewrite Hv. simpl. rewrite (bind_Ok_l _ _ _ Hstr).
    destruct (bool_decide (strip s ∈ S)) eqn:Hin.
    + apply bool_decide_eq_true in Hin.
      destruct (IH C' (in_both ++ [JObj fields]) only_in_system
                  (Cb ∪ {[strip s]}) Cs) as (b' & s' & Hsplit & Hb' & Hs');
        [done | by eapply system_numbers_snoc | done |].
      exists b', s'. split; [done|]. split.
      * rewrite Hb'. f_equal. set_solver.
      * rewrite Hs'. f_equal. set_solver.
    + apply bool_decide_eq_false in Hin.
      destruct (IH C' in_both (only_in_system ++ [JObj fields])
                  Cb (Cs ∪ {[strip s]})) as (b' & s' & Hsplit & Hb' & Hs');
        [done | done | by eapply system_numbers_snoc |].
      exists b', s'. split; [done|]. split.
      * rewrite Hb'. f_equal. set_solver.
      * rewrite Hs'. f_equal. set_solver.
Qed.

Lemma only_in_excel_set iter S C :
  set_order iter →
  list_to_set (only_in_excel iter S C) = S ∖ C.
Proof.
  intros Hiter. unfold only_in_excel. apply set_eq. intros x.
  rewrite elem_of_list_to_set, list_elem_of_filter, (Hiter S), elem_of_elements.
  set_solver.
Qed.

(** C1.  For a spreadsheet identifier set [S] and catalog records that
    all carry an article number, with catalog identifier set [C]:
    check-missing-correct.py computes [found = S ∩ C] and
    [missing = S ∖ C]; mark-non-excel-articles.py completes and splits
    the records into those whose identifiers are [S ∩ C] and those whose
    identifiers are [C ∖ S], and lists [S ∖ C] as missing.  The three
    sets are pairwise disjoint, matched and spreadsheet-only make up
    [S], matched and catalog-only make up [C]. *)
Theorem reconcile_three_way_partition
    (iter : gset string → list string) (S C : gset string)
    (all_system_articles : list jval) :
  set_order iter →
  Forall has_article_number all_system_articles →
  system_numbers all_system_articles = Ok C →
  let matched := CheckMissingCorrect.found S C in
  let spreadsheetOnly := CheckMissingCorrect.missing S C in
  let catalogOnly := C ∖ S in
  (∃ in_both only_in_system only_in_excel,
     compare iter S all_system_articles
       = Ok (in_both, only_in_system, only_in_excel) ∧
     system_numbers in_both = Ok matched ∧
     system_numbers only_in_system = Ok catalogOnly ∧
     list_to_set only_in_excel = spreadsheetOnly) ∧
  matched = S ∩ C ∧ spreadsheetOnly = S ∖ C ∧
  matched ## spreadsheetOnly ∧ matched ## catalogOnly ∧
  spreadsheetOnly ## catalogOnly ∧
  matched ∪ spreadsheetOnly = S ∧ matched ∪ catalogOnly = C.
Proof.
  intros Hiter Hall HC matched spreadsheetOnly catalogOnly.
  subst matched spreadsheetOnly catalogOnly.
  unfold CheckMissingCorrect.found, CheckMissingCorrect.missing.
  split.
  - destruct (split_system_numbers S all_system_articles Hall C [] [] ∅ ∅)
      as (in_both & only_in_system & Hsplit & Hb & Hs); [done..|].
    exists in_both, only_in_system, (only_in_excel iter S C).
    split; [|split; [|split]].
    + unfold compare. rewrite (bind_Ok_l _ _ _ Hsplit). simpl.
      by rewrite (bind_Ok_l _ _ _ HC).
    + rewrite Hb. f_equal. set_solver.
    + rewrite Hs. f_equal. set_solver.
    + by apply only_in_excel_set.
  - repeat split; try set_solver.
    + apply set_eq. intros x. destruct (decide (x ∈ C)); set_solver.
    + apply set_eq. intros x. destruct (decide (x ∈ S)); set_solver.
Qed.

Lemma reconcile_three_way_partition_witness :
  CheckMissingCorrect.found Examples.sheet_ids Examples.catalog_ids
    ∪ CheckMissingCorrect.missing Examples.sheet_ids Examples.catalog_ids
    = Examples.sheet_ids ∧
  CheckMissingCorrect.found Examples.sheet_ids Examples.catalog_ids
    ∪ Examples.catalog_ids ∖ Examples.sheet_ids
    = Examples.catalog_ids.
Proof.
  assert (Hiter : set_order elements) by (intros X; reflexivity).
  assert (Hall : Forall has_article_number Examples.catalog).
  { repeat constructor; eexists _, _; (split; [reflexivity|]); reflexivity. }
  assert (HC : system_numbers Examples.catalog = Ok Examples.catalog_ids)
    by reflexivity.
  pose proof (reconcile_three_way_partition elements Examples.sheet_ids
                Examples.catalog_ids Examples.catalog Hiter Hall HC)
    as (_ & _ & _ & _ & _ & _ & H1 & H2).
  exact (conj H1 H2).
Defined.

End Reconciliation.

(** ** Price classification (prepare-import-data.py) *)

Section Classification.
Import PrepareImportData Spec.


Lemma classify_counts article stats p1 p2 p3 p4 article' stats' :
  classify article stats p1 p2 p3 p4 = Ok (article', stats') →
  counted stats' = S (counted stats) ∧
  needs_tier_quantities stats' + tiered_price stats
    = needs_tier_quantities stats + tiered_price stats'.
Proof.
  unfold classify, counted. intros H.
  repeat
    (match type of H with
     | context [if ?b then _ else _] => destruct b
     | context [gt_zero ?p] => destruct p; simpl in H
     | context [match ?l with [] => _ | _ :: _ => _ end] => destruct l
     end; try discriminate H);
    injection H as <- <-; simpl; lia.
Qed.

Lemma import_row_inv r stats article stats' :
  import_row r stats = Ok (article, stats') →
  ∃ num article0 article1,
    r !! "Artikelnummer" = Some num ∧
    classify article0 stats (coerced_price r "Preis 1")
      (coerced_price r "Preis 2") (coerced_price r "Preis 3")
      (coerced_price r "Preis 4") = Ok (article1, stats') ∧
    (article = article1 ∨ ∃ e, article = set_ean e article1).
Proof.
  unfold import_row, row_getitem. intros H.
  destruct (r !! "Artikelnummer") as [num|] eqn:Hnum; [|done].
  simpl in H. apply bind_Ok in H as ([article1 stats1] & Hc & H).
  exists num. eexists. exists article1. split; [done|].
  destruct (_ && _); injection H as <- <-; eauto.
Qed.

Lemma import_rows_counts rows :
  ∀ import_articles stats import_articles' stats',
    import_rows rows import_articles stats = Ok (import_articles', stats') →
    counted stats' = counted stats + length rows ∧
    needs_tier_quantities stats' + tiered_price stats
      = needs_tier_quantities stats + tiered_price stats' ∧
    length import_articles' = length import_articles + length rows.
Proof.
  induction rows as [|r rows IH]; intros acc stats acc' stats' H; simpl in H.
  - injection H as <- <-. simpl. lia.
  - apply bind_Ok in H as ([article stats1] & Hrow & H).
    apply import_row_inv in Hrow as (? & ? & ? & _ & Hc & _).
    apply classify_counts in Hc as [Hc1 Hc2].
    apply IH in H as (H1 & H2 & H3).
    rewrite length_app in H3. simpl in *. lia.
Qed.

(** C10.  When the classification loop of prepare-import-data.py completes
    on a list of rows, starting from the counters at zero, the counters
    satisfy [single_price + tiered_price + auf_anfrage = number of rows]
    and [needs_tier_quantities = tiered_price]; one import record is
    produced per row. *)
Theorem counters_partition_rows
    (rows : list row) (import_articles : list import_article)
    (stats : import_stats) :
  import_rows rows [] stats0 = Ok (import_articles, stats) →
  single_price stats + tiered_price stats + auf_anfrage stats = length rows ∧
  needs_tier_quantities stats = tiered_price stats ∧
  length import_articles = length rows.
Proof.
  intros H. apply import_rows_counts in H as (H1 & H2 & H3).
  unfold counted in H1. simpl in *. lia.
Qed.

Lemma counters_partition_rows_witness :
  single_price (snd Examples.sheet_import)
    + tiered_price (snd Examples.sheet_import)
    + auf_anfrage (snd Examples.sheet_import) = length Examples.sheet_rows ∧
  needs_tier_quantities (snd Examples.sheet_import)
    = tiered_price (snd Examples.sheet_import) ∧
  length (fst Examples.sheet_import) = length Examples.sheet_rows.
Proof.
  apply (counters_partition_rows Examples.sheet_rows
           (fst Examples.sheet_import) (snd Examples.sheet_import)).
  vm_compute. reflexivity.
Defined.

(** *** The on-request branch *)

Lemma classify_on_request article stats p1 p2 p3 p4 :
  eq_text p1 "Auf Anfrage"
    || (eq_zero p1 && eq_zero p2 && eq_zero p3 && eq_zero p4) = true →
  classify article stats p1 p2 p3 p4
    = Ok (set_tieredPricesText "Auf Anfrage" (set_price (VNum fzero) article),
          incr_auf_anfrage stats).
Proof. unfold classify. by intros ->. Qed.

(** C5.  A spreadsheet-only row whose price1 coerces to the on-request
    marker, or whose four price fields all coerce to a number equal to 0,
    is imported with price 0, tier text "Auf Anfrage" and verification
    flag true. *)
Theorem on_request_record (r : row) (stats : import_stats) :
  is_Some (r !! "Artikelnummer") →
  coerced_price r "Preis 1" = VStr "Auf Anfrage" ∨
    (eq_zero (coerced_price r "Preis 1") = true ∧
     eq_zero (coerced_price r "Preis 2") = true ∧
     eq_zero (coerced_price r "Preis 3") = true ∧
     eq_zero (coerced_price r "Preis 4") = true) →
  ∃ article stats',
    import_row r stats = Ok (article, stats') ∧ on_request_outcome article.
Proof.
  intros [num Hnum] Hreq. unfold import_row, row_getitem. rewrite Hnum. simpl.
  rewrite classify_on_request.
  - simpl. destruct (_ && _); eexists _, _; (split; [reflexivity|]);
      by repeat split.
  - destruct Hreq as [-> | (-> & -> & -> & ->)]; [done|].
    apply orb_true_r.
Qed.

Lemma on_request_record_witness :
  ∃ article stats',
    import_row Examples.on_request_row stats0 = Ok (article, stats') ∧
    on_request_outcome article.
Proof.
  apply (on_request_record Examples.on_request_row stats0).
  - exists (CStr "A123"). reflexivity.
  - left. vm_compute. reflexivity.
Defined.

(** *** The tiered branch *)






(** *** Totality *)

(** On four numbers the chain always reaches a branch. *)
Lemma classify_total_on_numbers article stats x1 x2 x3 x4 :
  ∃ article' stats',
    classify article stats (VNum x1) (VNum x2) (VNum x3) (VNum x4)
      = Ok (article', stats').
Proof.
  unfold classify. simpl.
  destruct (feqb x1 fzero && feqb x2 fzero && feqb x3 fzero && feqb x4 fzero);
    [eauto|].
  destruct (fgtb x1 fzero), (fgtb x2 fzero), (fgtb x3 fzero), (fgtb x4 fzero);
    simpl; destruct (feqb x2 x1), (feqb x3 x2), (feqb x4 x3); simpl; eauto.
Qed.

Lemma to_float_range val :
  to_float val = VStr "Auf Anfrage" ∨ is_number (to_float val).
Proof.
  unfold to_float, is_number. destruct (isna val); [right; eauto|].
  destruct val as [|s|z|b|x shown|shown]; simpl; try (right; eauto; fail).
  destruct (_ || _); [by left|]. destruct (float_of_str _); right; eauto.
Qed.

(** The chain reaches a branch exactly when price1 is the marker or none
    of price2, price3, price4 is. *)
Lemma import_row_completes_iff (r : row) (stats : import_stats) :
  is_Some (r !! "Artikelnummer") →
  (∃ article stats', import_row r stats = Ok (article, stats')) ↔
  coerced_price r "Preis 1" = VStr "Auf Anfrage" ∨
  (is_number (coerced_price r "Preis 2") ∧
   is_number (coerced_price r "Preis 3") ∧
   is_number (coerced_price r "Preis 4")).
Proof.
  intros [num Hnum]. unfold import_row, row_getitem. rewrite Hnum. simpl.
  destruct (to_float_range (row_get r "Preis 1" (CInt 0))) as [H1|[x1 H1]];
    fold (coerced_price r "Preis 1") in H1; rewrite H1.
  { split; [by left|]. intros _. rewrite classify_on_request by done.
    simpl. destruct (_ && _); eauto. }
  destruct (to_float_range (row_get r "Preis 2" (CInt 0))) as [H2|[x2 H2]];
    fold (coerced_price r "Preis 2") in H2; rewrite H2.
  { split; [|intros [?|([? ?] & _)]; done].
    intros (a & st & H). unfold classify in H. simpl in H.
    rewrite !andb_false_r in H. simpl in H. done. }
  destruct (to_float_range (row_get r "Preis 3" (CInt 0))) as [H3|[x3 H3]];
    fold (coerced_price r "Preis 3") in H3; rewrite H3.
  { split; [|intros [?|(_ & [? ?] & _)]; done].
    intros (a & st & H). unfold classify in H. simpl in H.
    rewrite !andb_false_r in H. simpl in H.
    destruct (fgtb x1 fzero), (fgtb x2 fzero); simpl in H;
      try destruct (negb (feqb x2 x1)); done. }
  destruct (to_float_range (row_get r "Preis 4" (CInt 0))) as [H4|[x4 H4]];
    fold (coerced_price r "Preis 4") in H4; rewrite H4.
  { split; [|intros [?|(_ & _ & [? ?])]; done].
    intros (a & st & H). unfold classify in H. simpl in H.
    rewrite !andb_false_r in H. simpl in H.
    destruct (fgtb x1 fzero), (fgtb x2 fzero), (fgtb x3 fzero); simpl in H;
      try destruct (negb (feqb x2 x1)); try destruct (negb (feqb x3 x2));
      done. }
  split; [intros _; right; by repeat split; eexists|]. intros _.
  destruct (classify_total_on_numbers
              {| articleNumber := strip (str_cell num);
                 productName := str_cell (row_get r "Matchcode" (CStr ""));
                 description := str_cell (row_get r "Beschreibung" (CStr ""));
                 currency := "EUR";
                 sourceUrl := "https://shop.firmenich.de";
                 category := "FROM_EXCEL";
                 published := true;
                 verified := true;
                 ocrConfidence := 1%Q;
                 price := None;
                 tieredPricesText := None;
                 tieredPrices := None;
                 manufacturer := None;
                 ean := None |} stats x1 x2 x3 x4) as (a & st & ->).
  simpl. destruct (_ && _); eauto.
Qed.

(** C3 fails on the code: with price1 = 10 and the text "Auf Anfrage" in
    price2, the comparison [preis2 > 0] of line 113 raises [TypeError];
    the row reaches no bucket. *)
Theorem classification_raises_on_text_tier :
  coerced_price Examples.text_tier_row "Preis 1" = VNum (of_Z 10) ∧
  coerced_price Examples.text_tier_row "Preis 2" = VStr "Auf Anfrage" ∧
  import_row Examples.text_tier_row stats0 = Raise TypeError ∧
  import_rows [Examples.text_tier_row] [] stats0 = Raise TypeError.
Proof. repeat split; vm_compute; reflexivity. Qed.

End Classification.

(** ** Numeric coercion (prepare-import-data.py, [to_float]) *)

Section Coercion.
Import PrepareImportData Spec.


(** *** Comma and point are the same to [to_float] *)








(** *** Digits *)

Local Open Scope Z_scope.









(** *** Reading digits *)





(** *** Texts whose characters all pass a test *)







(** *** A price written with a decimal comma and the euro sign *)





Lemma decimal_fraction (m : Z) (k : nat) :
  (0 < k)%nat →
  (decimal m (- Z.of_nat k) == inject_Z m / inject_Z (10 ^ Z.of_nat k))%Q.
Proof.
  intros Hk. unfold decimal.
  destruct (0 <=? - Z.of_nat k) eqn:Hle; [apply Z.leb_le in Hle; lia|].
  rewrite Qred_correct, Qmake_Qdiv. rewrite Pos2Z.inj_pow.
  rewrite Z2Pos.id by lia. by rewrite Z.opp_involutive.
Qed.

Local Close Scope Z_scope.




End Coercion.

(** ** Paging through the catalog (check-missing-correct.py,
    prepare-import-data.py) *)

Section Fetching.
Import Spec.

Lemma check_fetch_full_page items data acc :
  full_page items data →
  CheckMissingCorrect.fetch_page data acc = Ok (true, acc ++ items).
Proof.
  intros (fields & success & pagination & hasNext & -> & Hs & Hts & Hd & Hp & Hh & Hth).
  unfold CheckMissingCorrect.fetch_page. simpl.
  rewrite Hs. simpl. rewrite Hts, Hd. simpl. rewrite Hp. simpl.
  rewrite Hh. simpl. by rewrite Hth.
Qed.

Lemma check_fetch_unsuccessful_page data acc :
  unsuccessful_page data →
  CheckMissingCorrect.fetch_page data acc = Ok (false, acc).
Proof.
  intros (fields & -> & Hs). unfold CheckMissingCorrect.fetch_page. simpl.
  by rewrite Hs.
Qed.

Lemma prepare_fetch_full_page items data acc :
  full_page items data → items ≠ [] →
  PrepareImportData.fetch_page data acc = Ok (true, acc ++ items).
Proof.
  intros (fields & success & pagination & hasNext & -> & Hs & Hts & Hd & Hp & Hh & Hth) Hne.
  unfold PrepareImportData.fetch_page. simpl.
  rewrite Hs. simpl. rewrite Hts, Hd. simpl.
  destruct items as [|item items]; [done|]. simpl. rewrite Hp. simpl.
  rewrite Hh. simpl. by rewrite Hth.
Qed.

Lemma prepare_fetch_unsuccessful_page data acc :
  unsuccessful_page data →
  PrepareImportData.fetch_page data acc = Ok (false, acc).
Proof.
  intros (fields & -> & Hs). unfold PrepareImportData.fetch_page. simpl.
  by rewrite Hs.
Qed.

(** The records of the pages [k+1 .. k+n] are appended and the loop stops
    at page [k+n+1]. *)
Lemma check_fetch_loop_stops (srv : server) (last : jval) (pages : list (list jval)) :
  ∀ k acc fuel,
    (∀ i items, pages !! i = Some items →
       ∃ data, srv (S (k + i)) = Ok data ∧ full_page items data) →
    srv (S (k + length pages)) = Ok last →
    unsuccessful_page last →
    length pages < fuel →
    CheckMissingCorrect.fetch_loop fuel srv (S k) acc
      = Some (Ok (acc ++ concat pages)).
Proof.
  induction pages as [|items pages IH]; intros k acc fuel Hpages Hlast Hun Hfuel;
    (destruct fuel as [|fuel]; [simpl in Hfuel; lia|]); simpl.
  - rewrite Nat.add_0_r in Hlast. rewrite Hlast. simpl.
    rewrite check_fetch_unsuccessful_page by done. by rewrite app_nil_r.
  - destruct (Hpages 0 items eq_refl) as (data & Hsrv & Hfull).
    rewrite Nat.add_0_r in Hsrv. rewrite Hsrv. simpl.
    rewrite (check_fetch_full_page items) by done.
    rewrite (IH (S k) (acc ++ items) fuel).
    + by rewrite <- app_assoc.
    + intros i items' Hi. destruct (Hpages (S i) items' Hi) as (d & Hd & Hf).
      exists d. split; [|done]. by rewrite <- Nat.add_succ_r.
    + by rewrite <- Nat.add_succ_r.
    + done.
    + simpl in Hfuel. lia.
Qed.

Lemma prepare_fetch_loop_stops (srv : server) (last : jval) (pages : list (list jval)) :
  ∀ k acc fuel,
    (∀ i items, pages !! i = Some items →
       items ≠ [] ∧ ∃ data, srv (S (k + i)) = Ok data ∧ full_page items data) →
    srv (S (k + length pages)) = Ok last →
    unsuccessful_page last →
    length pages < fuel →
    PrepareImportData.fetch_loop fuel srv (S k) acc
      = Some (Ok (acc ++ concat pages)).
Proof.
  induction pages as [|items pages IH]; intros k acc fuel Hpages Hlast Hun Hfuel;
    (destruct fuel as [|fuel]; [simpl in Hfuel; lia|]); simpl.
  - rewrite Nat.add_0_r in Hlast. rewrite Hlast. simpl.
    rewrite prepare_fetch_unsuccessful_page by done. by rewrite app_nil_r.
  - destruct (Hpages 0 items eq_refl) as (Hne & data & Hsrv & Hfull).
    rewrite Nat.add_0_r in Hsrv. rewrite Hsrv. simpl.
    rewrite (prepare_fetch_full_page items) by done.
    rewrite (IH (S k) (acc ++ items) fuel).
    + by rewrite <- app_assoc.
    + intros i items' Hi.
      destruct (Hpages (S i) items' Hi) as (Hne' & d & Hd & Hf).
      split; [done|]. exists d. split; [|done]. by rewrite <- Nat.add_succ_r.
    + by rewrite <- Nat.add_succ_r.
    + done.
    + simpl in Hfuel. lia.
Qed.

(** C7, amended.  Let the pages 1 to n each be an object with a true
    [success], a list of records under [data] and a true [hasNext], and
    let page n+1 be an object whose [success] is false, null or missing.
    Then the loop of check-missing-correct.py, given more than n turns,
    stops at page n+1 and returns exactly the records of pages 1 to n, in
    order, without raising; so does the loop of prepare-import-data.py
    when none of the pages 1 to n is empty. *)
Theorem fetch_stops_at_unsuccessful_page
    (srv : server) (pages : list (list jval)) (last : jval) (fuel : nat) :
  (∀ i items, pages !! i = Some items →
     ∃ data, srv (S i) = Ok data ∧ full_page items data) →
  srv (S (length pages)) = Ok last →
  unsuccessful_page last →
  length pages < fuel →
  CheckMissingCorrect.fetch fuel srv = Some (Ok (concat pages)) ∧
  (Forall (λ items, items ≠ []) pages →
   PrepareImportData.fetch fuel srv = Some (Ok (concat pages))).
Proof.
  intros Hpages Hlast Hun Hfuel. split.
  - by apply (check_fetch_loop_stops srv last pages 0 []).
  - intros Hne. apply (prepare_fetch_loop_stops srv last pages 0 []); try done.
    intros i items Hi. split; [|by apply Hpages].
    by eapply Forall_lookup_1 in Hne.
Qed.

Lemma fetch_stops_at_unsuccessful_page_witness :
  CheckMissingCorrect.fetch 3 Examples.srv_unsuccessful
    = Some (Ok Examples.catalog) ∧
  PrepareImportData.fetch 3 Examples.srv_unsuccessful
    = Some (Ok Examples.catalog).
Proof.
  destruct (fetch_stops_at_unsuccessful_page Examples.srv_unsuccessful
              [Examples.catalog] Examples.failed_page 3) as [H1 H2].
  - intros [|i] items Hi; [|destruct i; discriminate Hi].
    injection Hi as <-. exists (Examples.page_with Examples.catalog).
    split; [reflexivity|].
    eexists _, _, _, _. repeat split; reflexivity.
  - reflexivity.
  - eexists. split; reflexivity.
  - simpl. lia.
  - split; [exact H1|]. apply H2. repeat constructor. discriminate.
Defined.

(** C7 as stated fails: when the second page is malformed in another way
    (a body that is not JSON, a JSON list in place of the envelope, an
    envelope whose pagination is null), both loops raise instead of
    returning the records of the first page. *)
Lemma fetch_malformed_counterexample :
  CheckMissingCorrect.fetch 3 Examples.srv_not_json
    = Some (Raise JSONDecodeError) ∧
  PrepareImportData.fetch 3 Examples.srv_not_json
    = Some (Raise JSONDecodeError) ∧
  CheckMissingCorrect.fetch 3 Examples.srv_list_body
    = Some (Raise AttributeError) ∧
  PrepareImportData.fetch 3 Examples.srv_list_body
    = Some (Raise AttributeError) ∧
  CheckMissingCorrect.fetch 3 Examples.srv_null_pagination
    = Some (Raise AttributeError) ∧
  PrepareImportData.fetch 3 Examples.srv_null_pagination
    = Some (Raise AttributeError).
Proof. repeat split; vm_compute; reflexivity. Qed.

End Fetching.

(** ** Coverage (check-missing-correct.py, compare-excel-system.py) *)

Section Coverage.
Import Spec.

Lemma ratio_bounds (a b : nat) :
  0 < b → a ≤ b →
  let p := (inject_Z (Z.of_nat a) / inject_Z (Z.of_nat b) * 100)%Q in
  (p / 100 == inject_Z (Z.of_nat a) / inject_Z (Z.of_nat b))%Q ∧
  (0 <= p / 100)%Q ∧ (p / 100 <= 1)%Q.
Proof.
  intros Hb Hab p. subst p.
  assert (Hb' : (0 < inject_Z (Z.of_nat b))%Q).
  { change 0%Q with (inject_Z 0). rewrite <- Zlt_Qlt. lia. }
  assert (H1 : (inject_Z (Z.of_nat a) / inject_Z (Z.of_nat b) * 100 / 100
                == inject_Z (Z.of_nat a) / inject_Z (Z.of_nat b))%Q).
  { field. intros H. rewrite H in Hb'. by apply Qlt_irrefl in Hb'. }
  split; [exact H1|]. rewrite H1. split.
  - apply Qle_shift_div_l; [done|]. rewrite Qmult_0_l.
    change 0%Q with (inject_Z 0). rewrite <- Zle_Qle. lia.
  - apply Qle_shift_div_r; [done|]. rewrite Qmult_1_l.
    rewrite <- Zle_Qle. lia.
Qed.

Lemma percentage_pos (a b : nat) :
  0 < b →
  percentage a b
    = Ok (inject_Z (Z.of_nat a) / inject_Z (Z.of_nat b) * 100)%Q.
Proof. destruct b; [lia|done]. Qed.

(** *** The dict of compare-excel-system.py has one entry per key *)

Lemma keys_dict_set {V} (k : string) (v : V) (d : list (string * V)) :
  keys (dict_set k v d) = if decide (k ∈ keys d) then keys d else keys d ++ [k].
Proof.
  induction d as [|[k' v'] d IH].
  - unfold keys. cbn [dict_set fmap list_fmap fst].
    rewrite decide_False; [done|apply not_elem_of_nil].
  - cbn [dict_set]. destruct (decide (k' = k)) as [->|Hne].
    + unfold keys. cbn [fmap list_fmap fst].
      rewrite decide_True; [done|by left].
    + unfold keys in *. cbn [fmap list_fmap fst]. rewrite IH.
      destruct (decide (k ∈ d.*1)) as [Hin|Hnin].
      * rewrite decide_True; [done|by right].
      * rewrite decide_False; [done|].
        intros [?|?]%elem_of_cons; congruence.
Qed.

Lemma NoDup_keys_dict_set {V} (k : string) (v : V) (d : list (string * V)) :
  NoDup (keys d) → NoDup (keys (dict_set k v d)).
Proof.
  intros Hd. rewrite keys_dict_set. destruct (decide _) as [|Hnin]; [done|].
  apply NoDup_app. repeat split; [done| |apply NoDup_singleton].
  intros x Hx ->%list_elem_of_singleton. done.
Qed.

Lemma NoDup_keys_extract_rows col rows :
  ∀ index d d',
    NoDup (keys d) →
    CompareExcelSystem.extract_rows col index rows d = Ok d' →
    NoDup (keys d').
Proof.
  induction rows as [|r rows IH]; intros index d d' Hd H; simpl in H.
  - by injection H as <-.
  - apply bind_Ok in H as (d1 & Hrow & H). eapply IH; [|exact H].
    unfold CompareExcelSystem.extract_row in Hrow.
    apply bind_Ok in Hrow as (c & _ & Hrow).
    destruct (notna c); [|by injection Hrow as <-].
    destruct (_ && _); injection Hrow as <-; [|done].
    by apply NoDup_keys_dict_set.
Qed.

Lemma NoDup_keys_extract df d lines :
  CompareExcelSystem.extract df = Ok (d, lines) → NoDup (keys d).
Proof.
  unfold CompareExcelSystem.extract. intros H.
  apply bind_Ok in H as ([col note] & _ & H).
  apply bind_Ok in H as (d' & Hrows & H). injection H as <- _.
  eapply NoDup_keys_extract_rows; [|exact Hrows]. apply NoDup_nil_2.
Qed.

(** *** Counting the found articles *)

Lemma assoc_None {V} (k : string) (d : list (string * V)) :
  assoc k d = None ↔ k ∉ keys d.
Proof.
  induction d as [|[k' v] d IH]; simpl.
  - split; [intros _; apply not_elem_of_nil|done].
  - destruct (decide (k' = k)) as [->|Hne].
    + split; [done|]. intros []. by left.
    + rewrite IH. unfold keys. simpl. rewrite not_elem_of_cons. naive_solver.
Qed.

Lemma compare_lengths excel system :
  ∀ missing found missing' found',
    CompareExcelSystem.compare excel system missing found
      = Ok (missing', found') →
    length found'
      = length found + length (filter (λ k, k ∈ keys system) (keys excel)) ∧
    length missing'
      = length missing + length (filter (λ k, k ∉ keys system) (keys excel)).
Proof.
  induction excel as [|[k data] excel IH]; intros m f m' f' H; simpl in H.
  - injection H as <- <-. simpl. lia.
  - change (keys ((k, data) :: excel)) with (k :: keys excel).
    rewrite !filter_cons.
    destruct (assoc k system) as [article|] eqn:Hk.
    + apply bind_Ok in H as (name & _ & H). apply IH in H as [H1 H2].
      assert (k ∈ keys system) as Hin.
      { destruct (decide (k ∈ keys system)) as [|Hn]; [done|].
        apply assoc_None in Hn. congruence. }
      rewrite decide_True by done. rewrite decide_False by naive_solver.
      rewrite length_app in H1. cbn [length] in *. lia.
    + apply IH in H as [H1 H2]. apply assoc_None in Hk.
      rewrite decide_False by done. rewrite decide_True by done.
      rewrite length_app in H2. cbn [length] in *. lia.
Qed.

Lemma size_keys_inter (l : list string) (C : gset string) :
  NoDup l →
  size (list_to_set l ∩ C : gset string) = length (filter (λ k, k ∈ C) l).
Proof.
  intros Hl. rewrite <- (size_list_to_set (C := gset string))
    by by apply NoDup_filter.
  f_equal. apply set_eq. intros x.
  rewrite elem_of_intersection, !elem_of_list_to_set, list_elem_of_filter.
  naive_solver.
Qed.

(** C2, amended.  When the spreadsheet identifier set [S] is not empty,
    the coverage reported by check-missing-correct.py and by
    compare-excel-system.py stands for the ratio [|S ∩ C| / |S|] (taken
    before the percentage is rounded to one decimal), which lies between 0
    and 1.  When [S] is empty, compare-excel-system.py reports "0%", the
    ratio 0. *)
Theorem coverage_ratio :
  (∀ iter df first_column (S C : gset string),
     S ≠ ∅ →
     ∃ res r,
       CheckMissingCorrect.make_result iter df first_column S C = Ok res ∧
       ratio_of (CheckMissingCorrect.coverage
                   (CheckMissingCorrect.result_summary res)) = Some r ∧
       (r == size_ratio (S ∩ C) S)%Q ∧ (0 <= r)%Q ∧ (r <= 1)%Q) ∧
  (∀ now df excel_articles lines system_articles res,
     CompareExcelSystem.extract df = Ok (excel_articles, lines) →
     CompareExcelSystem.make_result now excel_articles system_articles
       = Ok res →
     let S : gset string := list_to_set (keys excel_articles) in
     let C : gset string := list_to_set (keys system_articles) in
     ∃ r,
       ratio_of (CompareExcelSystem.coverage
                   (CompareExcelSystem.result_summary res)) = Some r ∧
       (S ≠ ∅ → (r == size_ratio (S ∩ C) S)%Q) ∧
       (S = ∅ → r = 0%Q) ∧ (0 <= r)%Q ∧ (r <= 1)%Q).
Proof.
  split.
  - intros iter df first_column S C HS.
    assert (0 < size S) as Hpos.
    { destruct (decide (size S = 0)) as [H0|]; [|lia].
      apply size_empty_iff, leibniz_equiv in H0. done. }
    assert (size (S ∩ C) ≤ size S) as Hle.
    { apply subseteq_size. set_solver. }
    unfold CheckMissingCorrect.make_result, CheckMissingCorrect.found.
    rewrite percentage_pos by done. simpl.
    eexists _, _. split; [reflexivity|]. simpl. split; [reflexivity|].
    apply (ratio_bounds (size (S ∩ C)) (size S)); done.
  - intros now df excel system_articles_lines system res Hex Hres S C.
    apply NoDup_keys_extract in Hex.
    unfold CompareExcelSystem.make_result in Hres.
    apply bind_Ok in Hres as ([missing found] & Hcmp & Hres).
    apply bind_Ok in Hres as (cov & Hcov & Hres). injection Hres as <-. simpl.
    apply compare_lengths in Hcmp as [Hfound _]. simpl in Hfound.
    assert (size S = length excel) as HsizeS.
    { subst S. rewrite size_list_to_set by done. unfold keys.
      by rewrite length_fmap. }
    assert (size (S ∩ C) = length found) as Hinter.
    { subst S C. rewrite size_keys_inter by done. rewrite Hfound.
      f_equal. apply list_filter_iff. intros k.
      by rewrite elem_of_list_to_set. }
    unfold CompareExcelSystem.coverage_of in Hcov.
    destruct excel as [|e excel].
    + injection Hcov as <-. exists 0%Q. simpl.
      split; [done|]. split; [intros []; by subst S|]. by repeat split.
    + rewrite percentage_pos in Hcov by (simpl; lia).
      injection Hcov as <-. eexists. split; [reflexivity|].
      assert (0 < size S) as Hpos by (rewrite HsizeS; simpl; lia).
      assert (size (S ∩ C) ≤ size S) as Hle by (apply subseteq_size; set_solver).
      unfold size_ratio. rewrite Hinter, HsizeS in *.
      destruct (ratio_bounds (length found) (length (e :: excel)))
        as (H1 & H2 & H3); [done..|].
      split; [done|]. split; [|done].
      intros HS. rewrite HS, size_empty in HsizeS. simpl in HsizeS. lia.
Qed.

Lemma coverage_ratio_witness :
  (∃ res r,
     CheckMissingCorrect.make_result elements Examples.sheet "Artikelnummer"
       Examples.sheet_ids Examples.catalog_ids = Ok res ∧
     ratio_of (CheckMissingCorrect.coverage
                 (CheckMissingCorrect.result_summary res)) = Some r ∧
     (r == size_ratio (Examples.sheet_ids ∩ Examples.catalog_ids)
             Examples.sheet_ids)%Q ∧ (0 <= r)%Q ∧ (r <= 1)%Q) ∧
  (∃ res r,
     CompareExcelSystem.make_result Examples.first_run
       Examples.sheet_articles Examples.system_articles = Ok res ∧
     ratio_of (CompareExcelSystem.coverage
                 (CompareExcelSystem.result_summary res)) = Some r ∧
     (0 <= r)%Q ∧ (r <= 1)%Q).
Proof.
  destruct coverage_ratio as [Hcheck Hcompare]. split.
  - apply Hcheck. intros H. vm_compute in H. discriminate H.
  - eexists.
    edestruct (Hcompare Examples.first_run Examples.sheet
                 Examples.sheet_articles Examples.sheet_lines
                 Examples.system_articles)
      as (r & Hr & _ & _ & H0 & H1);
      [vm_compute; reflexivity | vm_compute; reflexivity |].
    exists r. split; [reflexivity|]. split; [exact Hr|]. by split.
Defined.

(** C2 as stated fails: for an empty spreadsheet identifier set,
    compare-excel-system.py reports "0%", the ratio 0 and not 1, and
    check-missing-correct.py raises [ZeroDivisionError] at line 116. *)
Lemma coverage_empty_counterexample :
  fst <$> CompareExcelSystem.extract Examples.empty_sheet = Ok [] ∧
  (CompareExcelSystem.coverage ∘ CompareExcelSystem.result_summary)
    <$> CompareExcelSystem.make_result Examples.first_run []
          Examples.system_articles
    = Ok (Literal "0%") ∧
  ratio_of (Literal "0%") = Some 0%Q ∧
  ¬ (0 == 1)%Q ∧
  fst <$> CheckMissingCorrect.extract Examples.empty_sheet = Ok ∅ ∧
  CheckMissingCorrect.make_result elements Examples.empty_sheet
    "Artikelnummer" ∅ Examples.catalog_ids = Raise ZeroDivisionError.
Proof. repeat split; try (vm_compute; reflexivity). intros H. discriminate H. Qed.

End Coverage.

(** ** Reading the spreadsheet (check-missing-correct.py,
    compare-excel-system.py) *)

Section Extraction.
Import Spec.

Lemma add_article_unusable (excel_articles : gset string) (value : cell) :
  unusable value = true →
  CheckMissingCorrect.add_article excel_articles value = excel_articles.
Proof.
  unfold unusable, CheckMissingCorrect.add_article, notna. intros H.
  destruct (isna value); [done|]. simpl in *.
  destruct (nonempty _); [|done]. simpl in *. by rewrite H.
Qed.

Lemma add_article_usable (excel_articles : gset string) (value : cell) :
  unusable value = false →
  CheckMissingCorrect.add_article excel_articles value
    = excel_articles ∪ {[strip (str_cell value)]}.
Proof.
  unfold unusable, CheckMissingCorrect.add_article, notna. intros H.
  apply orb_false_iff in H as [H H3]. apply orb_false_iff in H as [-> H2].
  apply negb_false_iff in H2. simpl. by rewrite H2, H3.
Qed.

Lemma elem_of_foldl_add_article (values : list cell) :
  ∀ (acc : gset string) (id : string),
    id ∈ foldl CheckMissingCorrect.add_article acc values ↔
    id ∈ acc ∨
    ∃ value, value ∈ values ∧ unusable value = false ∧
             id = strip (str_cell value).
Proof.
  induction values as [|v values IH]; intros acc id; simpl.
  - split; [by left|]. intros [?|(w & Hw & _)]; [done|].
    by apply elem_of_nil in Hw.
  - rewrite IH. destruct (unusable v) eqn:Hv.
    + rewrite add_article_unusable by done. split.
      * intros [?|(w & ? & ? & ?)]; [by left|].
        right. exists w. split; [by right|done].
      * intros [?|(w & [->|?]%elem_of_cons & Hw & ?)]; [by left|congruence|].
        right. by exists w.
    + rewrite add_article_usable by done. split.
      * intros [[?|Hid%elem_of_singleton]%elem_of_union|(w & ? & ? & ?)].
        -- by left.
        -- right. exists v. split; [by left|done].
        -- right. exists w. split; [by right|done].
      * intros [?|(w & [->|?]%elem_of_cons & Hw & ->)].
        -- left. set_solver.
        -- left. set_solver.
        -- right. by exists w.
Qed.

Lemma extract_row_unusable col index (r : row) d c :
  r !! col = Some c → unusable c = true →
  CompareExcelSystem.extract_row col index r d = Ok d.
Proof.
  unfold unusable, CompareExcelSystem.extract_row, row_getitem, notna.
  intros -> H. simpl. destruct (isna c); [done|]. simpl in *.
  destruct (nonempty _); [|done]. simpl in *. by rewrite H.
Qed.

Lemma extract_row_total col index (r : row) d c :
  r !! col = Some c →
  ∃ d', CompareExcelSystem.extract_row col index r d = Ok d'.
Proof.
  unfold CompareExcelSystem.extract_row, row_getitem. intros ->. simpl.
  destruct (notna c); [|eauto]. destruct (_ && _); eauto.
Qed.

(** C9, amended.  Both extraction loops pass over a row whose identifier
    cell is absent, blank or "nan" without raising and leave the
    collection of article numbers as it was; the article numbers collected
    by check-missing-correct.py are exactly the trimmed identifiers of the
    other rows.  No count of the rows passed over is kept: the lines that
    compare-excel-system.py prints are determined by the column names, the
    number of rows and the number of article numbers collected. *)
Theorem extraction_skips_unusable_rows :
  (∀ (excel_articles : gset string) value,
     unusable value = true →
     CheckMissingCorrect.add_article excel_articles value = excel_articles) ∧
  (∀ values id,
     id ∈ CheckMissingCorrect.excel_articles values ↔
     ∃ value, value ∈ values ∧ unusable value = false ∧
              id = strip (str_cell value)) ∧
  (∀ col index (r : row) d c,
     r !! col = Some c → unusable c = true →
     CompareExcelSystem.extract_row col index r d = Ok d) ∧
  (∀ col index (r : row) d c,
     r !! col = Some c →
     ∃ d', CompareExcelSystem.extract_row col index r d = Ok d') ∧
  (∀ df1 df2 d1 d2 lines1 lines2,
     CompareExcelSystem.extract df1 = Ok (d1, lines1) →
     CompareExcelSystem.extract df2 = Ok (d2, lines2) →
     columns df1 = columns df2 →
     length (rows df1) = length (rows df2) →
     length d1 = length d2 →
     lines1 = lines2).
Proof.
  split; [exact add_article_unusable|].
  split.
  { intros values id. unfold CheckMissingCorrect.excel_articles.
    rewrite elem_of_foldl_add_article. set_solver. }
  split; [exact extract_row_unusable|].
  split; [exact extract_row_total|].
  intros df1 df2 d1 d2 lines1 lines2 H1 H2 Hcols Hrows Hlen.
  unfold CompareExcelSystem.extract, CompareExcelSystem.article_column,
    CompareExcelSystem.candidate_column in *.
  rewrite <- Hcols in H2.
  destruct (list_find _ _) as [[i col]|]; simpl in *.
  - apply bind_Ok in H1 as (e1 & _ & H1). apply bind_Ok in H2 as (e2 & _ & H2).
    injection H1 as <- <-. injection H2 as <- <-. by rewrite Hrows, Hlen.
  - destruct (columns df1) as [|c cols]; [done|]. simpl in *.
    apply bind_Ok in H1 as (e1 & _ & H1). apply bind_Ok in H2 as (e2 & _ & H2).
    injection H1 as <- <-. injection H2 as <- <-. by rewrite Hrows, Hlen.
Qed.

Lemma extraction_skips_unusable_rows_witness :
  CheckMissingCorrect.add_article {[ "A123" ]} nan_cell = {[ "A123" ]} ∧
  CompareExcelSystem.extract_row "Artikelnummer" 1
    {[ "Artikelnummer" := CStr "  " ]} Examples.sheet_articles
    = Ok Examples.sheet_articles.
Proof.
  destruct extraction_skips_unusable_rows as (Hadd & _ & Hrow & _).
  split.
  - apply Hadd. vm_compute. reflexivity.
  - apply (Hrow _ _ _ _ (CStr "  ")); vm_compute; reflexivity.
Defined.

(** C9 as stated fails: two spreadsheets of two rows, one with the same
    article number twice and one with a row without number, make both
    scripts print the same lines, although no row is passed over in the
    first and one in the second. *)
Lemma extraction_report_counterexample :
  skipped Examples.sheet_twice "Artikelnummer" = 0 ∧
  skipped Examples.sheet_gap "Artikelnummer" = 1 ∧
  snd <$> CompareExcelSystem.extract Examples.sheet_twice
    = snd <$> CompareExcelSystem.extract Examples.sheet_gap ∧
  CheckMissingCorrect.extract Examples.sheet_twice
    = CheckMissingCorrect.extract Examples.sheet_gap.
Proof. repeat split; vm_compute; reflexivity. Qed.

End Extraction.

(** ** Running a script twice *)

Section Idempotence.
Import Spec.

Lemma sorted_permutation (l1 l2 : list string) :
  l1 ≡ₚ l2 → sorted l1 = sorted l2.
Proof.
  intros Hl. unfold sorted. apply (Sorted_unique String.le).
  - apply Sorted_merge_sort. apply _.
  - apply Sorted_merge_sort. apply _.
  - by rewrite !merge_sort_Permutation.
Qed.

Lemma sorted_set_order iter1 iter2 (X : gset string) :
  set_order iter1 → set_order iter2 → sorted (iter1 X) = sorted (iter2 X).
Proof. intros H1 H2. apply sorted_permutation. by rewrite (H1 X), (H2 X). Qed.

(** C8, amended.  On identical inputs (spreadsheet and catalog answers)
    check-missing-correct.py gives the same outcome and writes the same
    two files, whatever the order in which sets are walked.  Two runs of compare-excel-system.py on identical inputs
    give results that agree once the timestamp of one is put into the
    other, and two import files of prepare-import-data.py agree in all
    entries but the timestamp. *)
Theorem rerun_same_output :
  (∀ iter1 iter2 fuel df first srv,
     set_order iter1 → set_order iter2 →
     CheckMissingCorrect.main iter1 fuel df first srv
       = CheckMissingCorrect.main iter2 fuel df first srv) ∧
  (∀ now1 now2 excel_articles system_articles res1 res2,
     CompareExcelSystem.make_result now1 excel_articles system_articles
       = Ok res1 →
     CompareExcelSystem.make_result now2 excel_articles system_articles
       = Ok res2 →
     with_timestamp now2 res1 = res2) ∧
  (∀ now1 now2 import_articles stats,
     let d1 := PrepareImportData.make_import_data now1 import_articles stats in
     let d2 := PrepareImportData.make_import_data now2 import_articles stats in
     PrepareImportData.source d1 = PrepareImportData.source d2 ∧
     PrepareImportData.statistics d1 = PrepareImportData.statistics d2 ∧
     PrepareImportData.totalArticles d1 = PrepareImportData.totalArticles d2 ∧
     PrepareImportData.articles d1 = PrepareImportData.articles d2).
Proof.
  split; [|split].
  - intros iter1 iter2 fuel df first srv H1 H2.
    unfold CheckMissingCorrect.main, CheckMissingCorrect.make_result,
      CheckMissingCorrect.missing_numbers_only.
    destruct (_ ≫= _) as [[excel_articles lines]|e]; [|done].
    destruct (CheckMissingCorrect.fetch fuel srv) as [[all|e]|]; [|done..].
    f_equal. destruct (CheckMissingCorrect.system_article_numbers all)
      as [numbers|e]; [|done]. simpl.
    destruct (CheckMissingCorrect.first_column df) as [col|e]; [|done]. simpl.
    by rewrite (sorted_set_order iter1 iter2 _ H1 H2).
  - intros now1 now2 excel system res1 res2 Hres1 Hres2.
    unfold CompareExcelSystem.make_result in *.
    apply bind_Ok in Hres1 as ([m1 f1] & Hcmp1 & Hres1).
    apply bind_Ok in Hres2 as ([m2 f2] & Hcmp2 & Hres2).
    rewrite Hcmp1 in Hcmp2. injection Hcmp2 as <- <-.
    apply bind_Ok in Hres1 as (cov1 & Hcov1 & Hres1).
    apply bind_Ok in Hres2 as (cov2 & Hcov2 & Hres2).
    rewrite Hcov1 in Hcov2. injection Hcov2 as <-.
    injection Hres1 as <-. injection Hres2 as <-. reflexivity.
  - intros now1 now2 import_articles stats. by repeat split.
Qed.

Lemma rerun_same_output_witness :
  CheckMissingCorrect.main elements 3 Examples.sheet
      (Ok Examples.failed_page) Examples.srv_unsuccessful
    = CheckMissingCorrect.main Examples.backwards 3 Examples.sheet
        (Ok Examples.failed_page) Examples.srv_unsuccessful.
Proof.
  apply (proj1 rerun_same_output).
  - intros X. reflexivity.
  - intros X. apply reverse_Permutation.
Defined.

(** C8 as stated fails: two runs of compare-excel-system.py and of
    prepare-import-data.py on the same inputs, five minutes apart, write
    different results; and mark-non-excel-articles.py lists the missing
    article numbers in the order in which it walks a set, which is not
    the same in every run. *)
Lemma rerun_counterexample :
  (∃ res1 res2,
     CompareExcelSystem.make_result Examples.first_run
       Examples.sheet_articles Examples.system_articles = Ok res1 ∧
     CompareExcelSystem.make_result Examples.second_run
       Examples.sheet_articles Examples.system_articles = Ok res2 ∧
     res1 ≠ res2) ∧
  PrepareImportData.make_import_data Examples.first_run
      (fst Examples.sheet_import) (snd Examples.sheet_import)
    ≠ PrepareImportData.make_import_data Examples.second_run
        (fst Examples.sheet_import) (snd Examples.sheet_import) ∧
  (∃ out1 out2,
     MarkNonExcelArticles.compare elements {[ "B7"; "C8" ]} Examples.catalog
       = Ok out1 ∧
     MarkNonExcelArticles.compare Examples.backwards {[ "B7"; "C8" ]}
       Examples.catalog = Ok out2 ∧
     out1 ≠ out2).
Proof.
  split; [|split].
  - eexists _, _. split; [vm_compute; reflexivity|].
    split; [vm_compute; reflexivity|]. intros H. discriminate H.
  - intros H. vm_compute in H. discriminate H.
  - eexists _, _. split; [vm_compute; reflexivity|].
    split; [vm_compute; reflexivity|]. intros H. discriminate H.
Qed.

End Idempotence.

(** ** Fetching the whole catalog (check-missing-correct.py,
    prepare-import-data.py) *)

Section MoreFetching.
Import Spec.

Lemma full_pages_cons srv k items pages :
  full_pages srv k (items :: pages) →
  (∃ data, srv (S k) = Ok data ∧ full_page items data) ∧
  full_pages srv (S k) pages.
Proof.
  intros H. split.
  - destruct (H 0 items eq_refl) as (d & Hd & Hf). rewrite Nat.add_0_r in Hd. eauto.
  - intros i its Hi. destruct (H (S i) its Hi) as (d & Hd & Hf).
    exists d. split; [|done]. by rewrite <- Nat.add_succ_r.
Qed.

Lemma check_fetch_loop_prefix (srv : server) (pages : list (list jval)) :
  ∀ k acc fuel,
    full_pages srv k pages →
    CheckMissingCorrect.fetch_loop (length pages + fuel) srv (S k) acc
      = CheckMissingCorrect.fetch_loop fuel srv (S (k + length pages))
          (acc ++ concat pages).
Proof.
  induction pages as [|items pages IH]; intros k acc fuel Hp.
  - simpl. by rewrite Nat.add_0_r, app_nil_r.
  - apply full_pages_cons in Hp as [(data & Hsrv & Hfull) Hp].
    cbn [length Nat.add CheckMissingCorrect.fetch_loop]. rewrite Hsrv. simpl.
    rewrite (check_fetch_full_page items) by done.
    rewrite (IH (S k) (acc ++ items) fuel Hp).
    by rewrite <- app_assoc, <- Nat.add_succ_r.
Qed.

Lemma prepare_fetch_loop_prefix (srv : server) (pages : list (list jval)) :
  ∀ k acc fuel,
    full_pages srv k pages → Forall (λ items, items ≠ []) pages →
    PrepareImportData.fetch_loop (length pages + fuel) srv (S k) acc
      = PrepareImportData.fetch_loop fuel srv (S (k + length pages))
          (acc ++ concat pages).
Proof.
  induction pages as [|items pages IH]; intros k acc fuel Hp Hne.
  - simpl. by rewrite Nat.add_0_r, app_nil_r.
  - apply full_pages_cons in Hp as [(data & Hsrv & Hfull) Hp].
    apply Forall_cons in Hne as [Hi Hne].
    cbn [length Nat.add PrepareImportData.fetch_loop]. rewrite Hsrv. simpl.
    rewrite (prepare_fetch_full_page items) by done.
    rewrite (IH (S k) (acc ++ items) fuel Hp Hne).
    by rewrite <- app_assoc, <- Nat.add_succ_r.
Qed.

Lemma check_fetch_last_page items data acc :
  last_page items data →
  CheckMissingCorrect.fetch_page data acc = Ok (false, acc ++ items).
Proof.
  intros (fields & success & -> & Hs & Hts & Hd & Hp).
  unfold CheckMissingCorrect.fetch_page. simpl.
  rewrite Hs. simpl. rewrite Hts, Hd. simpl.
  destruct Hp as [->|(pag & -> & Hh)]; simpl; [done|]. by rewrite Hh.
Qed.

Lemma prepare_fetch_last_page items data acc :
  last_page items data → items ≠ [] →
  PrepareImportData.fetch_page data acc = Ok (false, acc ++ items).
Proof.
  intros (fields & success & -> & Hs & Hts & Hd & Hp) Hne.
  unfold PrepareImportData.fetch_page. simpl.
  rewrite Hs. simpl. rewrite Hts, Hd. simpl.
  destruct items as [|item items]; [done|]. simpl.
  destruct Hp as [->|(pag & -> & Hh)]; simpl; [done|]. by rewrite Hh.
Qed.

(** X1.  When the catalog answers with full pages and then with a last
    page, the loop of check-missing-correct.py returns the records of all
    pages, in page order, the last page included; so does the loop of
    prepare-import-data.py when no page is empty. *)
Theorem fetch_returns_all_pages
    (srv : server) (pages : list (list jval)) (items : list jval)
    (last : jval) (fuel : nat) :
  full_pages srv 0 pages →
  srv (S (length pages)) = Ok last →
  last_page items last →
  length pages < fuel →
  CheckMissingCorrect.fetch fuel srv = Some (Ok (concat pages ++ items)) ∧
  (Forall (λ items, items ≠ []) pages → items ≠ [] →
   PrepareImportData.fetch fuel srv = Some (Ok (concat pages ++ items))).
Proof.
  intros Hp Hlast Hl Hfuel.
  replace fuel with (length pages + S (fuel - S (length pages))) by lia.
  unfold CheckMissingCorrect.fetch, PrepareImportData.fetch. split.
  - rewrite check_fetch_loop_prefix by done. simpl. rewrite Hlast. simpl.
    by rewrite (check_fetch_last_page items).
  - intros Hne Hi. rewrite prepare_fetch_loop_prefix by done. simpl.
    rewrite Hlast. simpl. by rewrite (prepare_fetch_last_page items).
Qed.

Lemma fetch_returns_all_pages_witness :
  CheckMissingCorrect.fetch 5 Examples.srv_two_pages
    = Some (Ok (Examples.catalog ++ [Examples.third_record])) ∧
  PrepareImportData.fetch 5 Examples.srv_two_pages
    = Some (Ok (Examples.catalog ++ [Examples.third_record])).
Proof.
  assert (Hpages : full_pages Examples.srv_two_pages 0 [Examples.catalog]).
  { intros [|i] items Hi; [|done]. injection Hi as <-.
    eexists. split; [reflexivity|]. by eexists _, _, _, _. }
  assert (Hlast : last_page [Examples.third_record]
                    (Examples.last_page_with [Examples.third_record])).
  { eexists _, _. split; [reflexivity|]. split; [reflexivity|].
    split; [reflexivity|]. split; [reflexivity|].
    right. eexists. split; reflexivity. }
  destruct (fetch_returns_all_pages Examples.srv_two_pages [Examples.catalog]
              [Examples.third_record] _ 5 Hpages eq_refl Hlast)
    as [H1 H2]; [simpl; lia|].
  split; [exact H1|]. apply H2; [by repeat constructor|done].
Defined.

(** X2.  Against a catalog whose every page announces a further page,
    the loop of check-missing-correct.py is still turning after any
    number of pages; so is the loop of prepare-import-data.py when no page
    is empty.  Neither loop bounds the number of pages. *)
Theorem fetch_never_stops (srv : server) :
  (∀ page, ∃ items data, srv page = Ok data ∧ full_page items data) →
  ∀ fuel,
    CheckMissingCorrect.fetch fuel srv = None ∧
    ((∀ page items data,
        srv page = Ok data → full_page items data → items ≠ []) →
     PrepareImportData.fetch fuel srv = None).
Proof.
  intros Hsrv fuel.
  unfold CheckMissingCorrect.fetch, PrepareImportData.fetch. split.
  - generalize 1 (@nil jval).
    induction fuel as [|fuel IH]; intros page acc; [done|].
    simpl. destruct (Hsrv page) as (items & data & -> & Hfull). simpl.
    rewrite (check_fetch_full_page items) by done. apply IH.
  - intros Hne. generalize 1 (@nil jval).
    induction fuel as [|fuel IH]; intros page acc; [done|].
    simpl. destruct (Hsrv page) as (items & data & Hpage & Hfull).
    rewrite Hpage. simpl.
    rewrite (prepare_fetch_full_page items) by eauto. apply IH.
Qed.

Lemma fetch_never_stops_witness :
  CheckMissingCorrect.fetch 50 Examples.srv_endless = None ∧
  PrepareImportData.fetch 50 Examples.srv_endless = None.
Proof.
  assert (Hsrv : ∀ page, ∃ items data,
            Examples.srv_endless page = Ok data ∧ full_page items data).
  { intros page. exists Examples.catalog, (Examples.page_with Examples.catalog).
    split; [reflexivity|]. by eexists _, _, _, _. }
  destruct (fetch_never_stops Examples.srv_endless Hsrv 50) as [H1 H2].
  split; [exact H1|]. apply H2.
  intros page items data [= <-] (? & ? & ? & ? & [= <-] & _ & _ & Hd & _).
  simpl in Hd. by injection Hd as <-.
Defined.

(** X3.  When a request raises after some full pages (no connection, a
    body that is not JSON), both loops raise that exception: the records
    of the pages before are not returned. *)
Theorem fetch_raises_later
    (srv : server) (pages : list (list jval)) (e : exn) (fuel : nat) :
  full_pages srv 0 pages →
  srv (S (length pages)) = Raise e →
  length pages < fuel →
  CheckMissingCorrect.fetch fuel srv = Some (Raise e) ∧
  (Forall (λ items, items ≠ []) pages →
   PrepareImportData.fetch fuel srv = Some (Raise e)).
Proof.
  intros Hp Hlast Hfuel.
  replace fuel with (length pages + S (fuel - S (length pages))) by lia.
  unfold CheckMissingCorrect.fetch, PrepareImportData.fetch. split.
  - rewrite check_fetch_loop_prefix by done. simpl. by rewrite Hlast.
  - intros Hne. rewrite prepare_fetch_loop_prefix by done. simpl.
    by rewrite Hlast.
Qed.

Lemma fetch_raises_later_witness :
  CheckMissingCorrect.fetch 5 Examples.srv_not_json
    = Some (Raise JSONDecodeError) ∧
  PrepareImportData.fetch 5 Examples.srv_not_json
    = Some (Raise JSONDecodeError).
Proof.
  assert (Hpages : full_pages Examples.srv_not_json 0 [Examples.catalog]).
  { intros [|i] items Hi; [|done]. injection Hi as <-.
    eexists. split; [reflexivity|]. by eexists _, _, _, _. }
  destruct (fetch_raises_later Examples.srv_not_json [Examples.catalog]
              JSONDecodeError 5 Hpages eq_refl) as [H1 H2]; [simpl; lia|].
  split; [exact H1|]. apply H2. by repeat constructor.
Defined.

(** X4.  A successful page without records, announcing a further page:
    the loop of prepare-import-data.py stops there and returns the records
    of the pages before; the loop of check-missing-correct.py goes on to
    the next page. *)
Theorem fetch_empty_page
    (srv : server) (pages : list (list jval)) (data : jval) (fuel : nat) :
  full_pages srv 0 pages →
  Forall (λ items, items ≠ []) pages →
  srv (S (length pages)) = Ok data →
  full_page [] data →
  PrepareImportData.fetch (length pages + S fuel) srv
    = Some (Ok (concat pages)) ∧
  CheckMissingCorrect.fetch (length pages + S fuel) srv
    = CheckMissingCorrect.fetch_loop fuel srv (S (S (length pages)))
        (concat pages).
Proof.
  intros Hp Hne Hsrv Hfull.
  unfold CheckMissingCorrect.fetch, PrepareImportData.fetch. split.
  - rewrite prepare_fetch_loop_prefix by done. simpl. rewrite Hsrv. simpl.
    destruct Hfull as (fields & success & pagination & hasNext & -> & Hs & Hts & Hd & _).
    unfold PrepareImportData.fetch_page. simpl. rewrite Hs. simpl.
    by rewrite Hts, Hd.
  - rewrite check_fetch_loop_prefix by done. simpl. rewrite Hsrv. simpl.
    rewrite (check_fetch_full_page []) by done. by rewrite app_nil_r.
Qed.

Lemma fetch_empty_page_witness :
  PrepareImportData.fetch 5 Examples.srv_empty_second
    = Some (Ok Examples.catalog) ∧
  CheckMissingCorrect.fetch 5 Examples.srv_empty_second
    = Some (Ok (Examples.catalog ++ [Examples.third_record])).
Proof.
  assert (Hpages : full_pages Examples.srv_empty_second 0 [Examples.catalog]).
  { intros [|i] items Hi; [|done]. injection Hi as <-.
    eexists. split; [reflexivity|]. by eexists _, _, _, _. }
  destruct (fetch_empty_page Examples.srv_empty_second [Examples.catalog]
              (Examples.page_with []) 3 Hpages) as [H1 H2].
  - by repeat constructor.
  - reflexivity.
  - by eexists _, _, _, _.
  - split; [exact H1|]. etrans; [exact H2|]. reflexivity.
Defined.

End MoreFetching.

(** ** The marking plan (mark-non-excel-articles.py) *)

Section Marking.
Import Spec.
Import MarkNonExcelArticles.

Lemma mapM_Ok {A B} (f : A → result B) (l : list A) (k : list B) :
  mapM f l = Ok k ↔ Forall2 (λ x y, f x = Ok y) l k.
Proof.
  revert k. induction l as [|x l IH]; intros k; simpl.
  - split; [intros [= <-]; constructor|by inversion 1].
  - split.
    + intros H. apply bind_Ok in H as (y & Hy & H).
      apply bind_Ok in H as (k' & Hk' & H). injection H as <-.
      constructor; [done|]. by apply IH.
    + inversion 1 as [|? y ? k' Hy Hk']; subst. rewrite Hy. simpl.
      apply IH in Hk'. by rewrite Hk'.
Qed.

Lemma split_system_filter S all :
  ∀ in_both only_in_system in_both' only_in_system',
    split_system S all in_both only_in_system
      = Ok (in_both', only_in_system') →
    in_both' = in_both ++ filter (λ a, in_sheet S a = true) all ∧
    only_in_system'
      = only_in_system ++ filter (λ a, in_sheet S a = false) all.
Proof.
  induction all as [|a all IH]; intros b o b' o' H; simpl in H.
  - injection H as <- <-. by rewrite !app_nil_r.
  - apply bind_Ok in H as (num & Hnum & H). apply bind_Ok in H as (s & Hs & H).
    assert (art_num a = Ok (strip s)) as Hart.
    { unfold art_num. rewrite Hnum. simpl. by rewrite Hs. }
    assert (in_sheet S a = bool_decide (strip s ∈ S)) as Hsheet.
    { unfold in_sheet. by rewrite Hart. }
    rewrite !filter_cons.
    destruct (bool_decide (strip s ∈ S)) eqn:Hin.
    + apply IH in H as [-> ->].
      rewrite decide_True by done. rewrite decide_False by congruence.
      by rewrite <- app_assoc.
    + apply IH in H as [-> ->].
      rewrite decide_False by congruence. rewrite decide_True by done.
      by rewrite <- app_assoc.
Qed.

Lemma in_sheet_partition S (all : list jval) :
  filter (λ a, in_sheet S a = true) all
    ++ filter (λ a, in_sheet S a = false) all ≡ₚ all.
Proof.
  rewrite <- (filter_app_complement (λ a, in_sheet S a = true) all) at 3.
  f_equiv. erewrite list_filter_iff; [done|]. intros a.
  simpl. destruct (in_sheet S a); split; (done || congruence).
Qed.

(** X5.  The loop of mark-non-excel-articles.py over the catalog
    records puts each record in exactly one of its two lists: [in_both]
    are the records whose trimmed article number is in the spreadsheet,
    [only_in_system] the others, each in catalog order; together they are
    the catalog, and their lengths add up to its length. *)
Theorem split_system_partition (S : gset string)
    (all_system_articles in_both only_in_system : list jval) :
  split_system S all_system_articles [] [] = Ok (in_both, only_in_system) →
  in_both = filter (λ a, in_sheet S a = true) all_system_articles ∧
  only_in_system = filter (λ a, in_sheet S a = false) all_system_articles ∧
  in_both ++ only_in_system ≡ₚ all_system_articles ∧
  length in_both + length only_in_system = length all_system_articles.
Proof.
  intros H. apply split_system_filter in H as [-> ->]. simpl.
  repeat split; [apply in_sheet_partition|].
  by rewrite <- length_app, in_sheet_partition.
Qed.

Lemma split_system_partition_witness :
  ∃ in_both only_in_system,
    MarkNonExcelArticles.split_system Examples.sheet_ids Examples.catalog
      [] [] = Ok (in_both, only_in_system) ∧
    in_both ++ only_in_system ≡ₚ Examples.catalog ∧
    length in_both + length only_in_system = 2.
Proof.
  destruct (MarkNonExcelArticles.split_system Examples.sheet_ids
              Examples.catalog [] []) as [[in_both only_in_system]|e] eqn:H;
    [|vm_compute in H; discriminate H].
  exists in_both, only_in_system. split; [reflexivity|].
  destruct (split_system_partition _ _ _ _ H) as (_ & _ & H1 & H2).
  split; [exact H1|exact H2].
Defined.

Lemma has_id_and_number_text_fields a :
  has_id_and_number_text a →
  ∃ fields id s, a = JObj fields ∧ assoc "id" fields = Some id ∧
    assoc "articleNumber" fields = Some (JStr s) ∧
    art_num a = Ok (strip s) ∧
    getitem a "id" = Ok id ∧ getitem a "articleNumber" = Ok (JStr s) ∧
    get a "articleNumber" JNull = Ok (JStr s).
Proof.
  intros (fields & id & s & -> & Hid & Hnum). exists fields, id, s.
  unfold art_num. simpl. rewrite Hid, Hnum. by repeat split.
Qed.

Lemma split_system_completes S all :
  Forall has_id_and_number_text all →
  ∀ in_both only_in_system,
    ∃ out, split_system S all in_both only_in_system = Ok out.
Proof.
  induction 1 as [|a all Ha _ IH]; intros b o; simpl; [by eexists|].
  destruct Ha as (fields & id & s & -> & Hid & Hnum). simpl.
  rewrite Hnum. simpl. destruct (bool_decide _); apply IH.
Qed.

Lemma system_numbers_completes all :
  Forall has_id_and_number_text all →
  ∃ numbers, system_numbers all = Ok numbers.
Proof.
  induction 1 as [|a all Ha _ [numbers IH]]; simpl; [by eexists|].
  destruct Ha as (fields & id & s & -> & Hid & Hnum). simpl.
  rewrite Hnum. simpl. rewrite IH. simpl. by eexists.
Qed.

Lemma plan_entries_complete flag l :
  Forall has_id_and_number_text l →
  ∃ entries, mapM (plan_entry_of flag) l = Ok entries.
Proof.
  induction 1 as [|a l Ha _ [entries IH]]; simpl; [by eexists|].
  assert (∃ e, plan_entry_of flag a = Ok e) as [e He].
  { destruct Ha as (fields & id & s & -> & Hid & Hnum).
    unfold plan_entry_of. simpl. rewrite Hid. simpl. rewrite Hnum. simpl.
    by eexists. }
  rewrite He. simpl. rewrite IH. simpl. by eexists.
Qed.

Lemma number_texts_complete l :
  Forall has_id_and_number_text l → ∃ texts, number_texts l = Ok texts.
Proof.
  induction 1 as [|a l Ha _ [texts IH]]; simpl; [by eexists|].
  destruct (has_id_and_number_text_fields _ Ha)
    as (fields & id & s & -> & _ & _ & _ & Hid & Hnum & _).
  rewrite Hnum. simpl. rewrite IH. simpl. by eexists.
Qed.

Lemma update_statement_completes category l :
  Forall has_id_and_number_text l →
  ∃ st, update_statement category l = Ok st.
Proof.
  intros Hl. destruct l as [|a l]; [by eexists|].
  unfold update_statement.
  destruct (number_texts_complete _ Hl) as [texts ->]. simpl. by eexists.
Qed.

Lemma plan_entries_id flag l entries :
  mapM (plan_entry_of flag) l = Ok entries →
  Forall (λ a, ∃ fields id num, a = JObj fields ∧
            assoc "id" fields = Some id ∧
            assoc "articleNumber" fields = Some num) l.
Proof.
  rewrite mapM_Ok. induction 1 as [|a e l entries Ha _ IH]; constructor; [|done].
  unfold plan_entry_of in Ha.
  apply bind_Ok in Ha as (id & Hid & Ha).
  apply bind_Ok in Ha as (num & Hnum & _).
  destruct a; try done. simpl in Hid, Hnum.
  destruct (assoc "id" _) eqn:E1; [|done].
  destruct (assoc "articleNumber" _) eqn:E2; [|done].
  by eexists _, _, _.
Qed.

Lemma number_texts_text l texts :
  number_texts l = Ok texts →
  Forall (λ a, ∃ s, getitem a "articleNumber" = Ok (JStr s)) l.
Proof.
  revert texts. induction l as [|a l IH]; intros texts H; [constructor|].
  simpl in H. apply bind_Ok in H as (num & Hnum & H).
  apply bind_Ok in H as (texts' & Htexts & H).
  constructor; [|by eapply IH].
  destruct num; try done. by eexists.
Qed.

Lemma update_statement_text category l st :
  update_statement category l = Ok st →
  Forall (λ a, ∃ s, getitem a "articleNumber" = Ok (JStr s)) l.
Proof.
  destruct l as [|a l]; [constructor|]. unfold update_statement. intros H.
  apply bind_Ok in H as (texts & Htexts & _). by eapply number_texts_text.
Qed.

Lemma compare_Ok iter S all in_both only_in_system only_in_excel' :
  compare iter S all = Ok (in_both, only_in_system, only_in_excel') →
  split_system S all [] [] = Ok (in_both, only_in_system) ∧
  ∃ numbers, system_numbers all = Ok numbers ∧
    only_in_excel' = only_in_excel iter S numbers.
Proof.
  unfold compare. intros H. apply bind_Ok in H as ([b o] & Hsplit & H).
  apply bind_Ok in H as (numbers & Hnumbers & H). injection H as <- <- <-.
  eauto.
Qed.

Lemma outputs_records now iter S all out :
  outputs now iter S all = Ok out → Forall has_id_and_number_text all.
Proof.
  intros H. unfold outputs in H.
  apply bind_Ok in H as ([[b o] e] & Hcompare & H).
  apply bind_Ok in H as (to_mark & Hmark & H).
  apply bind_Ok in H as (not_to_mark & Hnot & H).
  apply bind_Ok in H as (commands & Hcommands & _).
  apply compare_Ok in Hcompare as [Hsplit _].
  apply split_system_filter in Hsplit as [-> ->]. simpl in *.
  unfold update_commands in Hcommands.
  apply bind_Ok in Hcommands as (st1 & Hst1 & Hcommands).
  apply bind_Ok in Hcommands as (st2 & Hst2 & _).
  apply plan_entries_id in Hmark, Hnot.
  apply update_statement_text in Hst1, Hst2.
  rewrite Forall_forall in Hmark, Hnot, Hst1, Hst2.
  apply Forall_forall. intros a Ha.
  assert (∀ l : list jval,
            (∀ x, x ∈ l → ∃ fields id num, x = JObj fields ∧
               assoc "id" fields = Some id ∧
               assoc "articleNumber" fields = Some num) →
            (∀ x, x ∈ l → ∃ s, getitem x "articleNumber" = Ok (JStr s)) →
            a ∈ l → has_id_and_number_text a) as Hl.
  { intros l H1 H2 Hin.
    destruct (H1 _ Hin) as (fields & id & num & -> & Hid & Hnum).
    destruct (H2 _ Hin) as [s Hs]. simpl in Hs. rewrite Hnum in Hs.
    injection Hs as ->. by exists fields, id, s. }
  destruct (in_sheet S a) eqn:Hsheet.
  - eapply (Hl _ Hnot Hst1). by apply list_elem_of_filter.
  - eapply (Hl _ Hmark Hst2). by apply list_elem_of_filter.
Qed.

Lemma outputs_completes now iter S all :
  Forall has_id_and_number_text all → ∃ out, outputs now iter S all = Ok out.
Proof.
  intros Hall. unfold outputs, compare.
  destruct (split_system_completes S _ Hall [] []) as [[b o] Hsplit].
  destruct (system_numbers_completes _ Hall) as [numbers Hnumbers].
  rewrite Hsplit, Hnumbers. simpl.
  apply split_system_filter in Hsplit as [-> ->]. simpl.
  assert (∀ P `{∀ x : jval, Decision (P x)},
            Forall has_id_and_number_text (filter P all)) as Hfilter.
  { intros P ?. apply Forall_forall. intros a [_ Ha]%list_elem_of_filter.
    by eapply Forall_forall in Hall. }
  destruct (plan_entries_complete true _
              (Hfilter (λ a, in_sheet S a = false) _)) as [to_mark Hmark].
  destruct (plan_entries_complete false _
              (Hfilter (λ a, in_sheet S a = true) _)) as [not_to_mark Hnot].
  unfold articles_to_mark, articles_not_to_mark. rewrite Hmark, Hnot. simpl.
  unfold update_commands.
  destruct (update_statement_completes "FROM_EXCEL" _
              (Hfilter (λ a, in_sheet S a = true) _)) as [st1 ->].
  destruct (update_statement_completes "SHOP_ONLY" _
              (Hfilter (λ a, in_sheet S a = false) _)) as [st2 ->].
  simpl. by eexists.
Qed.

(** X7.  mark-non-excel-articles.py writes its three files without
    raising exactly when every catalog record is an object with an [id]
    and a text under [articleNumber]. *)
Theorem outputs_complete_iff (now : string) (iter : gset string → list string)
    (S : gset string) (all_system_articles : list jval) :
  (∃ out, outputs now iter S all_system_articles = Ok out) ↔
  Forall has_id_and_number_text all_system_articles.
Proof.
  split; [intros [out H]; by eapply outputs_records|apply outputs_completes].
Qed.


Lemma catalog_numbers_set all ks :
  Forall has_id_and_number_text all →
  catalog_numbers all = Ok ks →
  system_numbers all = Ok (list_to_set ks) ∧
  ∀ S, length (filter (λ a, in_sheet S a = true) all)
       = length (filter (λ k, k ∈ S) ks).
Proof.
  unfold catalog_numbers. intros Hall. revert ks.
  induction Hall as [|a all Ha _ IH]; intros ks Hks.
  - injection Hks as <-. done.
  - apply mapM_Ok in Hks. inversion Hks as [|? k ? ks' Hk Hks']; subst.
    apply mapM_Ok in Hks'. destruct (IH _ Hks') as [Hnumbers Hlen].
    destruct (has_id_and_number_text_fields _ Ha)
      as (fields & id & s & -> & _ & _ & Hart & _ & _ & Hget).
    rewrite Hart in Hk. injection Hk as <-. split.
    + apply system_numbers_cons. by exists (JStr s), s, (list_to_set ks').
    + intros S. rewrite !filter_cons. specialize (Hlen S).
      assert (in_sheet S (JObj fields) = bool_decide (strip s ∈ S)) as Hsheet.
      { unfold in_sheet. by rewrite Hart. }
      destruct (decide (strip s ∈ S)) as [Hin|Hin].
      * rewrite decide_True; [simpl; by rewrite Hlen|].
        rewrite Hsheet. by apply bool_decide_eq_true.
      * rewrite decide_False; [done|].
        rewrite Hsheet. intros ?%bool_decide_eq_true. done.
Qed.

Lemma catalog_numbers_complete all :
  Forall has_id_and_number_text all → ∃ ks, catalog_numbers all = Ok ks.
Proof.
  unfold catalog_numbers.
  induction 1 as [|a all Ha _ [ks IH]]; simpl; [by eexists|].
  destruct (has_id_and_number_text_fields _ Ha)
    as (fields & id & s & -> & _ & _ & Hart & _). rewrite Hart. simpl.
  rewrite IH. simpl. by eexists.
Qed.

Lemma length_mapM_Ok {A B} (f : A → result B) l k :
  mapM f l = Ok k → length k = length l.
Proof. rewrite mapM_Ok. intros H. symmetry. by eapply Forall2_length. Qed.

Lemma outputs_Ok now iter S all plan mark commands :
  outputs now iter S all = Ok (plan, mark, commands) →
  let in_both := filter (λ a, in_sheet S a = true) all in
  let only_in_system := filter (λ a, in_sheet S a = false) all in
  ∃ numbers,
    system_numbers all = Ok numbers ∧
    mapM (plan_entry_of true) only_in_system = Ok (articlesToMark plan) ∧
    mapM (plan_entry_of false) in_both = Ok (articlesNotToMark plan) ∧
    missingInSystem plan = only_in_excel iter S numbers ∧
    plan_summary plan
      = Summary (size S) (length all) (length in_both)
          (length only_in_system) (length (missingInSystem plan)) ∧
    mark = MarkThese (entry_id <$> articlesToMark plan)
             (entry_articleNumber <$> articlesToMark plan) ∧
    timestamp plan = now.
Proof.
  intros H. unfold outputs in H.
  apply bind_Ok in H as ([[b o] e] & Hcompare & H).
  apply bind_Ok in H as (to_mark & Hmark & H).
  apply bind_Ok in H as (not_to_mark & Hnot & H).
  apply bind_Ok in H as (cmds & Hcommands & H).
  apply compare_Ok in Hcompare as (Hsplit & numbers & Hnumbers & ->).
  apply split_system_filter in Hsplit as [-> ->].
  injection H as <- <- <-. simpl. exists numbers. by repeat split.
Qed.

(** X6.  When mark-non-excel-articles.py completes, the ids and article
    numbers of mark-these-articles.json are those of the catalog records
    whose trimmed article number is not in the spreadsheet, in catalog
    order; every entry of [articlesToMark] is flagged and no entry of
    [articlesNotToMark] is. *)
Theorem mark_these_not_in_sheet (now : string)
    (iter : gset string → list string) (S : gset string)
    (all_system_articles : list jval)
    (plan : marking_plan) (mark : mark_these) (commands : list string) :
  outputs now iter S all_system_articles = Ok (plan, mark, commands) →
  let only_in_system :=
    filter (λ a, in_sheet S a = false) all_system_articles in
  Forall2 (λ a id, getitem a "id" = Ok id)
    only_in_system (toMarkAsNotInExcel mark) ∧
  Forall2 (λ a num, getitem a "articleNumber" = Ok num)
    only_in_system (articleNumbers mark) ∧
  Forall (λ e, markAsNotInExcel e = true) (articlesToMark plan) ∧
  Forall (λ e, markAsNotInExcel e = false) (articlesNotToMark plan).
Proof.
  intros H only_in_system.
  apply outputs_Ok in H
    as (numbers & _ & Hmark & Hnot & _ & _ & -> & _). simpl.
  apply mapM_Ok in Hmark, Hnot. fold only_in_system in Hmark.
  repeat split.
  - apply Forall2_fmap_r. eapply Forall2_impl; [exact Hmark|].
    intros a e He. unfold plan_entry_of in He.
    apply bind_Ok in He as (id & Hid & He).
    apply bind_Ok in He as (num & Hnum & He).
    apply bind_Ok in He as (name & Hname & He). by injection He as <-.
  - apply Forall2_fmap_r. eapply Forall2_impl; [exact Hmark|].
    intros a e He. unfold plan_entry_of in He.
    apply bind_Ok in He as (id & Hid & He).
    apply bind_Ok in He as (num & Hnum & He).
    apply bind_Ok in He as (name & Hname & He). by injection He as <-.
  - eapply Forall2_Forall_r; [exact Hmark|]. apply Forall_true.
    intros a e He. unfold plan_entry_of in He.
    apply bind_Ok in He as (id & Hid & He).
    apply bind_Ok in He as (num & Hnum & He).
    apply bind_Ok in He as (name & Hname & He). by injection He as <-.
  - eapply Forall2_Forall_r; [exact Hnot|]. apply Forall_true.
    intros a e He. unfold plan_entry_of in He.
    apply bind_Ok in He as (id & Hid & He).
    apply bind_Ok in He as (num & Hnum & He).
    apply bind_Ok in He as (name & Hname & He). by injection He as <-.
Qed.

Lemma mark_these_not_in_sheet_witness :
  ∃ plan mark commands,
    MarkNonExcelArticles.outputs Examples.first_run elements
      Examples.sheet_ids Examples.catalog = Ok (plan, mark, commands) ∧
    Forall (λ e, MarkNonExcelArticles.markAsNotInExcel e = true)
      (MarkNonExcelArticles.articlesToMark plan) ∧
    Forall (λ e, MarkNonExcelArticles.markAsNotInExcel e = false)
      (MarkNonExcelArticles.articlesNotToMark plan).
Proof.
  destruct (MarkNonExcelArticles.outputs Examples.first_run elements
              Examples.sheet_ids Examples.catalog)
    as [[[plan mark] commands]|e] eqn:H; [|vm_compute in H; discriminate H].
  exists plan, mark, commands. split; [reflexivity|].
  destruct (mark_these_not_in_sheet _ _ _ _ _ _ _ H) as (_ & _ & H1 & H2).
  split; [exact H1|exact H2].
Defined.

(** X8.  In the summary of the marking plan, [inBoth] and
    [onlyInSystem_TO_MARK] add up to [totalInSystem], the lists of the
    plan have the lengths the summary gives, and [onlyInExcel_MISSING] is
    the number of spreadsheet article numbers not in the catalog.  When no
    two catalog records have the same trimmed article number, [inBoth] and
    [onlyInExcel_MISSING] add up to [totalInExcel]. *)
Theorem marking_plan_counts (now : string)
    (iter : gset string → list string) (S C : gset string)
    (all_system_articles : list jval)
    (plan : marking_plan) (mark : mark_these) (commands : list string) :
  set_order iter →
  outputs now iter S all_system_articles = Ok (plan, mark, commands) →
  system_numbers all_system_articles = Ok C →
  let s := plan_summary plan in
  inBoth s + onlyInSystem_TO_MARK s = totalInSystem s ∧
  length (articlesNotToMark plan) = inBoth s ∧
  length (articlesToMark plan) = onlyInSystem_TO_MARK s ∧
  length (toMarkAsNotInExcel mark) = onlyInSystem_TO_MARK s ∧
  onlyInExcel_MISSING s = size (S ∖ C) ∧
  (∀ ks, catalog_numbers all_system_articles = Ok ks → NoDup ks →
     inBoth s + onlyInExcel_MISSING s = totalInExcel s).
Proof.
  intros Hiter H HC s. subst s.
  assert (Hall : Forall has_id_and_number_text all_system_articles)
    by by eapply outputs_records.
  apply outputs_Ok in H
    as (numbers & Hnumbers & Hmark & Hnot & Hmissing & -> & -> & _).
  rewrite HC in Hnumbers. injection Hnumbers as <-. simpl.
  apply length_mapM_Ok in Hmark, Hnot.
  assert (length (missingInSystem plan) = size (S ∖ C)) as Hsize.
  { rewrite Hmissing, <- (only_in_excel_set iter S C Hiter).
    symmetry. apply size_list_to_set. unfold only_in_excel.
    apply NoDup_filter. rewrite (Hiter S). apply NoDup_elements. }
  repeat split; [| done | done | by rewrite length_fmap | done |].
  - by rewrite <- length_app, in_sheet_partition.
  - intros ks Hks Hnodup.
    destruct (catalog_numbers_set _ _ Hall Hks) as [HC' Hlen].
    rewrite HC in HC'. injection HC' as ->. rewrite Hlen, Hsize.
    rewrite <- (size_list_to_set (C:=gset string))
      by by apply NoDup_filter.
    rewrite <- size_union.
    2:{ intros x Hx1 Hx2.
        apply elem_of_list_to_set, list_elem_of_filter in Hx1 as [_ Hx1].
        apply elem_of_difference in Hx2 as [_ Hx2].
        apply Hx2. by apply elem_of_list_to_set. }
    f_equal. apply set_eq. intros x.
    rewrite elem_of_union, elem_of_list_to_set, list_elem_of_filter,
      elem_of_difference, elem_of_list_to_set.
    split; [by intros [[? ?]|[? ?]]|].
    intros Hx. destruct (decide (x ∈ ks)); [by left|by right].
Qed.

Lemma marking_plan_counts_witness :
  ∃ plan mark commands,
    MarkNonExcelArticles.outputs Examples.first_run elements
      Examples.sheet_ids Examples.catalog = Ok (plan, mark, commands) ∧
    let s := MarkNonExcelArticles.plan_summary plan in
    MarkNonExcelArticles.inBoth s + MarkNonExcelArticles.onlyInSystem_TO_MARK s
      = MarkNonExcelArticles.totalInSystem s ∧
    MarkNonExcelArticles.onlyInExcel_MISSING s
      = size (Examples.sheet_ids ∖ Examples.catalog_ids).
Proof.
  destruct (MarkNonExcelArticles.outputs Examples.first_run elements
              Examples.sheet_ids Examples.catalog)
    as [[[plan mark] commands]|e] eqn:H; [|vm_compute in H; discriminate H].
  exists plan, mark, commands. split; [reflexivity|].
  assert (Hiter : set_order elements) by (intros X; reflexivity).
  destruct (marking_plan_counts _ _ _ Examples.catalog_ids _ _ _ _ Hiter H
              eq_refl) as (H1 & _ & _ & _ & H2 & _).
  split; [exact H1|exact H2].
Defined.

End Marking.

(** ** The comparison of compare-excel-system.py *)

Section Spreadsheet.
Import Spec.
Import CompareExcelSystem.



Lemma extract_row_key col index (r : row) d c :
  r !! col = Some c →
  extract_row col index r d
    = Ok (match row_key col r with
          | Some k =>
              dict_set k (ArticleData k r (index + 2) (product_name r)
                            (row_price r)) d
          | None => d
          end).
Proof.
  unfold extract_row, row_getitem, row_key, unusable, notna. intros ->. simpl.
  destruct (isna c); [done|]. simpl.
  destruct (nonempty _); [|done]. simpl.
  by destruct (String.eqb _ _).
Qed.


Lemma extract_Ok df d lines :
  extract df = Ok (d, lines) →
  ∃ col note, article_column df = Ok (col, note) ∧
               extract_rows col 0 (rows df) [] = Ok d.
Proof.
  unfold extract. intros H. apply bind_Ok in H as ([col note] & Hcol & H).
  apply bind_Ok in H as (d' & Hrows & H). injection H as <- _. eauto.
Qed.



Lemma assoc_dict_set {V} (k k' : string) (v : V) (d : list (string * V)) :
  assoc k (dict_set k' v d) = if decide (k' = k) then Some v else assoc k d.
Proof.
  induction d as [|[k1 v1] d IH]; simpl.
  - done.
  - destruct (decide (k1 = k')) as [->|Hne]; simpl.
    + by destruct (decide (k' = k)).
    + destruct (decide (k1 = k)) as [->|Hne'].
      * by rewrite decide_False by done.
      * done.
Qed.

Lemma extract_rows_app col l1 l2 :
  ∀ index d,
    extract_rows col index (l1 ++ l2) d
    = d1 ← extract_rows col index l1 d;
      extract_rows col (index + length l1) l2 d1.
Proof.
  induction l1 as [|r l1 IH]; intros index d; simpl.
  - by rewrite Nat.add_0_r.
  - destruct (extract_row col index r d) as [d1|e]; simpl; [|done].
    rewrite IH. by rewrite Nat.add_succ_r.
Qed.

Lemma extract_rows_other col k rows :
  Forall (λ r, row_key col r ≠ Some k) rows →
  ∀ index d d',
    extract_rows col index rows d = Ok d' → assoc k d' = assoc k d.
Proof.
  induction 1 as [|r rows Hr _ IH]; intros index d d' H; simpl in H.
  - by injection H as <-.
  - apply bind_Ok in H as (d1 & Hrow & H). rewrite (IH _ _ _ H).
    pose proof Hrow as Hrow'. unfold extract_row in Hrow'.
    apply bind_Ok in Hrow' as (c & Hc & _). unfold row_getitem in Hc.
    destruct (r !! col) as [c'|] eqn:Hcol; [|done].
    rewrite (extract_row_key _ _ _ _ _ Hcol) in Hrow. injection Hrow as <-.
    destruct (row_key col r) as [k'|]; [|done].
    rewrite assoc_dict_set. rewrite decide_False; [done|]. congruence.
Qed.

(** X10.  When an article number comes in several rows of the
    spreadsheet, compare-excel-system.py keeps the data of the last such
    row, with the row index counted from 2; an article number is absent
    from the mapping exactly when no usable row carries it. *)
Theorem extract_last_row_wins (df : dataframe) (col : string)
    (note : list string) (d : list (string * article_data))
    (lines : list string) (k : string) :
  article_column df = Ok (col, note) →
  extract df = Ok (d, lines) →
  (assoc k d = None ↔ ∀ r, r ∈ rows df → row_key col r ≠ Some k) ∧
  (∀ j r,
     rows df !! j = Some r → row_key col r = Some k →
     (∀ j' r', j < j' → rows df !! j' = Some r' → row_key col r' ≠ Some k) →
     assoc k d
       = Some (ArticleData k r (j + 2) (product_name r) (row_price r))).
Proof.
  intros Hcol H. apply extract_Ok in H as (col' & note' & Hcol' & Hrows).
  rewrite Hcol in Hcol'. injection Hcol' as <- <-.
  assert (Hlast : ∀ j r,
    rows df !! j = Some r → row_key col r = Some k →
    (∀ j' r', j < j' → rows df !! j' = Some r' → row_key col r' ≠ Some k) →
    assoc k d
      = Some (ArticleData k r (j + 2) (product_name r) (row_price r))).
  { intros j r Hj Hk Hlater.
    rewrite <- (take_drop_middle _ _ _ Hj) in Hrows.
    rewrite extract_rows_app in Hrows.
    apply bind_Ok in Hrows as (d1 & _ & Hrows). simpl in Hrows.
    apply bind_Ok in Hrows as (d2 & Hrow & Hrows).
    assert (is_Some (r !! col)) as [c Hc].
    { unfold row_key in Hk. destruct (r !! col); [by eexists|done]. }
    rewrite (extract_row_key _ _ _ _ _ Hc), Hk in Hrow. injection Hrow as <-.
    assert (Forall (λ r, row_key col r ≠ Some k) (drop (S j) (rows df)))
      as Hdrop.
    { apply Forall_forall. intros r' Hr'.
      apply list_elem_of_lookup in Hr' as [i Hi].
      rewrite lookup_drop in Hi. by apply (Hlater (S j + i)); [lia|]. }
    rewrite (extract_rows_other col k _ Hdrop _ _ _ Hrows).
    rewrite assoc_dict_set, decide_True by done.
    rewrite length_take_le; [done|]. apply lookup_lt_Some in Hj. lia. }
  split; [|exact Hlast]. split.
  - intros Hnone r Hr Hk.
    assert (∃ j r, rows df !! j = Some r ∧ row_key col r = Some k ∧
              ∀ j' r', j < j' → rows df !! j' = Some r' →
                       row_key col r' ≠ Some k) as (j & r0 & Hj & Hk0 & Hlater).
    { clear Hrows Hlast Hnone. revert r Hr Hk.
      induction (rows df) as [|r1 rows IH]; intros r Hr Hk.
      - by apply elem_of_nil in Hr.
      - destruct (decide (Exists (λ r, row_key col r = Some k) rows))
          as [Hex|Hnex].
        + apply Exists_exists in Hex as (r2 & Hr2 & Hk2).
          destruct (IH _ Hr2 Hk2) as (j & r0 & Hj & Hk0 & Hlater).
          exists (S j), r0. repeat split; [done..|].
          intros [|j'] r' Hlt Hj'; [lia|]. apply (Hlater j'); [lia|done].
        + apply elem_of_cons in Hr as [->|Hr].
          * exists 0, r1. repeat split; [done..|].
            intros [|j'] r' Hlt Hj'; [lia|]. simpl in Hj'.
            intros Hk'. apply Hnex, Exists_exists. exists r'. split; [|done].
            by eapply list_elem_of_lookup_2.
          * destruct Hnex. apply Exists_exists. by exists r. }
    by rewrite (Hlast _ _ Hj Hk0 Hlater) in Hnone.
  - intros Hall.
    assert (Forall (λ r, row_key col r ≠ Some k) (rows df)) as Hrows'.
    { apply Forall_forall. intros r Hr. by apply Hall. }
    by rewrite (extract_rows_other col k _ Hrows' _ _ _ Hrows).
Qed.

Lemma extract_last_row_wins_witness :
  ∃ d lines,
    CompareExcelSystem.extract Examples.sheet_twice = Ok (d, lines) ∧
    CompareExcelSystem.rowIndex <$> assoc "A123" d = Some 3.
Proof.
  destruct (CompareExcelSystem.extract Examples.sheet_twice)
    as [[d lines]|e] eqn:H; [|vm_compute in H; discriminate H].
  exists d, lines. split; [reflexivity|].
  destruct (extract_last_row_wins Examples.sheet_twice "Artikelnummer" []
              d lines "A123" eq_refl H) as [_ Hlast].
  rewrite (Hlast 1 {[ "Artikelnummer" := CStr "A123" ]}); [reflexivity..|].
  intros [|[|j']] r' Hlt Hj'; [lia|lia|done].
Defined.

Lemma Forall_dict_set {V} (P : string * V → Prop) k v d :
  P (k, v) → Forall P d → Forall P (dict_set k v d).
Proof.
  intros Hkv. induction 1 as [|[k' v'] d Hx Hd IH]; simpl.
  - by repeat constructor.
  - destruct (decide (k' = k)); constructor; done.
Qed.

Lemma extract_rows_numbers col rows :
  ∀ index d d',
    Forall (λ kv, articleNumber kv.2 = kv.1) d →
    extract_rows col index rows d = Ok d' →
    Forall (λ kv, articleNumber kv.2 = kv.1) d'.
Proof.
  induction rows as [|r rows IH]; intros index d d' Hd H; simpl in H.
  - by injection H as <-.
  - apply bind_Ok in H as (d1 & Hrow & H). eapply IH; [|exact H].
    unfold extract_row in Hrow. apply bind_Ok in Hrow as (c & _ & Hrow).
    destruct (notna c); [|by injection Hrow as <-].
    destruct (_ && _); injection Hrow as <-; [|done].
    by apply Forall_dict_set.
Qed.

Lemma extract_numbers df d lines :
  extract df = Ok (d, lines) → articleNumber <$> d.*2 = keys d.
Proof.
  intros (col & note & _ & Hrows)%extract_Ok.
  eapply extract_rows_numbers in Hrows; [|constructor].
  unfold keys. induction Hrows as [|[k v] d Hkv _ IH]; [done|].
  rewrite !fmap_cons. simpl in Hkv. cbn [fst snd]. by rewrite Hkv, IH.
Qed.

Lemma compare_filter excel system :
  ∀ missing found missing' found',
    compare excel system missing found = Ok (missing', found') →
    missing'
      = missing ++ (filter (λ kv, kv.1 ∉ keys system) excel).*2 ∧
    found_articleNumber <$> found'
      = (found_articleNumber <$> found)
          ++ (filter (λ kv, kv.1 ∈ keys system) excel).*1.
Proof.
  induction excel as [|[k data] excel IH]; intros m f m' f' H; simpl in H.
  - injection H as <- <-. by rewrite !app_nil_r.
  - rewrite !filter_cons. simpl.
    destruct (assoc k system) as [article|] eqn:Hk.
    + apply bind_Ok in H as (name & _ & H). apply IH in H as [-> ->].
      assert (k ∈ keys system) as Hin.
      { destruct (decide (k ∈ keys system)) as [|Hn]; [done|].
        apply assoc_None in Hn. congruence. }
      rewrite decide_False by naive_solver. rewrite decide_True by done.
      split; [done|]. rewrite fmap_app. simpl. by rewrite <- app_assoc.
    + apply IH in H as [-> ->]. apply assoc_None in Hk.
      rewrite decide_True by done. rewrite decide_False by done.
      split; [|done]. simpl. by rewrite <- app_assoc.
Qed.

Lemma compare_completes excel system :
  Forall (λ kv, ∃ fields, kv.2 = JObj fields) system →
  ∀ missing found, ∃ out, compare excel system missing found = Ok out.
Proof.
  intros Hsys. induction excel as [|[k data] excel IH]; intros m f; simpl.
  - by eexists.
  - destruct (assoc k system) as [article|] eqn:Hk; [|apply IH].
    assert (∃ fields, article = JObj fields) as [fields ->].
    { clear IH. induction Hsys as [|[k' v'] system Hx _ IH']; [done|].
      simpl in Hk. destruct (decide (k' = k)); [|by apply IH'].
      injection Hk as <-. exact Hx. }
    simpl. apply IH.
Qed.

(** X11.  The comparison loop of compare-excel-system.py puts each
    spreadsheet article in exactly one list: [missing_articles] are the
    entries whose key is not in the catalog, [found_articles] those whose
    key is, each in spreadsheet order; their lengths add up to the number
    of spreadsheet articles. *)
Theorem compare_partition (excel : list (string * article_data))
    (system : list (string * jval))
    (missing : list article_data) (found : list found_article) :
  compare excel system [] [] = Ok (missing, found) →
  missing = (filter (λ kv, kv.1 ∉ keys system) excel).*2 ∧
  found_articleNumber <$> found
    = (filter (λ kv, kv.1 ∈ keys system) excel).*1 ∧
  length missing + length found = length excel.
Proof.
  intros H. pose proof (compare_filter _ _ _ _ _ _ H) as [Hm Hf].
  simpl in Hm, Hf. repeat split; [done..|].
  rewrite <- (length_fmap found_articleNumber found), Hm, Hf.
  rewrite !length_fmap, Nat.add_comm, <- length_app.
  by rewrite filter_app_complement.
Qed.

Lemma compare_partition_witness :
  ∃ missing found,
    CompareExcelSystem.compare Examples.sheet_articles
      Examples.system_articles [] [] = Ok (missing, found) ∧
    length missing + length found = 2.
Proof.
  destruct (CompareExcelSystem.compare Examples.sheet_articles
              Examples.system_articles [] [])
    as [[missing found]|e] eqn:H; [|vm_compute in H; discriminate H].
  exists missing, found. split; [reflexivity|].
  exact (proj2 (proj2 (compare_partition _ _ _ _ H))).
Defined.

Lemma index_articles_nil data :
  Forall (λ a, ∃ fields, a = JObj fields ∧
            truthy (default JNull (assoc "articleNumber" fields)) = false) data →
  ∀ system, index_articles data system = Ok system.
Proof.
  induction 1 as [|a data (fields & -> & Hnum) _ IH]; intros system; [done|].
  simpl. rewrite Hnum. apply IH.
Qed.



Lemma fmap_sorted_on {A} (key : A → string) (l : list A) :
  key <$> sorted_on key l = sorted (key <$> l).
Proof.
  unfold sorted_on, sorted. apply (Sorted_unique String.le).
  - apply (Sorted_fmap key (le_on key) String.le); [done|].
    apply Sorted_merge_sort.
    intros x y. unfold le_on. apply total. apply _.
  - apply Sorted_merge_sort. apply _.
  - by rewrite !merge_sort_Permutation.
Qed.

Lemma make_result_Ok now excel system res :
  make_result now excel system = Ok res →
  ∃ missing found cov,
    compare excel system [] [] = Ok (missing, found) ∧
    coverage_of found excel = Ok cov ∧
    res = ResultJson now EXCEL_PATH
            (Summary (length excel) (length system) (length found)
               (length missing) cov)
            (sorted_on articleNumber missing)
            (sorted_on found_articleNumber found).
Proof.
  unfold make_result. intros H.
  apply bind_Ok in H as ([missing found] & Hcmp & H).
  apply bind_Ok in H as (cov & Hcov & H). injection H as <-.
  by exists missing, found, cov.
Qed.

Lemma main_Ok now df response res simple numbers :
  main now df response = Ok (res, simple, numbers) →
  ∃ excel lines system missing found,
    extract df = Ok (excel, lines) ∧
    system_articles response = Ok system ∧
    compare excel system [] [] = Ok (missing, found) ∧
    make_result now excel system = Ok res ∧
    simple = simple_of <$> missing ∧
    numbers = missing_numbers missing.
Proof.
  unfold main. intros H.
  apply bind_Ok in H as ([excel lines] & Hex & H).
  apply bind_Ok in H as (system & Hsys & H).
  apply bind_Ok in H as ([missing found] & Hcmp & H).
  apply bind_Ok in H as (res' & Hres & H). injection H as <- <- <-.
  by exists excel, lines, system, missing, found.
Qed.



(** X13.  The files of compare-excel-system.py agree: the numbers of
    missing-article-numbers.json are the article numbers of
    [missingArticles] in the full result, in the same, sorted order and
    without repetition; missing-articles.json lists the same articles (in
    spreadsheet order); [missingInSystem] is their number, it adds up
    with [foundInBoth] to [totalInExcel], and no number is both missing
    and found. *)
Theorem missing_files_agree (now : string) (df : dataframe)
    (response : result jval) (res : result_json)
    (simple : list missing_simple) (numbers : list string) :
  main now df response = Ok (res, simple, numbers) →
  let s := result_summary res in
  numbers = articleNumber <$> missingArticles res ∧
  Sorted String.le numbers ∧ NoDup numbers ∧
  simple_articleNumber <$> simple ≡ₚ numbers ∧
  missingInSystem s = length numbers ∧
  foundInBoth s + missingInSystem s = totalInExcel s ∧
  (∀ k, k ∈ numbers → k ∉ found_articleNumber <$> foundArticles res).
Proof.
  intros H s. subst s.
  apply main_Ok in H
    as (excel & lines & system & missing & found
        & Hex & Hsys & Hcmp & Hres & -> & ->).
  apply make_result_Ok in Hres as (missing' & found' & cov & Hcmp' & _ & ->).
  rewrite Hcmp in Hcmp'. injection Hcmp' as <- <-. simpl.
  pose proof (extract_numbers _ _ _ Hex) as Hnum.
  pose proof (NoDup_keys_extract _ _ _ Hex) as Hnodup.
  pose proof (compare_filter _ _ _ _ _ _ Hcmp) as [Hm Hf]. simpl in Hm, Hf.
  assert (articleNumber <$> missing
          = (filter (λ kv, kv.1 ∉ keys system) excel).*1) as Hmissing.
  { rewrite Hm. clear -Hex.
    apply extract_Ok in Hex as (col & note & _ & Hrows).
    eapply extract_rows_numbers in Hrows; [|constructor].
    induction Hrows as [|[k v] d Hkv _ IH]; [done|].
    rewrite filter_cons. destruct (decide _); [|done].
    rewrite !fmap_cons. simpl in Hkv. cbn [fst snd]. by rewrite Hkv, IH. }
  unfold missing_numbers. rewrite fmap_sorted_on.
  assert (sorted (articleNumber <$> missing) ≡ₚ articleNumber <$> missing)
    as Hperm by apply merge_sort_Permutation.
  repeat split.
  - apply Sorted_merge_sort. apply _.
  - rewrite Hperm, Hmissing. 
    eapply (sublist_NoDup _ (keys excel));
      first [exact Hnodup|unfold keys; apply fmap_sublist, sublist_filter].
  - rewrite Hperm, <- list_fmap_compose. done.
  - by rewrite Hperm, length_fmap.
  - rewrite <- (length_fmap found_articleNumber found), Hm, Hf.
    rewrite !length_fmap, <- length_app.
    by rewrite filter_app_complement.
  - intros k. rewrite Hperm, Hmissing.
    assert (found_articleNumber <$> sorted_on found_articleNumber found
            ≡ₚ found_articleNumber <$> found) as ->.
    { unfold sorted_on. by rewrite merge_sort_Permutation. }
    rewrite Hf, !list_elem_of_fmap.
    intros ([k1 v1] & -> & [H1 _]%list_elem_of_filter)
           ([k2 v2] & Heq & [H2 _]%list_elem_of_filter).
    simpl in *. by subst.
Qed.

Lemma missing_files_agree_witness :
  ∃ res simple numbers,
    CompareExcelSystem.main Examples.first_run Examples.sheet
      (Ok (Examples.page_with Examples.catalog)) = Ok (res, simple, numbers) ∧
    numbers
      = CompareExcelSystem.articleNumber
          <$> CompareExcelSystem.missingArticles res ∧
    Sorted String.le numbers ∧ NoDup numbers.
Proof.
  destruct (CompareExcelSystem.main Examples.first_run Examples.sheet
              (Ok (Examples.page_with Examples.catalog)))
    as [[[res simple] numbers]|e] eqn:H; [|vm_compute in H; discriminate H].
  exists res, simple, numbers. split; [reflexivity|].
  destruct (missing_files_agree _ _ _ _ _ _ H) as (H1 & H2 & H3 & _).
  split; [exact H1|]. split; [exact H2|exact H3].
Defined.

Lemma elem_of_keys_dict_set {V} (k k' : string) (v : V) d :
  k ∈ keys (dict_set k' v d) ↔ k = k' ∨ k ∈ keys d.
Proof.
  rewrite keys_dict_set. destruct (decide (k' ∈ keys d)).
  - split; [by right|]. by intros [->|?].
  - rewrite elem_of_app, list_elem_of_singleton. tauto.
Qed.

Lemma extract_rows_keys col rows k :
  ∀ index d d',
    extract_rows col index rows d = Ok d' →
    k ∈ keys d' ↔
    k ∈ keys d ∨ ∃ r, r ∈ rows ∧ row_key col r = Some k.
Proof.
  induction rows as [|r rows IH]; intros index d d' H; simpl in H.
  - injection H as <-. split; [by left|].
    intros [?|(r & Hr & _)]; [done|]. by apply elem_of_nil in Hr.
  - apply bind_Ok in H as (d1 & Hrow & H). rewrite (IH _ _ _ H).
    pose proof Hrow as Hrow'. unfold extract_row in Hrow'.
    apply bind_Ok in Hrow' as (c & Hc & _). unfold row_getitem in Hc.
    destruct (r !! col) as [c'|] eqn:Hcol; [|done].
    rewrite (extract_row_key _ _ _ _ _ Hcol) in Hrow. injection Hrow as <-.
    destruct (row_key col r) as [k'|] eqn:Hk.
    + rewrite elem_of_keys_dict_set. split.
      * intros [[->|?]|(r' & Hr' & Hk')].
        -- right. exists r. split; [by left|done].
        -- by left.
        -- right. exists r'. split; [by right|done].
      * intros [?|(r' & [->|Hr']%elem_of_cons & Hk')].
        -- left. by right.
        -- left. left. congruence.
        -- right. by exists r'.
    + split.
      * intros [?|(r' & Hr' & Hk')]; [by left|].
        right. exists r'. split; [by right|done].
      * intros [?|(r' & [->|Hr']%elem_of_cons & Hk')]; [by left|congruence|].
        right. by exists r'.
Qed.

Lemma index_articles_keys data k :
  Forall is_object data →
  ∀ system system',
    index_articles data system = Ok system' →
    k ∈ keys system' ↔
    k ∈ keys system ∨ ∃ a, a ∈ data ∧ record_key a = Some k.
Proof.
  induction 1 as [|a data [entries ->] _ IH]; intros system system' H.
  - injection H as <-. split; [by left|].
    intros [?|(a & Ha & _)]; [done|]. by apply elem_of_nil in Ha.
  - simpl in H.
    assert (∀ P : jval → Prop,
              (∃ a, a ∈ JObj entries :: data ∧ P a) ↔
              P (JObj entries) ∨ ∃ a, a ∈ data ∧ P a) as Hcons.
    { intros P. split.
      - intros (a & [->|Ha]%elem_of_cons & HP); [by left|right; by exists a].
      - intros [HP|(a & Ha & HP)]; [exists (JObj entries)|exists a];
          (split; [|done]); [by left|by right]. }
    rewrite Hcons. unfold record_key at 1.
    destruct (assoc "articleNumber" entries) as [num|] eqn:Hnum; simpl in H.
    + destruct (truthy num) eqn:Htruthy.
      * apply bind_Ok in H as (s & Hs & H). rewrite Hs.
        rewrite (IH _ _ H), elem_of_keys_dict_set.
        split; [intros [[->|?]|?]|intros [?|[[= <-]|?]]]; tauto.
      * rewrite (IH _ _ H). split; [tauto|]. by intros [?|[?|?]]; [left| |right].
    + rewrite (IH _ _ H). split; [tauto|]. by intros [?|[?|?]]; [left| |right].
Qed.

Lemma index_articles_raises data :
  Forall is_object data →
  ∀ system e, index_articles data system = Raise e → e = Unmodelled.
Proof.
  induction 1 as [|a data [entries ->] _ IH]; intros system e H; [done|].
  simpl in H.
  destruct (assoc "articleNumber" entries) as [num|] eqn:Hnum; simpl in H.
  - destruct (truthy num); [|by eapply IH].
    destruct num; simpl in H; try (by eapply IH); try congruence.
    destruct x; by eapply IH.
  - by eapply IH.
Qed.

Lemma system_articles_answer items data system :
  catalog_answer items data →
  system_articles (Ok data) = Ok system →
  index_articles items [] = Ok system.
Proof.
  intros (fields & success & -> & Hsuccess & Htruthy & Hdata & Hitems).
  unfold system_articles. simpl. rewrite Hsuccess. simpl. rewrite Htruthy.
  rewrite Hdata. simpl.
  destruct (index_articles items []) as [d|e] eqn:Hindex; [done|].
  apply (index_articles_raises _ Hitems) in Hindex as ->. done.
Qed.

(** X14.  compare-excel-system.py matches on trimmed texts: an article
    number is reported found exactly when some usable row of the
    spreadsheet and some catalog record carry it after trimming, and
    reported missing exactly when some usable row carries it and no
    catalog record does. *)
Theorem found_iff_trimmed_numbers_equal (now : string) (df : dataframe)
    (data : jval) (items : list jval) (col : string) (note : list string)
    (res : result_json) (simple : list missing_simple)
    (numbers : list string) (k : string) :
  article_column df = Ok (col, note) →
  catalog_answer items data →
  main now df (Ok data) = Ok (res, simple, numbers) →
  (k ∈ found_articleNumber <$> foundArticles res ↔
   (∃ r, r ∈ rows df ∧ row_key col r = Some k) ∧
   (∃ a, a ∈ items ∧ record_key a = Some k)) ∧
  (k ∈ numbers ↔
   (∃ r, r ∈ rows df ∧ row_key col r = Some k) ∧
   ¬ (∃ a, a ∈ items ∧ record_key a = Some k)).
Proof.
  intros Hcol Hanswer H.
  apply main_Ok in H
    as (excel & lines & system & missing & found
        & Hex & Hsys & Hcmp & Hres & -> & ->).
  apply make_result_Ok in Hres as (missing' & found' & cov & Hcmp' & _ & ->).
  rewrite Hcmp in Hcmp'. injection Hcmp' as <- <-. simpl.
  pose proof (system_articles_answer _ _ _ Hanswer Hsys) as Hindex.
  destruct Hanswer as (_ & _ & _ & _ & _ & _ & Hitems).
  pose proof (index_articles_keys _ k Hitems _ _ Hindex) as Hsystem.
  pose proof Hex as Hex'.
  apply extract_Ok in Hex' as (col' & note' & Hcol' & Hrows).
  rewrite Hcol in Hcol'. injection Hcol' as <- <-.
  pose proof (extract_rows_keys _ _ k _ _ _ Hrows) as Hexcel.
  assert (k ∈ keys system ↔ ∃ a, a ∈ items ∧ record_key a = Some k) as Hsys'.
  { rewrite Hsystem. split; [|by right]. intros [Hnil|?]; [|done].
    by apply elem_of_nil in Hnil. }
  assert (k ∈ keys excel ↔ ∃ r, r ∈ rows df ∧ row_key col r = Some k)
    as Hex''.
  { rewrite Hexcel. split; [|by right]. intros [Hnil|?]; [|done].
    by apply elem_of_nil in Hnil. }
  pose proof (compare_filter _ _ _ _ _ _ Hcmp) as [Hm Hf]. simpl in Hm, Hf.
  assert (∀ (P : string → Prop) `{∀ x, Decision (P x)},
            k ∈ (filter (λ kv : string * article_data, P kv.1) excel).*1 ↔
            k ∈ keys excel ∧ P k) as Hfilter.
  { intros P ?. unfold keys. rewrite !list_elem_of_fmap. split.
    - intros ([k1 v1] & -> & [HP Hin]%list_elem_of_filter).
      split; [by exists (k1, v1)|done].
    - intros [([k1 v1] & -> & Hin) HP]. exists (k1, v1).
      split; [done|]. by apply list_elem_of_filter. }
  split.
  - assert (found_articleNumber <$> sorted_on found_articleNumber found
            ≡ₚ found_articleNumber <$> found) as ->.
    { unfold sorted_on. by rewrite merge_sort_Permutation. }
    pose proof (Hfilter (λ x, x ∈ keys system) _) as Hin. simpl in Hin.
    rewrite Hf, Hin, Hex'', Hsys'. done.
  - unfold missing_numbers.
    assert (sorted (articleNumber <$> missing) ≡ₚ articleNumber <$> missing)
      as -> by apply merge_sort_Permutation.
    assert (articleNumber <$> missing
            = (filter (λ kv, kv.1 ∉ keys system) excel).*1) as ->.
    { rewrite Hm. clear -Hrows.
      eapply extract_rows_numbers in Hrows; [|constructor].
      induction Hrows as [|[k v] d Hkv _ IH]; [done|].
      rewrite filter_cons. destruct (decide _); [|done].
      rewrite !fmap_cons. simpl in Hkv. cbn [fst snd]. by rewrite Hkv, IH. }
    pose proof (Hfilter (λ x, x ∉ keys system) _) as Hin. simpl in Hin.
    rewrite Hin, Hex'', Hsys'. done.
Qed.

Lemma found_iff_trimmed_numbers_equal_witness :
  ∃ res simple numbers,
    CompareExcelSystem.main Examples.first_run Examples.sheet
      (Ok (Examples.page_with Examples.catalog)) = Ok (res, simple, numbers) ∧
    "A123" ∈ CompareExcelSystem.found_articleNumber
               <$> CompareExcelSystem.foundArticles res ∧
    "B7" ∈ numbers.
Proof.
  destruct (CompareExcelSystem.main Examples.first_run Examples.sheet
              (Ok (Examples.page_with Examples.catalog)))
    as [[[res simple] numbers]|e] eqn:H; [|vm_compute in H; discriminate H].
  exists res, simple, numbers. split; [reflexivity|].
  assert (Hanswer : catalog_answer Examples.catalog
                      (Examples.page_with Examples.catalog)).
  { eexists _, _. split; [reflexivity|]. split; [reflexivity|].
    split; [reflexivity|]. split; [reflexivity|].
    repeat constructor; by eexists. }
  split.
  - apply (proj1 (found_iff_trimmed_numbers_equal Examples.first_run
                    Examples.sheet _ Examples.catalog "Artikelnummer" []
                    _ _ _ "A123" eq_refl Hanswer H)).
    split.
    + eexists. split; [by left|]. vm_compute. reflexivity.
    + eexists. split; [by left|]. vm_compute. reflexivity.
  - apply (proj2 (found_iff_trimmed_numbers_equal Examples.first_run
                    Examples.sheet _ Examples.catalog "Artikelnummer" []
                    _ _ _ "B7" eq_refl Hanswer H)).
    split.
    + eexists. split; [right; by left|]. vm_compute. reflexivity.
    + intros (a & Ha & Hk).
      repeat (apply elem_of_cons in Ha as [->|Ha];
              [vm_compute in Hk; discriminate Hk|]).
      by apply elem_of_nil in Ha.
Defined.

End Spreadsheet.

(** ** The result of check-missing-correct.py and the catalog numbers *)

Section Missing.
Import Spec.
Import CheckMissingCorrect.

Lemma articleNumber_detail df col k : articleNumber (detail df col k) = k.
Proof. unfold detail. by destruct (filter _ _). Qed.

Lemma sorted_elem_of (l : list string) k : k ∈ sorted l ↔ k ∈ l.
Proof. unfold sorted. by rewrite merge_sort_Permutation. Qed.

Lemma sorted_NoDup (l : list string) : NoDup l → NoDup (sorted l).
Proof. unfold sorted. by rewrite merge_sort_Permutation. Qed.

Lemma length_sorted (l : list string) : length (sorted l) = length l.
Proof. unfold sorted. by rewrite merge_sort_Permutation. Qed.

(** X15.  The result of check-missing-correct.py is consistent:
    [foundInBoth] and [missingInSystem] add up to [totalInExcel];
    [missingArticleNumbers] is sorted, without repetition, and holds
    exactly the spreadsheet numbers not in the catalog; [missingArticles]
    are the details of its first 500 numbers, in that order; the second
    file holds the same list of numbers. *)
Theorem check_result_consistent (iter : gset string → list string)
    (df : dataframe) (col : string) (S C : gset string) (res : result_json) :
  set_order iter →
  make_result iter df col S C = Ok res →
  let s := result_summary res in
  foundInBoth s + missingInSystem s = totalInExcel s ∧
  Sorted String.le (missingArticleNumbers res) ∧
  NoDup (missingArticleNumbers res) ∧
  (∀ k, k ∈ missingArticleNumbers res ↔ k ∈ S ∧ k ∉ C) ∧
  articleNumber <$> missingArticles res
    = take 500 (missingArticleNumbers res) ∧
  length (missingArticles res) = 500 `min` missingInSystem s ∧
  missing_numbers_only iter S C = missingArticleNumbers res.
Proof.
  intros Hiter H s. subst s. unfold make_result in H.
  apply bind_Ok in H as (p & _ & H). injection H as <-. simpl.
  unfold missing, found.
  assert (length (sorted (iter (S ∖ C))) = size (S ∖ C)) as Hlen.
  { rewrite length_sorted, (Hiter (S ∖ C)). done. }
  split_and!.
  - rewrite <- size_union by set_solver. f_equal.
    apply set_eq. intros x. destruct (decide (x ∈ C)); set_solver.
  - apply Sorted_merge_sort. apply _.
  - apply sorted_NoDup. rewrite (Hiter (S ∖ C)). apply NoDup_elements.
  - intros k.
    rewrite sorted_elem_of, (Hiter (S ∖ C)), elem_of_elements. set_solver.
  - rewrite <- fmap_take, <- list_fmap_compose.
    rewrite <- (list_fmap_id (take 500 _)) at 2.
    apply list_fmap_ext. intros i k _. apply articleNumber_detail.
  - by rewrite length_take, length_fmap, Hlen.
  - done.
Qed.

Lemma check_result_consistent_witness :
  ∃ res,
    CheckMissingCorrect.make_result elements Examples.sheet "Artikelnummer"
      Examples.sheet_ids Examples.catalog_ids = Ok res ∧
    let s := CheckMissingCorrect.result_summary res in
    CheckMissingCorrect.foundInBoth s + CheckMissingCorrect.missingInSystem s
      = CheckMissingCorrect.totalInExcel s ∧
    NoDup (CheckMissingCorrect.missingArticleNumbers res).
Proof.
  destruct (CheckMissingCorrect.make_result elements Examples.sheet
              "Artikelnummer" Examples.sheet_ids Examples.catalog_ids)
    as [res|e] eqn:H; [|vm_compute in H; discriminate H].
  exists res. split; [reflexivity|].
  assert (Hiter : set_order elements) by (intros X; reflexivity).
  destruct (check_result_consistent _ _ _ _ _ _ Hiter H) as (H1 & _ & H2 & _).
  split; [exact H1|exact H2].
Defined.




Lemma system_article_numbers_from_keys all k :
  Forall is_object all →
  ∀ numbers C,
    system_article_numbers_from numbers all = Ok C →
    k ∈ C ↔ k ∈ numbers ∨ ∃ a, a ∈ all ∧ record_key a = Some k.
Proof.
  induction 1 as [|a all [entries ->] _ IH]; intros numbers C H.
  - injection H as <-. split; [by left|].
    intros [?|(a & Ha & _)]; [done|]. by apply elem_of_nil in Ha.
  - simpl in H.
    assert (∀ P : jval → Prop,
              (∃ a, a ∈ JObj entries :: all ∧ P a) ↔
              P (JObj entries) ∨ ∃ a, a ∈ all ∧ P a) as Hcons.
    { intros P. split.
      - intros (a & [->|Ha]%elem_of_cons & HP); [by left|right; by exists a].
      - intros [HP|(a & Ha & HP)]; [exists (JObj entries)|exists a];
          (split; [|done]); [by left|by right]. }
    rewrite Hcons. unfold record_key at 1.
    destruct (assoc "articleNumber" entries) as [num|] eqn:Hnum; simpl in H.
    + destruct (truthy num) eqn:Htruthy.
      * apply bind_Ok in H as (s & Hs & H). rewrite Hs.
        rewrite (IH _ _ H), elem_of_union, elem_of_singleton.
        split; [intros [[?| -> ]|?]|intros [?|[[= <-]|?]]]; tauto.
      * rewrite (IH _ _ H). split; [tauto|]. by intros [?|[?|?]]; [left| |right].
    + rewrite (IH _ _ H). split; [tauto|]. by intros [?|[?|?]]; [left| |right].
Qed.

Lemma system_article_numbers_from_raises all :
  Forall is_object all →
  ∀ numbers e,
    system_article_numbers_from numbers all = Raise e → e = Unmodelled.
Proof.
  induction 1 as [|a all [entries ->] _ IH]; intros numbers e H; [done|].
  simpl in H.
  destruct (assoc "articleNumber" entries) as [num|] eqn:Hnum; simpl in H.
  - destruct (truthy num); [|by eapply IH].
    destruct num; simpl in H; try (by eapply IH); try congruence.
    destruct x; by eapply IH.
  - by eapply IH.
Qed.

Lemma prepare_system_article_numbers_key all C :
  PrepareImportData.system_article_numbers all = Ok C →
  Forall (λ a, ∃ fields num, a = JObj fields ∧
            assoc "articleNumber" fields = Some num) all.
Proof.
  revert C. induction all as [|a all IH]; intros C H; [constructor|].
  simpl in H. apply bind_Ok in H as (num & Hnum & H).
  apply bind_Ok in H as (s & Hs & H). apply bind_Ok in H as (C' & HC' & _).
  constructor; [|by eapply IH].
  destruct a; try done. simpl in Hnum.
  destruct (assoc "articleNumber" _) eqn:E; [|done]. by eexists _, _.
Qed.

(** X17.  On catalog records that are objects, check-missing-correct.py
    does not raise on a record without article number: it passes over it,
    and its set of catalog numbers holds exactly the trimmed numbers of
    the records that have a true one.  prepare-import-data.py does not
    complete on such a catalog. *)
Theorem catalog_numbers_skip_or_raise (all_system_articles : list jval) :
  Forall is_object all_system_articles →
  (∀ e, system_article_numbers all_system_articles = Raise e →
        e = Unmodelled) ∧
  (∀ C, system_article_numbers all_system_articles = Ok C →
        ∀ k, k ∈ C ↔
             ∃ a, a ∈ all_system_articles ∧ record_key a = Some k) ∧
  ((∃ fields, JObj fields ∈ all_system_articles ∧
              assoc "articleNumber" fields = None) →
   ∀ C, PrepareImportData.system_article_numbers all_system_articles
          ≠ Ok C).
Proof.
  intros Hall. split; [|split].
  - intros e. apply system_article_numbers_from_raises. done.
  - intros C HC k.
    rewrite (system_article_numbers_from_keys _ k Hall _ _ HC).
    split; [|by right]. intros [Hempty|?]; [|done]. set_solver.
  - intros (fields & Hin & Hnone) C HC.
    apply prepare_system_article_numbers_key in HC.
    rewrite Forall_forall in HC.
    destruct (HC _ Hin) as (fields' & num & [= <-] & Hnum). congruence.
Qed.

Lemma catalog_numbers_skip_or_raise_witness :
  (∀ e, CheckMissingCorrect.system_article_numbers Examples.catalog_gap
          = Raise e → e = Unmodelled) ∧
  (∀ C, PrepareImportData.system_article_numbers Examples.catalog_gap
          ≠ Ok C).
Proof.
  destruct (catalog_numbers_skip_or_raise Examples.catalog_gap)
    as (H1 & _ & H2).
  - repeat constructor; by eexists.
  - split; [exact H1|]. apply H2. exists [("id", JInt 4)].
    split; [|reflexivity]. right. right. by left.
Defined.

Lemma system_article_numbers_from_union all :
  Forall numbered all →
  ∀ numbers,
    system_article_numbers_from numbers all
    = C ← PrepareImportData.system_article_numbers all; Ok (numbers ∪ C).
Proof.
  induction 1 as [|a all (fields & num & -> & Hnum & Htruthy) _ IH];
    intros numbers; simpl.
  - f_equal. set_solver.
  - rewrite Hnum. simpl. rewrite Htruthy. simpl.
    destruct (str num) as [s|e]; simpl; [|done].
    rewrite IH.
    destruct (PrepareImportData.system_article_numbers all) as [C|e];
      simpl; [|done].
    f_equal. set_solver.
Qed.

Lemma system_numbers_prepare all :
  Forall numbered all →
  MarkNonExcelArticles.system_numbers all
    = PrepareImportData.system_article_numbers all.
Proof.
  induction 1 as [|a all (fields & num & -> & Hnum & Htruthy) _ IH]; simpl.
  - done.
  - rewrite Hnum. simpl. by rewrite IH.
Qed.

(** X18.  When every catalog record has a true article number, the three
    scripts check-missing-correct.py, prepare-import-data.py and
    mark-non-excel-articles.py compute the same set of catalog numbers (or
    raise the same exception). *)
Theorem same_catalog_numbers (all_system_articles : list jval) :
  Forall numbered all_system_articles →
  system_article_numbers all_system_articles
    = PrepareImportData.system_article_numbers all_system_articles ∧
  MarkNonExcelArticles.system_numbers all_system_articles
    = PrepareImportData.system_article_numbers all_system_articles.
Proof.
  intros Hall. split; [|by apply system_numbers_prepare].
  unfold system_article_numbers.
  rewrite system_article_numbers_from_union by done.
  destruct (PrepareImportData.system_article_numbers all_system_articles)
    as [C|e]; simpl; [|done].
  f_equal. set_solver.
Qed.

Lemma same_catalog_numbers_witness :
  CheckMissingCorrect.system_article_numbers Examples.catalog
    = PrepareImportData.system_article_numbers Examples.catalog ∧
  MarkNonExcelArticles.system_numbers Examples.catalog
    = PrepareImportData.system_article_numbers Examples.catalog.
Proof.
  apply (same_catalog_numbers Examples.catalog).
  repeat constructor; eexists _, _; (split; [reflexivity|]);
    split; reflexivity.
Defined.

End Missing.

(** ** The import records and the sheet of prepare-import-data.py *)

Section ImportRecords.
Import Spec.
Import PrepareImportData.

Lemma missing_articles_Ok C rows :
  Forall (λ r : row, is_Some (r !! "Artikelnummer")) rows →
  missing_articles C rows = Ok (filter (λ r, wanted C r = true) rows).
Proof.
  induction 1 as [|r rows [c Hc] _ IH]; [done|].
  assert (wanted C r
          = bool_decide (strip (str_cell c) ∉ C)
            && negb (String.eqb (strip (str_cell c)) "nan")) as Hw.
  { unfold wanted, row_get. by rewrite Hc. }
  simpl. unfold row_getitem. rewrite Hc. simpl. rewrite IH. simpl.
  rewrite filter_cons, <- Hw. destruct (wanted C r).
  - by rewrite decide_True.
  - by rewrite decide_False.
Qed.

Lemma missing_articles_raises C rows :
  Exists (λ r : row, r !! "Artikelnummer" = None) rows →
  missing_articles C rows = Raise KeyError.
Proof.
  induction 1 as [r rows Hr|r rows _ IH]; simpl; unfold row_getitem.
  - by rewrite Hr.
  - destruct (r !! "Artikelnummer"); [|done]. simpl. by rewrite IH.
Qed.

(** X19.  The missing rows of prepare-import-data.py: when every row has
    an "Artikelnummer" cell, they are the rows whose trimmed number is not
    in the catalog and is not "nan", in spreadsheet order, repeated rows
    included; a row without that cell makes the script raise [KeyError];
    a row whose number is blank is taken for missing (unless the catalog
    has a record with an empty number). *)
Theorem missing_articles_filter (C : gset string) (rows : list row) :
  (Forall (λ r : row, is_Some (r !! "Artikelnummer")) rows →
   missing_articles C rows = Ok (filter (λ r, wanted C r = true) rows)) ∧
  (Exists (λ r : row, r !! "Artikelnummer" = None) rows →
   missing_articles C rows = Raise KeyError) ∧
  (∀ missing (r : row) c,
     missing_articles C rows = Ok missing →
     r ∈ rows → r !! "Artikelnummer" = Some c →
     strip (str_cell c) = "" → "" ∉ C → r ∈ missing).
Proof.
  split; [apply missing_articles_Ok|]. split; [apply missing_articles_raises|].
  intros missing r c Hm Hr Hc Hblank HC.
  destruct (decide (Exists (λ r : row, r !! "Artikelnummer" = None) rows))
    as [Hex|Hall].
  - rewrite missing_articles_raises in Hm by done. done.
  - apply not_Exists_Forall in Hall; [|intros x; apply _].
    rewrite missing_articles_Ok in Hm.
    + injection Hm as <-. apply list_elem_of_filter. split; [|done].
      unfold wanted, row_get. rewrite Hc. simpl. rewrite Hblank.
      by rewrite bool_decide_eq_true_2.
    + eapply Forall_impl; [exact Hall|]. intros x Hx. simpl in Hx.
      destruct (x !! "Artikelnummer"); [by eexists|done].
Qed.

Lemma missing_articles_filter_witness :
  PrepareImportData.missing_articles Examples.catalog_ids
    (rows Examples.sheet)
  = Ok (filter (λ r, wanted Examples.catalog_ids r = true)
          (rows Examples.sheet)).
Proof.
  apply (proj1 (missing_articles_filter Examples.catalog_ids
                  (rows Examples.sheet))).
  repeat constructor; by eexists.
Defined.

Lemma append_tier_if_ok c x tiers n :
  fgtb x fzero = true →
  Forall tier_ok tiers ∧ length tiers ≤ n →
  Forall tier_ok (append_tier_if c (VNum x) tiers) ∧
  length (append_tier_if c (VNum x) tiers) ≤ S n.
Proof.
  intros Hx [Hok Hlen]. destruct c; simpl; [|split; [done|lia]].
  rewrite length_app. simpl. split; [|lia].
  apply Forall_app. split; [done|]. by repeat constructor.
Qed.

Lemma classify_record article stats p1 p2 p3 p4 article' stats' :
  classify article stats p1 p2 p3 p4 = Ok (article', stats') →
  price article = None → tieredPricesText article = None →
  tieredPrices article = None → manufacturer article = None →
  verified article = true →
  articleNumber article' = articleNumber article ∧
  productName article' = productName article ∧
  currency article' = currency article ∧
  category article' = category article ∧
  published article' = published article ∧
  ean article' = ean article ∧
  is_Some (price article') ∧
  (manufacturer article' = None ∨
   manufacturer article' = Some "NEEDS_TIER_QUANTITIES") ∧
  (verified article' = false ↔
   manufacturer article' = Some "NEEDS_TIER_QUANTITIES") ∧
  (is_Some (tieredPrices article') ↔
   manufacturer article' = Some "NEEDS_TIER_QUANTITIES") ∧
  (∀ tiers, tieredPrices article' = Some tiers →
     0 < length tiers ≤ 3 ∧ Forall tier_ok tiers) ∧
  (is_Some (tieredPricesText article') →
   price article' = Some (VNum fzero) ∧ tieredPrices article' = None) ∧
  (manufacturer article' = Some "NEEDS_TIER_QUANTITIES" ↔
   needs_tier_quantities stats' = S (needs_tier_quantities stats)) ∧
  (manufacturer article' = None ↔
   needs_tier_quantities stats' = needs_tier_quantities stats).
Proof.
  unfold classify. intros H Hprice Htext Htiers Hman Hver.
  repeat
    (match type of H with
     | context [if ?b then _ else _] => destruct b eqn:?
     | context [gt_zero ?p] => destruct p; simpl in H
     | context [match ?l with [] => _ | _ :: _ => _ end] =>
         destruct l eqn:?
     end; try discriminate H);
    injection H as <- <-; simpl;
    rewrite ?Hprice, ?Htext, ?Htiers, ?Hman, ?Hver;
    (split_and!; try done; try (by eexists); try (by left); try (by right);
     try (split; intros; (done || lia || (by apply is_Some_None in H)));
     try (intros ? [= <-]; simplify_eq/=;
          split; [simpl; lia|repeat constructor; done]);
     try (by intros []%is_Some_None)).
  all: intros ? [= <-];
    match goal with
    | Heq : ?T = _ :: _ |- _ =>
        assert (Forall tier_ok T ∧ length T ≤ 3) as [Hok Hlen]
          by (repeat first [ apply append_tier_if_ok; [done|]
                           | split; [constructor|simpl; lia] ]);
        rewrite Heq in Hok, Hlen; simpl in Hlen |- *
    end; (split; [lia|done]).
Qed.

Lemma set_ean_record e a :
  well_formed_record a → well_formed_record (set_ean e a).
Proof. done. Qed.

Lemma import_row_record r stats a stats' :
  import_row r stats = Ok (a, stats') →
  well_formed_record a ∧ imported_from r a ∧
  (manufacturer a = Some "NEEDS_TIER_QUANTITIES" ↔
   needs_tier_quantities stats' = S (needs_tier_quantities stats)) ∧
  (manufacturer a = None ↔
   needs_tier_quantities stats' = needs_tier_quantities stats).
Proof.
  unfold import_row, row_getitem. intros H.
  destruct (r !! "Artikelnummer") as [num|] eqn:Hnum; [|done].
  simpl in H. apply bind_Ok in H as ([a1 stats1] & Hc & H).
  apply classify_record in Hc; [|done..]. simpl in Hc.
  destruct Hc as (H1 & H2 & H3 & H4 & H5 & H6 & H7 & H8 & H9 & H10 & H11
                  & H12 & H13 & H14).
  assert (well_formed_record a1 ∧ imported_from r a1) as [Hwf Hfrom].
  { unfold well_formed_record, imported_from, row_get. rewrite Hnum.
    by split_and!. }
  destruct (_ && _); injection H as <- <-; by split_and!.
Qed.

Lemma import_rows_records rows :
  ∀ import_articles stats import_articles' stats',
    import_rows rows import_articles stats = Ok (import_articles', stats') →
    ∃ new,
      import_articles' = import_articles ++ new ∧
      Forall well_formed_record new ∧ Forall2 imported_from rows new ∧
      needs_tier_quantities stats'
        = needs_tier_quantities stats
          + length (filter (λ a, verified a = false) new).
Proof.
  induction rows as [|r rows IH]; intros acc stats acc' stats' H; simpl in H.
  - injection H as <- <-. exists []. rewrite app_nil_r. simpl.
    by split_and!; [|constructor..|lia].
  - apply bind_Ok in H as ([a stats1] & Hrow & H).
    apply import_row_record in Hrow as (Hwf & Hfrom & Hneeds & Hnone).
    apply IH in H as (new & -> & Hall & Hall2 & Hcount).
    exists (a :: new). rewrite <- app_assoc. split_and!; [done|by constructor..|].
    rewrite filter_cons, Hcount.
    destruct Hwf as (_ & _ & _ & _ & [Hman|Hman] & Hver & _).
    + rewrite decide_False.
      * apply Hnone in Hman. lia.
      * intros Hv. apply Hver in Hv. congruence.
    + rewrite decide_True by by apply Hver.
      apply Hneeds in Hman. simpl. lia.
Qed.

(** X20.  When the classification loop of prepare-import-data.py
    completes, it has made one import record per row, in order, with the
    trimmed article number and the name of its row; every record has a
    price, currency EUR and category FROM_EXCEL; it is unverified exactly
    when it is marked NEEDS_TIER_QUANTITIES, which is exactly when it has
    tiers; tiers are one to three, with positive prices and no quantity;
    and [needs_tier_quantities] counts the unverified records. *)
Theorem import_records_well_formed (rows : list row)
    (import_articles : list import_article) (stats : import_stats) :
  import_rows rows [] stats0 = Ok (import_articles, stats) →
  Forall well_formed_record import_articles ∧
  Forall2 imported_from rows import_articles ∧
  needs_tier_quantities stats
    = length (filter (λ a, verified a = false) import_articles).
Proof.
  intros H. apply import_rows_records in H as (new & -> & H1 & H2 & H3).
  simpl in *. by split_and!.
Qed.

Lemma import_records_well_formed_witness :
  Forall well_formed_record (fst Examples.sheet_import) ∧
  Forall2 imported_from Examples.sheet_rows (fst Examples.sheet_import) ∧
  PrepareImportData.needs_tier_quantities (snd Examples.sheet_import)
    = length (filter (λ a, PrepareImportData.verified a = false)
                (fst Examples.sheet_import)).
Proof.
  apply (import_records_well_formed Examples.sheet_rows
           (fst Examples.sheet_import) (snd Examples.sheet_import)).
  vm_compute. reflexivity.
Defined.

Lemma dict_set_fresh {V} k (v : V) d :
  k ∉ keys d → dict_set k v d = d ++ [(k, v)].
Proof.
  induction d as [|[k' v'] d IH]; [done|]. unfold keys. simpl.
  intros [Hne Hnin]%not_elem_of_cons. rewrite decide_False by done.
  by rewrite IH.
Qed.

Lemma preis_inj (i j : nat) : "Preis_" +:+ pretty i = "Preis_" +:+ pretty j → i = j.
Proof. intros H. apply (inj (String.app "Preis_")) in H. by apply (inj pretty) in H. Qed.

Lemma ab_menge_inj (i j : nat) :
  "Ab_Menge_" +:+ pretty i = "Ab_Menge_" +:+ pretty j → i = j.
Proof.
  intros H. apply (inj (String.app "Ab_Menge_")) in H.
  by apply (inj pretty) in H.
Qed.

Lemma preis_ab_menge (i j : nat) : "Preis_" +:+ pretty i ≠ "Ab_Menge_" +:+ pretty j.
Proof. intros H. rewrite !str_app_cons in H. discriminate H. Qed.

Lemma add_tier_columns_entries tiers :
  ∀ i d, fresh_from i d → add_tier_columns i tiers d = d ++ tier_entries i tiers.
Proof.
  induction tiers as [|t tiers IH]; intros i d Hfresh; simpl.
  - by rewrite app_nil_r.
  - destruct (Hfresh i (le_n i)) as [Hp Ha].
    rewrite (dict_set_fresh ("Preis_" +:+ pretty i)) by done.
    rewrite (dict_set_fresh ("Ab_Menge_" +:+ pretty i)).
    + rewrite IH.
      * by rewrite <- !app_assoc.
      * intros j Hj. destruct (Hfresh j) as [Hp' Ha']; [lia|].
        unfold keys in *. rewrite !fmap_app, !elem_of_app. simpl.
        rewrite !list_elem_of_singleton. split.
        -- intros [[?|Heq]|Heq]; [done| |].
           ++ apply preis_inj in Heq. lia.
           ++ by apply preis_ab_menge in Heq.
        -- intros [[?|Heq]|Heq]; [done| |].
           ++ symmetry in Heq. by apply preis_ab_menge in Heq.
           ++ apply ab_menge_inj in Heq. lia.
    + unfold keys in *. rewrite fmap_app, elem_of_app. simpl.
      rewrite list_elem_of_singleton. intros [?|Heq]; [done|].
      symmetry in Heq. by apply preis_ab_menge in Heq.
Qed.

Lemma nachpflege_row_entries a :
  well_formed_record a →
  manufacturer a = Some "NEEDS_TIER_QUANTITIES" →
  ∃ p tiers,
    price a = Some p ∧ tieredPrices a = Some tiers ∧
    0 < length tiers ≤ 3 ∧
    nachpflege_row a
      = Ok ([ ("Artikelnummer", SText (articleNumber a));
              ("Produktname", SText (first_chars 50 (productName a)));
              ("Preis_1", SPrice p) ] ++ tier_entries 2 tiers).
Proof.
  intros (_ & _ & _ & [p Hp] & _ & _ & Htiers & Hlen & _) Hman.
  apply Htiers in Hman as [tiers Ht]. destruct (Hlen _ Ht) as [Hl _].
  exists p, tiers. split_and!; [done..|lia|lia|].
  unfold nachpflege_row. rewrite Hp, Ht. f_equal.
  apply add_tier_columns_entries. intros j Hj. unfold keys. simpl.
  rewrite !not_elem_of_cons. split_and!; try done; try apply not_elem_of_nil.
  intros Heq. change "Preis_1" with ("Preis_" +:+ pretty 1) in Heq.
  apply preis_inj in Heq. lia.
Qed.

(** X21.  Making the sheet for the tier quantities never raises on the
    records of a completed classification loop.  The sheet has one row
    per unverified record, in order, [needs_tier_quantities] rows in all;
    a row holds the article number, the first 50 characters of the name,
    the base price and, for each tier, numbered from 2, its price and an
    empty quantity: no column is written twice. *)
Theorem nachpflege_rows (rows : list row)
    (import_articles : list import_article) (stats : import_stats) :
  import_rows rows [] stats0 = Ok (import_articles, stats) →
  ∃ data,
    nachpflege_data import_articles = Ok data ∧
    length data = needs_tier_quantities stats ∧
    Forall2
      (λ a row_data,
         ∃ p tiers,
           price a = Some p ∧ tieredPrices a = Some tiers ∧
           0 < length tiers ≤ 3 ∧
           row_data
             = [ ("Artikelnummer", SText (articleNumber a));
                 ("Produktname", SText (first_chars 50 (productName a)));
                 ("Preis_1", SPrice p) ] ++ tier_entries 2 tiers)
      (filter (λ a, verified a = false) import_articles) data.
Proof.
  intros H. apply import_rows_records in H as (new & -> & Hall & _ & ->).
  simpl. clear rows stats.
  assert (∃ data,
            nachpflege_data new = Ok data ∧
            Forall2
              (λ a row_data,
                 ∃ p tiers,
                   price a = Some p ∧ tieredPrices a = Some tiers ∧
                   0 < length tiers ≤ 3 ∧
                   row_data
                     = [ ("Artikelnummer", SText (articleNumber a));
                         ("Produktname",
                          SText (first_chars 50 (productName a)));
                         ("Preis_1", SPrice p) ] ++ tier_entries 2 tiers)
              (filter (λ a, verified a = false) new) data)
    as (data & Hdata & Hrows).
  { induction Hall as [|a new Ha _ (data & Hdata & Hrows)].
    - exists []. split; [done|constructor].
    - rewrite filter_cons.
      pose proof Ha as (_ & _ & _ & _ & [Hman|Hman] & Hver & _).
      + rewrite decide_False.
        * exists data. split; [|done]. simpl. by rewrite Hman.
        * intros Hv. apply Hver in Hv. congruence.
      + rewrite decide_True by by apply Hver.
        destruct (nachpflege_row_entries _ Ha Hman)
          as (p & tiers & Hp & Ht & Hlen & Hrow).
        eexists. split.
        * simpl. rewrite Hman, Hrow. simpl. rewrite Hdata. simpl. reflexivity.
        * constructor; [|done]. by exists p, tiers. }
  exists data. split_and!; [done| |done].
  symmetry. by eapply Forall2_length.
Qed.

Lemma nachpflege_rows_witness :
  ∃ data,
    PrepareImportData.nachpflege_data (fst Examples.sheet_import) = Ok data ∧
    length data
      = PrepareImportData.needs_tier_quantities (snd Examples.sheet_import).
Proof.
  destruct (nachpflege_rows Examples.sheet_rows
              (fst Examples.sheet_import) (snd Examples.sheet_import))
    as (data & H1 & H2 & _); [vm_compute; reflexivity|].
  exists data. split; [exact H1|exact H2].
Defined.

Lemma classify_single_or_unavailable article stats x1 x2 x3 x4 :
  let p1 := VNum x1 in let p2 := VNum x2 in
  let p3 := VNum x3 in let p4 := VNum x4 in
  positive p2 || positive p3 || positive p4 = false →
  eq_zero p1 && eq_zero p2 && eq_zero p3 && eq_zero p4 = false →
  classify article stats p1 p2 p3 p4
  = Ok (if positive p1
        then (set_price p1 article, incr_single_price stats)
        else (set_tieredPricesText "Preis nicht verfügbar"
                (set_price (VNum fzero) article),
              incr_auf_anfrage stats)).
Proof.
  intros p1 p2 p3 p4 Hpos Hzero. subst p1 p2 p3 p4. simpl in Hpos.
  apply orb_false_iff in Hpos as [Hpos H4].
  apply orb_false_iff in Hpos as [H2 H3].
  unfold classify. cbn [eq_text orb]. rewrite Hzero.
  simpl. rewrite H2, H3, H4. simpl. by destruct (fgtb x1 fzero).
Qed.

(** X22.  A row whose four prices are numbers, none of prices 2 to 4
    positive and not all four zero: when price 1 is positive, the record
    is a single-price record with that price; otherwise (a negative price
    1) it gets price 0 and the text "Preis nicht verfügbar", stays
    verified, and is counted under [auf_anfrage]. *)
Theorem single_price_or_unavailable (r : row) (stats : import_stats)
    (x1 x2 x3 x4 : pyfloat) :
  is_Some (r !! "Artikelnummer") →
  coerced_price r "Preis 1" = VNum x1 →
  coerced_price r "Preis 2" = VNum x2 →
  coerced_price r "Preis 3" = VNum x3 →
  coerced_price r "Preis 4" = VNum x4 →
  fgtb x2 fzero = false → fgtb x3 fzero = false → fgtb x4 fzero = false →
  feqb x1 fzero && feqb x2 fzero && feqb x3 fzero && feqb x4 fzero = false →
  ∃ article stats',
    import_row r stats = Ok (article, stats') ∧
    tieredPrices article = None ∧ manufacturer article = None ∧
    verified article = true ∧
    if fgtb x1 fzero
    then price article = Some (VNum x1) ∧ tieredPricesText article = None ∧
         stats' = incr_single_price stats
    else price article = Some (VNum fzero) ∧
         tieredPricesText article = Some "Preis nicht verfügbar" ∧
         stats' = incr_auf_anfrage stats.
Proof.
  intros [num Hnum] Hp1 Hp2 Hp3 Hp4 H2 H3 H4 Hzero.
  unfold import_row, row_getitem. rewrite Hnum, Hp1, Hp2, Hp3, Hp4. simpl.
  rewrite classify_single_or_unavailable; [|simpl; by rewrite H2, H3, H4|done].
  clear Hzero. simpl. destruct (fgtb x1 fzero); simpl;
    destruct (nonempty _ && _);
    eexists _, _; (split; [reflexivity|]); by split_and!.
Qed.

Lemma single_price_or_unavailable_witness :
  ∃ article stats',
    PrepareImportData.import_row Examples.negative_row
      PrepareImportData.stats0 = Ok (article, stats') ∧
    PrepareImportData.price article = Some (PrepareImportData.VNum fzero) ∧
    PrepareImportData.tieredPricesText article
      = Some "Preis nicht verfügbar" ∧
    stats' = PrepareImportData.incr_auf_anfrage PrepareImportData.stats0.
Proof.
  edestruct (single_price_or_unavailable Examples.negative_row
               PrepareImportData.stats0)
    as (article & stats' & Hrow & _ & _ & _ & Hcase);
    [ by eexists | vm_compute; reflexivity .. | ].
  exists article, stats'. split; [exact Hrow|]. exact Hcase.
Defined.

End ImportRecords.
